(** * AutoChatter: a shallow embedding of the polling comment bot

    The development follows the Python sources module by module:
    - [config.py]    : the record [Config];
    - [state.py]     : [StateManager] and its methods (module [state]);
    - [templates.py] : comment selection (module [templates]);
    - [yt_client.py] : [YouTubeClient] (module [yt_client]);
    - [main.py]      : [process_video], [check_for_new_videos] and the
                       polling loop (module [main]).

    Everything the program does to its surroundings (remote API calls,
    sleeps, log records, the state file, the clock, the random generator)
    goes through one state-and-exception monad [M] over a [World].

    Left out: the OAuth flow of [YouTubeClient.authenticate], the start-up
    checks of [main] and the handling of [KeyboardInterrupt]. *)

From Stdlib Require Import ZArith QArith Lia Ascii DecimalString DecimalN Sorted.
From stdpp Require Import gmap strings list.

Set Warnings "-register-all".

Local Open Scope string_scope.
Local Open Scope Z_scope.

(** ** config.py *)

Record Config := {
  POLL_INTERVAL_SECONDS : Z;
  MIN_COMMENT_DELAY : Z;
  MAX_COMMENT_DELAY : Z;
  DISCORD_LINK : string;
  DISCORD_INCLUSION_RATE : Q;
  SHORTS_ONLY : bool;
  MAX_SHORTS_DURATION : Z;
  STATE_FILE : string;
  MAX_RETRIES : Z;
  INITIAL_BACKOFF : Z;
  MAX_BACKOFF : Z;
  CHANNEL_ID : string
}.

(** The values written in [config.py]; [CHANNEL_ID] comes from the process
    environment there and is a parameter here. *)
Definition default_config (channel : string) : Config := {|
  POLL_INTERVAL_SECONDS := 600;
  MIN_COMMENT_DELAY := 30;
  MAX_COMMENT_DELAY := 180;
  DISCORD_LINK := "https://discord.gg/your-invite-code";
  DISCORD_INCLUSION_RATE := (2 # 10)%Q;
  SHORTS_ONLY := false;
  MAX_SHORTS_DURATION := 60;
  STATE_FILE := "state.json";
  MAX_RETRIES := 5;
  INITIAL_BACKOFF := 1;
  MAX_BACKOFF := 300;
  CHANNEL_ID := channel
|}.

(** ** Values exchanged with the surroundings *)

(** A decoded JSON document (numbers: integers only). *)
Inductive json :=
| JNull
| JBool (b : bool)
| JNum (z : Z)
| JStr (s : string)
| JArr (items : list json)
| JObj (fields : list (string * json)).

(** The members a Python [set] built from decoded JSON can hold.  Python
    identifies [True] with [1] and [False] with [0] inside a set. *)
Inductive hashable :=
| HStr (s : string)
| HInt (z : Z)
| HNone.

Global Instance hashable_eq_dec : EqDecision hashable.
Proof. solve_decision. Defined.

Definition hashable_enc (h : hashable) : string + Z + unit :=
  match h with
  | HStr s => inl (inl s)
  | HInt z => inl (inr z)
  | HNone => inr tt
  end.

Definition hashable_dec (x : string + Z + unit) : hashable :=
  match x with
  | inl (inl s) => HStr s
  | inl (inr z) => HInt z
  | inr _ => HNone
  end.

Global Instance hashable_countable : Countable hashable.
Proof.
  apply (inj_countable' hashable_enc hashable_dec).
  intros []; reflexivity.
Defined.

(** What lies at a path of the file system: text that [json.load] cannot
    read, or a JSON document. *)
Inductive file_data :=
| Garbage
| Doc (j : json).

(** How one attempt to rewrite a file ends. *)
Inductive io_fault :=
| NoFault      (* the file is rewritten *)
| OpenFails    (* [open(path, 'w')] raises: nothing is written *)
| DumpFails.   (* the file was truncated by [open], then writing raises *)

(** A video as [get_channel_uploads] builds it. *)
Record Video := {
  id : string;
  title : string;
  published_at : string
}.

(** The Python exceptions that the modelled code can meet.  [HttpError]
    is [googleapiclient.errors.HttpError] with its [resp.status]. *)
Inductive exn :=
| HttpError (status : Z)
| ValueError
| TypeError
| AttributeError
| IndexError
| KeyError
| JSONDecodeError
| OSError.

(** Outcome of [commentThreads().insert(...).execute()]: a response, or
    an exception raised by the call. *)
Inductive response :=
| Success
| Failure (e : exn).

(** Outcome of [videos().list(...).execute()] followed by the reading of
    the duration field: an exception, a response without items, or the
    duration string of the first item. *)
Inductive videos_response :=
| VRaises (e : exn)
| VNoItems
| VDuration (duration_str : string).

(** Outcome of the two listing requests of [get_channel_uploads] and of
    the reading of their items: an exception, an unknown channel, or the
    videos built from the playlist items. *)
Inductive uploads_response :=
| URaises (e : exn)
| UNoChannel
| UItems (videos : list Video).

(** ** Observable events *)

Inductive level := DEBUG | INFO | WARNING | ERROR.

Inductive message :=
(* state.py *)
| MsgLoaded (tracked : nat)
| MsgLoadError
| MsgNoStateFile
| MsgSaved (tracked : nat)
| MsgSaveError
(* yt_client.py *)
| MsgChannelNotFound (channel : string)
| MsgFetched (n : nat) (channel : string)
| MsgUploadsHttpError
| MsgUploadsError
| MsgDurationError (video_id : string)
| MsgPosted (video_id : string)
| MsgRetrying (status backoff retries max_retries : Z)
| MsgRetriesExhausted (max_retries : Z)
| MsgPostHttpError (video_id : string)
| MsgPostUnexpected (video_id : string)
(* main.py *)
| MsgAlreadyProcessed (video_id : string)
| MsgProcessing (video_title video_id : string)
| MsgSkippingNonShort (video_id : string)
| MsgIsShort (video_id : string)
| MsgWaiting (delay : Z)
| MsgPosting (video_id : string)
| MsgCommentText (text : string)
| MsgCommented (video_title : string)
| MsgCommentFailed (video_title : string)
| MsgNoChannelId
| MsgChecking (channel : string)
| MsgNoVideos
| MsgNoNewVideos
| MsgProcessed (n : Z)
| MsgPollError
| MsgWaitingPoll (secs : Z).

Inductive request :=
| ReqCommentInsert (video_id text : string)
| ReqVideosList (video_id : string)
| ReqUploads (channel : string) (max_results : Z).

Inductive event :=
| ELog (l : level) (m : message)
| ESleep (secs : Z)
| ERequest (r : request)
| EEnterPostComment (video_id text : string).
    (* marks the entry into [post_comment]; the program prints nothing there *)

(** ** state.py: the object *)

Record StateManager := {
  state_file : string;
  last_seen_videos : gset hashable;
  last_check_time : json   (* [JNull] is Python's [None] *)
}.

(** ** The world and the monad *)

(** The answers of the surroundings, each indexed by the number of earlier
    calls of the same kind. *)
Record Env := {
  insert_reply : nat -> response;
  videos_reply : nat -> videos_response;
  uploads_reply : nat -> uploads_response;
  rng : nat -> N;
  utcnow_isoformat : nat -> string;
  write_fault : nat -> io_fault
}.

Record World := {
  store : StateManager;            (* the object bound to [state] in main *)
  disk : gmap string file_data;
  n_insert : nat;
  n_videos : nat;
  n_uploads : nat;
  n_rng : nat;
  n_clock : nat;
  n_write : nat;
  trace : list event               (* oldest first *)
}.

(** How a computation ends: with a value, with a Python exception, or
    because the bound given to a loop of the model was too small.  The
    last case never occurs in a run of the program (see
    [polling_loop_terminates]). *)
Inductive result (A : Type) :=
| Ret (a : A)
| Raise (e : exn)
| OutOfFuel.
Arguments Ret {A} a.
Arguments Raise {A} e.
Arguments OutOfFuel {A}.

Definition M (A : Type) : Type := World -> result A * World.

Global Instance M_ret : MRet M := fun A a w => (Ret a, w).

Global Instance M_bind : MBind M := fun A B f m w =>
  match m w with
  | (Ret a, w') => f a w'
  | (Raise e, w') => (Raise e, w')
  | (OutOfFuel, w') => (OutOfFuel, w')
  end.

Definition raise {A} (e : exn) : M A := fun w => (Raise e, w).
Definition out_of_fuel {A} : M A := fun w => (OutOfFuel, w).

(** [try: body except Exception: handler] *)
Definition try_except {A} (body : M A) (handler : exn -> M A) : M A := fun w =>
  match body w with
  | (Raise e, w') => handler e w'
  | r => r
  end.

Definition set_store (s : StateManager) (w : World) : World :=
  {| store := s; disk := disk w; n_insert := n_insert w; n_videos := n_videos w;
     n_uploads := n_uploads w; n_rng := n_rng w; n_clock := n_clock w;
     n_write := n_write w; trace := trace w |}.

Definition set_disk (d : gmap string file_data) (w : World) : World :=
  {| store := store w; disk := d; n_insert := n_insert w; n_videos := n_videos w;
     n_uploads := n_uploads w; n_rng := n_rng w; n_clock := n_clock w;
     n_write := n_write w; trace := trace w |}.

Definition set_trace (t : list event) (w : World) : World :=
  {| store := store w; disk := disk w; n_insert := n_insert w; n_videos := n_videos w;
     n_uploads := n_uploads w; n_rng := n_rng w; n_clock := n_clock w;
     n_write := n_write w; trace := t |}.

Definition tick_insert (w : World) : World :=
  {| store := store w; disk := disk w; n_insert := S (n_insert w); n_videos := n_videos w;
     n_uploads := n_uploads w; n_rng := n_rng w; n_clock := n_clock w;
     n_write := n_write w; trace := trace w |}.

Definition tick_videos (w : World) : World :=
  {| store := store w; disk := disk w; n_insert := n_insert w; n_videos := S (n_videos w);
     n_uploads := n_uploads w; n_rng := n_rng w; n_clock := n_clock w;
     n_write := n_write w; trace := trace w |}.

Definition tick_uploads (w : World) : World :=
  {| store := store w; disk := disk w; n_insert := n_insert w; n_videos := n_videos w;
     n_uploads := S (n_uploads w); n_rng := n_rng w; n_clock := n_clock w;
     n_write := n_write w; trace := trace w |}.

Definition tick_rng (w : World) : World :=
  {| store := store w; disk := disk w; n_insert := n_insert w; n_videos := n_videos w;
     n_uploads := n_uploads w; n_rng := S (n_rng w); n_clock := n_clock w;
     n_write := n_write w; trace := trace w |}.

Definition tick_clock (w : World) : World :=
  {| store := store w; disk := disk w; n_insert := n_insert w; n_videos := n_videos w;
     n_uploads := n_uploads w; n_rng := n_rng w; n_clock := S (n_clock w);
     n_write := n_write w; trace := trace w |}.

Definition tick_write (w : World) : World :=
  {| store := store w; disk := disk w; n_insert := n_insert w; n_videos := n_videos w;
     n_uploads := n_uploads w; n_rng := n_rng w; n_clock := n_clock w;
     n_write := S (n_write w); trace := trace w |}.

Definition emit (e : event) : M unit := fun w =>
  (Ret tt, set_trace (trace w ++ [e]) w).

Definition log (l : level) (m : message) : M unit := emit (ELog l m).

Definition get_store : M StateManager := fun w => (Ret (store w), w).
Definition put_store (s : StateManager) : M unit := fun w => (Ret tt, set_store s w).

(** [time.sleep(secs)]: a negative argument raises [ValueError]. *)
Definition sleep (secs : Z) : M unit :=
  if secs <? 0 then raise ValueError else emit (ESleep secs).

(** ** state.py *)

Module state.

(** [dict.get(key, default)] on a decoded JSON object (keys are distinct). *)
Fixpoint dict_get (fields : list (string * json)) (key : string) (default : json) : json :=
  match fields with
  | [] => default
  | (k, v) :: rest => if String.eqb k key then v else dict_get rest key default
  end.

(** [data.get(key, default)]: only a dict has [get]. *)
Definition data_get (data : json) (key : string) (default : json) : M json :=
  match data with
  | JObj fields => mret (dict_get fields key default)
  | _ => raise AttributeError
  end.

Definition to_hashable (j : json) : option hashable :=
  match j with
  | JNull => Some HNone
  | JBool b => Some (HInt (if b then 1 else 0))
  | JNum z => Some (HInt z)
  | JStr s => Some (HStr s)
  | JArr _ | JObj _ => None
  end.

Definition of_hashable (h : hashable) : json :=
  match h with
  | HStr s => JStr s
  | HInt z => JNum z
  | HNone => JNull
  end.

Fixpoint all_hashable (items : list json) : option (list hashable) :=
  match items with
  | [] => Some []
  | j :: rest =>
      match to_hashable j, all_hashable rest with
      | Some h, Some hs => Some (h :: hs)
      | _, _ => None
      end
  end.

Fixpoint characters (s : string) : list string :=
  match s with
  | EmptyString => []
  | String c rest => String c EmptyString :: characters rest
  end.

(** [set(x)] for a decoded JSON value [x]: the members of a list, the
    characters of a string, the keys of a dict; [TypeError] when [x] is
    not iterable or a member is not hashable. *)
Definition py_set (x : json) : M (gset hashable) :=
  match x with
  | JArr items =>
      match all_hashable items with
      | Some hs => mret (list_to_set hs)
      | None => raise TypeError
      end
  | JStr s => mret (list_to_set (HStr <$> characters s))
  | JObj fields => mret (list_to_set ((fun kv => HStr (fst kv)) <$> fields))
  | JNull | JBool _ | JNum _ => raise TypeError
  end.

(** [with open(path, 'r') as f: json.load(f)] on an existing path. *)
Definition json_load (path : string) : M json := fun w =>
  match disk w !! path with
  | Some (Doc j) => (Ret j, w)
  | Some Garbage => (Raise JSONDecodeError, w)
  | None => (Raise OSError, w)
  end.

Definition path_exists (path : string) : M bool := fun w =>
  (Ret (bool_decide (is_Some (disk w !! path))), w).

Section WithEnv.
Context (env : Env).

(** [with open(path, 'w') as f: json.dump(data, f, indent=2)] *)
Definition json_dump (path : string) (data : json) : M unit := fun w =>
  let w1 := tick_write w in
  match write_fault env (n_write w) with
  | NoFault => (Ret tt, set_disk (<[path := Doc data]> (disk w1)) w1)
  | OpenFails => (Raise OSError, w1)
  | DumpFails => (Raise OSError, set_disk (<[path := Garbage]> (disk w1)) w1)
  end.

(** [datetime.utcnow().isoformat()] *)
Definition utcnow : M string := fun w =>
  (Ret (utcnow_isoformat env (n_clock w)), tick_clock w).

Definition load_state : M unit :=
  self ← get_store;
  found ← path_exists (state_file self);
  if (found : bool) then
    try_except
      (data ← json_load (state_file self);
       ids_json ← data_get data "last_seen_videos" (JArr []);
       ids ← py_set ids_json;
       put_store {| state_file := state_file self;
                    last_seen_videos := ids;
                    last_check_time := last_check_time self |};;
       self ← get_store;
       t ← data_get data "last_check_time" JNull;
       put_store {| state_file := state_file self;
                    last_seen_videos := last_seen_videos self;
                    last_check_time := t |};;
       log INFO (MsgLoaded (size ids)))
      (fun _ =>
         log ERROR MsgLoadError;;
         self ← get_store;
         put_store {| state_file := state_file self;
                      last_seen_videos := ∅;
                      last_check_time := JNull |})
  else
    log INFO MsgNoStateFile.

Definition __init__ (state_file : string) : M unit :=
  put_store {| state_file := state_file;
               last_seen_videos := ∅;
               last_check_time := JNull |};;
  load_state.

Definition save_state : M unit :=
  try_except
    (self ← get_store;
     let data := JObj [("last_seen_videos",
                        JArr (of_hashable <$> elements (last_seen_videos self)));
                       ("last_check_time", last_check_time self)] in
     json_dump (state_file self) data;;
     log INFO (MsgSaved (size (last_seen_videos self))))
    (fun _ => log ERROR MsgSaveError).

Definition is_video_seen (video_id : string) : M bool :=
  self ← get_store;
  mret (bool_decide (HStr video_id ∈ last_seen_videos self)).

Definition mark_video_seen (video_id : string) : M unit :=
  self ← get_store;
  put_store {| state_file := state_file self;
               last_seen_videos := last_seen_videos self ∪ {[HStr video_id]};
               last_check_time := last_check_time self |};;
  now ← utcnow;
  self ← get_store;
  put_store {| state_file := state_file self;
               last_seen_videos := last_seen_videos self;
               last_check_time := JStr now |};;
  save_state.

Definition get_last_check_time : M json :=
  self ← get_store;
  mret (last_check_time self).

End WithEnv.

End state.

(** ** templates.py *)

Module templates.

Definition COMMENT_TEMPLATES : list string := [
  "Great video! Really enjoyed this content. 🎉";
  "Amazing work! Keep it up! 👏";
  "This is exactly what I was looking for! Thank you! 🙏";
  "Absolutely love your content! Can't wait for more! ❤️";
  "Incredible video! Very well done! 🌟";
  "This is so helpful! Thanks for sharing! 💯";
  "Wow, this is fantastic! Keep creating! 🚀";
  "Really appreciate this content! Well done! 👍";
  "Outstanding video! Very informative! 📚";
  "Love this! More content like this please! 🔥"
].

Definition newline : string := String (Ascii.ascii_of_nat 10) EmptyString.

Section WithEnv.
Context (env : Env).

(** One raw draw of the generator behind the [random] module. *)
Definition draw : M N := fun w => (Ret (rng env (n_rng w)), tick_rng w).

(** [random.choice(seq)] *)
Definition random_choice {A} (seq : list A) : M A :=
  match seq with
  | [] => raise IndexError
  | x :: _ => k ← draw; mret (nth (N.to_nat k mod length seq) seq x)
  end.

(** [random.random()]: a multiple of 2^-53 in [0, 1). *)
Definition random_random : M Q :=
  k ← draw; mret (Z.of_N (k mod 2 ^ 53) # 2 ^ 53)%Q.

(** [random.randint(a, b)]: an empty range raises [ValueError]. *)
Definition random_randint (a b : Z) : M Z :=
  if b <? a then raise ValueError
  else k ← draw; mret (a + Z.of_N k mod (b - a + 1)).

Definition get_random_comment (include_discord : bool) (discord_link : string) : M string :=
  comment ← random_choice COMMENT_TEMPLATES;
  if include_discord && negb (String.eqb discord_link "") then
    mret (comment +:+ newline +:+ newline +:+ "Join our community: " +:+ discord_link)
  else
    mret comment.

Definition should_include_discord (inclusion_rate : Q) : M bool :=
  r ← random_random; mret (negb (Qle_bool inclusion_rate r)).

End WithEnv.

Definition get_all_templates : list string := COMMENT_TEMPLATES.

End templates.

(** ** yt_client.py *)

Module yt_client.

(** *** The duration parser *)

(** Strings are strings of bytes; [\d] is taken over the ASCII digits,
    which is what it matches in ASCII text. *)
Definition is_digit (c : Ascii.ascii) : bool :=
  ((48 <=? Ascii.nat_of_ascii c) && (Ascii.nat_of_ascii c <=? 57))%nat.

(** [duration.replace('PT', '')]: every occurrence, left to right. *)
Fixpoint replace_PT (s : string) : string :=
  match s with
  | EmptyString => EmptyString
  | String c rest =>
      match rest with
      | String d rest' =>
          if Ascii.eqb c "P"%char && Ascii.eqb d "T"%char then replace_PT rest'
          else String c (replace_PT rest)
      | EmptyString => String c EmptyString
      end
  end.

(** The longest run of digits at the head of [s], and what follows it. *)
Fixpoint span_digits (s : string) : string * string :=
  match s with
  | EmptyString => (EmptyString, EmptyString)
  | String c rest =>
      if is_digit c then
        let (ds, tail) := span_digits rest in (String c ds, tail)
      else (EmptyString, s)
  end.

(** [re.search(r'(\d+)U', s)] for a letter [U]: group 1 of the leftmost
    match.  A match starts at a digit whose run of digits is followed by
    [U]; [\d+] is greedy and a shorter run is followed by a digit, so the
    group is the whole run. *)
Fixpoint re_search_digits (unit : Ascii.ascii) (s : string) : option string :=
  match s with
  | EmptyString => None
  | String c rest =>
      if is_digit c then
        match span_digits s with
        | (ds, String c' _) =>
            if Ascii.eqb c' unit then Some ds else re_search_digits unit rest
        | (_, EmptyString) => re_search_digits unit rest
        end
      else re_search_digits unit rest
  end.

Definition digit_value (c : Ascii.ascii) : Z :=
  Z.of_nat (Ascii.nat_of_ascii c) - 48.

(** [int(s)] for a string of digits. *)
Fixpoint int_from (acc : Z) (s : string) : Z :=
  match s with
  | EmptyString => acc
  | String c rest => int_from (acc * 10 + digit_value c) rest
  end.

Definition int (s : string) : Z := int_from 0 s.

Definition _parse_duration (duration : string) : Z :=
  let duration := replace_PT duration in
  let hours := match re_search_digits "H"%char duration with
               | Some g => int g | None => 0 end in
  let minutes := match re_search_digits "M"%char duration with
                 | Some g => int g | None => 0 end in
  let seconds := match re_search_digits "S"%char duration with
                 | Some g => int g | None => 0 end in
  hours * 3600 + minutes * 60 + seconds.

(** *** The client *)

(** What one pass through the body of the [while] of [post_comment] does
    to the control flow. *)
Inductive flow :=
| Return (value : bool)
| Continue (retries backoff : Z).

Section WithConfig.
Context (config : Config) (env : Env).

Definition api_call (r : request) : M unit := emit (ERequest r).

(** The next answer of the remote side to each kind of call. *)
Definition next_insert_reply : M response := fun w =>
  (Ret (insert_reply env (n_insert w)), tick_insert w).

Definition next_videos_reply : M videos_response := fun w =>
  (Ret (videos_reply env (n_videos w)), tick_videos w).

Definition next_uploads_reply : M uploads_response := fun w =>
  (Ret (uploads_reply env (n_uploads w)), tick_uploads w).

(** [commentThreads().insert(...).execute()] *)
Definition execute_comment_insert (video_id comment_text : string) : M unit :=
  api_call (ReqCommentInsert video_id comment_text);;
  r ← next_insert_reply;
  match r with
  | Success => mret tt
  | Failure e => raise e
  end.

(** [videos().list(...).execute()] and the reading of the duration field;
    [None] stands for a response without items. *)
Definition execute_videos_list (video_id : string) : M (option string) :=
  api_call (ReqVideosList video_id);;
  r ← next_videos_reply;
  match r with
  | VRaises e => raise e
  | VNoItems => mret None
  | VDuration duration_str => mret (Some duration_str)
  end.

(** The requests of [get_channel_uploads]; [None] stands for an unknown
    channel. *)
Definition execute_uploads (channel_id : string) (max_results : Z)
  : M (option (list Video)) :=
  api_call (ReqUploads channel_id max_results);;
  r ← next_uploads_reply;
  match r with
  | URaises e => raise e
  | UNoChannel => mret None
  | UItems videos => mret (Some videos)
  end.

Definition get_channel_uploads (channel_id : string) (max_results : Z)
  : M (list Video) :=
  try_except
    (r ← execute_uploads channel_id max_results;
     match r with
     | None => log WARNING (MsgChannelNotFound channel_id);; mret []
     | Some videos =>
         log INFO (MsgFetched (length videos) channel_id);; mret videos
     end)
    (fun e =>
       match e with
       | HttpError _ => log ERROR MsgUploadsHttpError;; mret []
       | _ => log ERROR MsgUploadsError;; mret []
       end).

Definition get_video_duration (video_id : string) : M (option Z) :=
  try_except
    (r ← execute_videos_list video_id;
     match r with
     | None => mret None
     | Some duration_str => mret (Some (_parse_duration duration_str))
     end)
    (fun _ => log ERROR (MsgDurationError video_id);; mret None).

(** The body of the [while] of [post_comment]: one [try] statement. *)
Definition post_comment_body (video_id comment_text : string)
    (retries backoff : Z) : M flow :=
  try_except
    (execute_comment_insert video_id comment_text;;
     log INFO (MsgPosted video_id);;
     mret (Return true))
    (fun e =>
       match e with
       | HttpError status_code =>
           if (status_code =? 429) || (status_code >=? 500) then
             let retries := retries + 1 in
             if retries <? MAX_RETRIES config then
               log WARNING (MsgRetrying status_code backoff retries
                                        (MAX_RETRIES config));;
               sleep backoff;;
               let backoff := Z.min (backoff * 2) (MAX_BACKOFF config) in
               mret (Continue retries backoff)
             else
               log ERROR (MsgRetriesExhausted (MAX_RETRIES config));;
               mret (Return false)
           else
             log ERROR (MsgPostHttpError video_id);;
             mret (Return false)
       | _ =>
           log ERROR (MsgPostUnexpected video_id);;
           mret (Return false)
       end).

(** [while retries < config.MAX_RETRIES: ...] followed by [return False]. *)
Fixpoint post_comment_while (fuel : nat) (video_id comment_text : string)
    (retries backoff : Z) : M bool :=
  if retries <? MAX_RETRIES config then
    match fuel with
    | O => out_of_fuel
    | S fuel' =>
        f ← post_comment_body video_id comment_text retries backoff;
        match f with
        | Return value => mret value
        | Continue retries backoff =>
            post_comment_while fuel' video_id comment_text retries backoff
        end
    end
  else mret false.

Definition post_comment (video_id comment_text : string) : M bool :=
  emit (EEnterPostComment video_id comment_text);;
  post_comment_while (Z.to_nat (MAX_RETRIES config)) video_id comment_text
                     0 (INITIAL_BACKOFF config).

Definition is_short (video_id : string) : M bool :=
  duration ← get_video_duration video_id;
  match duration with
  | None => mret false
  | Some duration => mret (duration <=? MAX_SHORTS_DURATION config)
  end.

End WithConfig.

End yt_client.

(** ** main.py *)

Module main.

Section WithConfig.
Context (config : Config) (env : Env).

Definition process_video (video : Video) : M unit :=
  let video_id := id video in
  let video_title := title video in
  seen ← state.is_video_seen video_id;
  if (seen : bool) then
    log DEBUG (MsgAlreadyProcessed video_id)
  else
    log INFO (MsgProcessing video_title video_id);;
    let comment : M unit :=
      delay ← templates.random_randint env (MIN_COMMENT_DELAY config)
                                           (MAX_COMMENT_DELAY config);
      log INFO (MsgWaiting delay);;
      sleep delay;;
      include_discord ←
        templates.should_include_discord env (DISCORD_INCLUSION_RATE config);
      comment_text ←
        templates.get_random_comment env include_discord (DISCORD_LINK config);
      log INFO (MsgPosting video_id);;
      log DEBUG (MsgCommentText comment_text);;
      success ← yt_client.post_comment config env video_id comment_text;
      (if (success : bool) then log INFO (MsgCommented video_title)
       else log ERROR (MsgCommentFailed video_title));;
      state.mark_video_seen env video_id
    in
    if SHORTS_ONLY config then
      is_short ← yt_client.is_short config env video_id;
      if negb is_short then
        log INFO (MsgSkippingNonShort video_id);;
        state.mark_video_seen env video_id
      else
        log INFO (MsgIsShort video_id);;
        comment
    else comment.

(** [for video in videos: ...] of [check_for_new_videos], threading
    [new_videos_count]. *)
Fixpoint for_video_in (videos : list Video) (new_videos_count : Z) : M Z :=
  match videos with
  | [] => mret new_videos_count
  | video :: rest =>
      seen ← state.is_video_seen (id video);
      if negb seen then
        process_video video;;
        for_video_in rest (new_videos_count + 1)
      else
        for_video_in rest new_videos_count
  end.

Definition check_for_new_videos : M unit :=
  if String.eqb (CHANNEL_ID config) "" then
    log ERROR MsgNoChannelId
  else
    log INFO (MsgChecking (CHANNEL_ID config));;
    videos ← yt_client.get_channel_uploads env (CHANNEL_ID config) 5;
    match videos with
    | [] => log INFO MsgNoVideos
    | _ =>
        new_videos_count ← for_video_in videos 0;
        if new_videos_count =? 0 then log INFO MsgNoNewVideos
        else log INFO (MsgProcessed new_videos_count)
    end.

(** One pass through the body of [while True] in [main]. *)
Definition poll_once : M unit :=
  try_except check_for_new_videos (fun _ => log ERROR MsgPollError);;
  log INFO (MsgWaitingPoll (POLL_INTERVAL_SECONDS config));;
  sleep (POLL_INTERVAL_SECONDS config).

(** The first [iterations] passes of the polling loop. *)
Fixpoint polling_loop (iterations : nat) : M unit :=
  match iterations with
  | O => mret tt
  | S n => poll_once;; polling_loop n
  end.

End WithConfig.

End main.

(** ** Observations on runs *)

(** The failures that [post_comment] retries: rate limiting (429) and
    server errors (5xx), as its test on [status_code] reads. *)
Definition transient (e : exn) : bool :=
  match e with
  | HttpError status_code => (status_code =? 429) || (status_code >=? 500)
  | _ => false
  end.

(** The log record written for a failure that is not retried. *)
Definition rejection_message (e : exn) (video_id : string) : message :=
  match e with
  | HttpError _ => MsgPostHttpError video_id
  | _ => MsgPostUnexpected video_id
  end.

(** The durations slept, in order. *)
Definition sleeps (t : list event) : list Z :=
  omap (fun e => match e with ESleep secs => Some secs | _ => None end) t.

(** The videos on which a comment insertion was sent to the remote side. *)
Definition insert_requests (t : list event) : list string :=
  omap (fun e => match e with
                 | ERequest (ReqCommentInsert video_id _) => Some video_id
                 | _ => None
                 end) t.

(** The videos for which [post_comment] was entered. *)
Definition post_comment_calls (t : list event) : list string :=
  omap (fun e => match e with
                 | EEnterPostComment video_id _ => Some video_id
                 | _ => None
                 end) t.

(** The world after [k] further comment insertions and the events [t]. *)
Definition advance (w : World) (k : nat) (t : list event) : World :=
  {| store := store w; disk := disk w; n_insert := (n_insert w + k)%nat;
     n_videos := n_videos w; n_uploads := n_uploads w; n_rng := n_rng w;
     n_clock := n_clock w; n_write := n_write w; trace := trace w ++ t |}.

(** The events of [w'] that came after those of [w]. *)
Definition events_since (w w' : World) : list event :=
  drop (length (trace w)) (trace w').

(** The backoff values of successive passes through the retry branch:
    [backoff = min(backoff * 2, config.MAX_BACKOFF)]. *)
Fixpoint backoffs (backoff max_backoff : Z) (n : nat) : list Z :=
  match n with
  | O => []
  | S n' => backoff :: backoffs (Z.min (backoff * 2) max_backoff) max_backoff n'
  end.

(** The value of [backoff] after [n] passes through the retry branch. *)
Fixpoint backoff_after (backoff max_backoff : Z) (n : nat) : Z :=
  match n with
  | O => backoff
  | S n' => backoff_after (Z.min (backoff * 2) max_backoff) max_backoff n'
  end.

(** The schedule [min(initial * 2^k, cap)] for [k = 0 .. n-1]. *)
Definition backoff_schedule (initial cap : Z) (n : nat) : list Z :=
  map (fun k => Z.min (initial * 2 ^ Z.of_nat k) cap) (seq 0 n).

(** The remote side answers the next [n] comment insertions with
    transient failures and the one after with [final]. *)
Definition transient_failures_then (env : Env) (w : World) (n : nat)
    (final : response) : Prop :=
  (forall k, (k < n)%nat ->
     exists e, insert_reply env (n_insert w + k) = Failure e /\ transient e = true)
  /\ insert_reply env (n_insert w + n) = final.

Definition transient_failures_then_success (env : Env) (w : World) (n : nat) : Prop :=
  transient_failures_then env w n Success.

(** The retry policy of [post_comment] on [n] transient failures followed
    by a success: with retries to spare the call returns [True] after [n]
    sleeps that follow the schedule; otherwise it returns [False] after
    [MAX_RETRIES - 1] sleeps and [MAX_RETRIES] requests, the last record
    logged being the exhaustion of the retries. *)
Definition retry_policy (config : Config) (env : Env)
    (video_id text : string) (w : World) (n : nat) : Prop :=
  let R := MAX_RETRIES config in
  let schedule := backoff_schedule (INITIAL_BACKOFF config) (MAX_BACKOFF config) in
  let run := yt_client.post_comment config env video_id text w in
  let t := events_since w (snd run) in
  (Z.of_nat n < R ->
     fst run = Ret true
     /\ sleeps t = schedule n
     /\ insert_requests t = replicate (n + 1) video_id
     /\ n_insert (snd run) = (n_insert w + n + 1)%nat)
  /\ (R <= Z.of_nat n ->
     fst run = Ret false
     /\ sleeps t = schedule (Z.to_nat (R - 1))
     /\ insert_requests t = replicate (Z.to_nat R) video_id
     /\ last t = Some (ELog ERROR (MsgRetriesExhausted R))
     /\ n_insert (snd run) = (n_insert w + Z.to_nat R)%nat).

(** The computation never stops for lack of fuel. *)
Definition terminates {A} (m : M A) : Prop :=
  forall w, fst (m w) <> OutOfFuel.

(** *** Duration tokens *)

(** [ds] is a decimal numeral of [n]: a non-empty string that the decimal
    reader of the standard library reads as a number equal to [n]. *)
Definition spells (ds : string) (n : nat) : Prop :=
  ds <> "" /\ exists d, NilEmpty.uint_of_string ds = Some d /\ Nat.of_uint d = n.

(** A unit of a duration token: absent, or the digits [ds] of the number
    [n]. *)
Definition duration_field : Type := option (string * nat).

Definition field_ok (f : duration_field) : Prop :=
  match f with
  | None => True
  | Some (ds, n) => spells ds n
  end.

Definition field_text (f : duration_field) (unit : ascii) : string :=
  match f with
  | None => ""
  | Some (ds, _) => ds +:+ String unit ""
  end.

Definition field_value (f : duration_field) : Z :=
  match f with
  | None => 0
  | Some (_, n) => Z.of_nat n
  end.

(** The token [PT[hH][mM][sS]]. *)
Definition duration_token (h m s : duration_field) : string :=
  "PT" +:+ field_text h "H" +:+ field_text m "M" +:+ field_text s "S".

Fixpoint all_digits (s : string) : bool :=
  match s with
  | EmptyString => true
  | String c rest => yt_client.is_digit c && all_digits rest
  end.

(** No character of [s] is the letter P. *)
Fixpoint no_P (s : string) : bool :=
  match s with
  | EmptyString => true
  | String c rest => negb (Ascii.eqb c "P") && no_P rest
  end.

(** The operations of the store that a client uses after construction. *)
Inductive store_op :=
| OpIsVideoSeen (video_id : string)
| OpMarkVideoSeen (video_id : string)
| OpSaveState
| OpGetLastCheckTime.

Definition run_op (env : Env) (op : store_op) : M unit :=
  match op with
  | OpIsVideoSeen video_id => state.is_video_seen video_id;; mret tt
  | OpMarkVideoSeen video_id => state.mark_video_seen env video_id
  | OpSaveState => state.save_state env
  | OpGetLastCheckTime => state.get_last_check_time;; mret tt
  end.

Fixpoint run_ops (env : Env) (ops : list store_op) : M unit :=
  match ops with
  | [] => mret tt
  | op :: rest => run_op env op;; run_ops env rest
  end.

(** The store as [__init__] leaves it before [load_state]. *)
Definition empty_store (path : string) : StateManager :=
  {| state_file := path; last_seen_videos := ∅; last_check_time := JNull |}.

(** The store after [mark_video_seen(video_id)] at the clock reading [now]. *)
Definition marked_store (s : StateManager) (video_id now : string) : StateManager :=
  {| state_file := state_file s;
     last_seen_videos := last_seen_videos s ∪ {[HStr video_id]};
     last_check_time := JStr now |}.

(** The document that [save_state] writes for the store [s]. *)
Definition state_document (s : StateManager) : json :=
  JObj [("last_seen_videos", JArr (state.of_hashable <$> elements (last_seen_videos s)));
        ("last_check_time", last_check_time s)].

(** *** Poll cycles *)

(** Settings under which neither [random.randint] nor [time.sleep] raises
    while a video is commented. *)
Definition valid_timing (config : Config) : Prop :=
  0 <= MIN_COMMENT_DELAY config <= MAX_COMMENT_DELAY config
  /\ 0 <= INITIAL_BACKOFF config
  /\ 0 <= MAX_BACKOFF config.

Definition seen_in (w : World) (video : Video) : Prop :=
  HStr (id video) ∈ last_seen_videos (store w).

Global Instance seen_in_dec w video : Decision (seen_in w video).
Proof. unfold seen_in. apply _. Defined.

(** The videos of a fetch that the store of [w] has not seen. *)
Definition unseen_videos (w : World) (videos : list Video) : list Video :=
  filter (fun video => ~ seen_in w video) videos.

(** The duration request yields no duration: it raises, or the response
    has no items. *)
Definition no_duration (r : videos_response) : Prop :=
  match r with
  | VDuration _ => False
  | _ => True
  end.

(** The duration request yields the duration of a Short. *)
Definition short_duration (config : Config) (r : videos_response) : Prop :=
  match r with
  | VDuration duration_str =>
      yt_client._parse_duration duration_str <= MAX_SHORTS_DURATION config
  | _ => False
  end.

(** The Shorts filter lets the next [n] new videos through: it is off, or
    the next [n] duration requests yield durations of Shorts. *)
Definition shorts_filter_passes (config : Config) (env : Env) (w : World)
    (n : nat) : Prop :=
  SHORTS_ONLY config = true ->
  forall j, (j < n)%nat -> short_duration config (videos_reply env (n_videos w + j)).

(** The fetch of this cycle returns three videos with distinct ids, of
    which exactly one is in the seen set. *)
Definition three_uploads_one_seen (config : Config) (env : Env) (w : World)
    (videos : list Video) : Prop :=
  CHANNEL_ID config <> ""
  /\ uploads_reply env (n_uploads w) = UItems videos
  /\ length videos = 3%nat
  /\ NoDup (id <$> videos)
  /\ length (filter (seen_in w) videos) = 1%nat.

(** The cycle comments exactly the two new videos and marks both seen. *)
Definition comments_two_new_videos (config : Config) (env : Env) (w : World)
    (videos : list Video) : Prop :=
  let run := main.check_for_new_videos config env w in
  let t := events_since w (snd run) in
  fst run = Ret tt
  /\ length (unseen_videos w videos) = 2%nat
  /\ post_comment_calls t = id <$> unseen_videos w videos
  /\ last t = Some (ELog INFO (MsgProcessed 2))
  /\ (forall video, video ∈ videos -> seen_in (snd run) video)
  /\ size (last_seen_videos (store (snd run)))
     = (size (last_seen_videos (store w)) + 2)%nat.

(** What [is_short] leaves in the trace when the request yields no
    duration. *)
Definition no_duration_events (video_id : string) (r : videos_response) : list event :=
  match r with
  | VRaises _ => [ERequest (ReqVideosList video_id);
                  ELog ERROR (MsgDurationError video_id)]
  | _ => [ERequest (ReqVideosList video_id)]
  end.

(** A video whose duration request yields no duration is left out of the
    seen set by the cycle. *)
Definition left_unseen (config : Config) (env : Env) (w : World)
    (video : Video) : Prop :=
  let run := main.process_video config env video w in
  fst run = Ret tt
  /\ fst (state.is_video_seen (id video) (snd run)) = Ret false.

(** *** Concrete surroundings for the examples *)

(** The answers [answers], then [default] for ever. *)
Definition script {A} (answers : list A) (default : A) : nat -> A :=
  fun k => nth k answers default.

Definition sample_env (inserts : list response) (videos : list videos_response)
    (uploads : list uploads_response) (faults : list io_fault) : Env :=
  {| insert_reply := script inserts Success;
     videos_reply := script videos VNoItems;
     uploads_reply := script uploads UNoChannel;
     rng := fun k => N.of_nat k;
     utcnow_isoformat := fun _ => "2024-05-01T12:00:00";
     write_fault := script faults NoFault |}.

(** A process that has just built its store over an empty directory. *)
Definition sample_world (seen : list string) : World :=
  {| store := {| state_file := "state.json";
                 last_seen_videos := list_to_set (HStr <$> seen);
                 last_check_time := JNull |};
     disk := ∅;
     n_insert := 0; n_videos := 0; n_uploads := 0; n_rng := 0;
     n_clock := 0; n_write := 0;
     trace := [] |}.

(** [config.py] with other retry settings. *)
Definition retry_config (max_retries initial_backoff max_backoff : Z) : Config :=
  {| POLL_INTERVAL_SECONDS := 600;
     MIN_COMMENT_DELAY := 30;
     MAX_COMMENT_DELAY := 180;
     DISCORD_LINK := "https://discord.gg/your-invite-code";
     DISCORD_INCLUSION_RATE := (2 # 10)%Q;
     SHORTS_ONLY := false;
     MAX_SHORTS_DURATION := 60;
     STATE_FILE := "state.json";
     MAX_RETRIES := max_retries;
     INITIAL_BACKOFF := initial_backoff;
     MAX_BACKOFF := max_backoff;
     CHANNEL_ID := "UC-channel" |}.

(** [config.py] with the Shorts filter switched on. *)
Definition shorts_config : Config :=
  {| POLL_INTERVAL_SECONDS := 600;
     MIN_COMMENT_DELAY := 30;
     MAX_COMMENT_DELAY := 180;
     DISCORD_LINK := "https://discord.gg/your-invite-code";
     DISCORD_INCLUSION_RATE := (2 # 10)%Q;
     SHORTS_ONLY := true;
     MAX_SHORTS_DURATION := 60;
     STATE_FILE := "state.json";
     MAX_RETRIES := 5;
     INITIAL_BACKOFF := 1;
     MAX_BACKOFF := 300;
     CHANNEL_ID := "UC-channel" |}.

(** [config.py] with other bounds for the delay before a comment. *)
Definition delay_config (min_delay max_delay : Z) : Config :=
  {| POLL_INTERVAL_SECONDS := 600;
     MIN_COMMENT_DELAY := min_delay;
     MAX_COMMENT_DELAY := max_delay;
     DISCORD_LINK := "https://discord.gg/your-invite-code";
     DISCORD_INCLUSION_RATE := (2 # 10)%Q;
     SHORTS_ONLY := false;
     MAX_SHORTS_DURATION := 60;
     STATE_FILE := "state.json";
     MAX_RETRIES := 5;
     INITIAL_BACKOFF := 1;
     MAX_BACKOFF := 300;
     CHANNEL_ID := "UC-channel" |}.

Definition sample_video (video_id : string) : Video :=
  {| id := video_id; title := "Video " +:+ video_id;
     published_at := "2024-05-01T09:00:00Z" |}.

(** *** Further observations *)

(** The videos on which a comment insertion succeeded: [post_comment] logs
    its success record exactly there. *)
Definition posted_videos (t : list event) : list string :=
  omap (fun e => match e with
                 | ELog INFO (MsgPosted video_id) => Some video_id
                 | _ => None
                 end) t.

(** The requests sent to the remote side, of any kind. *)
Definition requests (t : list event) : list request :=
  omap (fun e => match e with ERequest r => Some r | _ => None end) t.

(** No character of [s] is a digit. *)
Fixpoint no_digit (s : string) : bool :=
  match s with
  | EmptyString => true
  | String c rest => negb (yt_client.is_digit c) && no_digit rest
  end.

(** ["last_seen_videos"] values of which Python's [set] raises
    [TypeError]: values that are not iterable, and lists with a member
    that is a list or a dict. *)
Definition unhashable (j : json) : Prop :=
  match j with
  | JArr _ | JObj _ => True
  | _ => False
  end.

Definition not_a_set (j : json) : Prop :=
  match j with
  | JNull | JBool _ | JNum _ => True
  | JArr items => Exists unhashable items
  | JStr _ | JObj _ => False
  end.

(** *** Reasoning about runs *)

(** [Q] holds of the result and the world that [m] leaves from [w]. *)
Definition wp {A} (m : M A) (Q : result A -> World -> Prop) (w : World) : Prop :=
  Q (fst (m w)) (snd (m w)).

(** Every run of [m] takes a world to one related to it by [R]. *)
Definition preserves {A} (R : World -> World -> Prop) (m : M A) : Prop :=
  forall w, R w (snd (m w)).

(** What the program may do to the world between two points of a run: it
    adds events to the trace, keeps the path of the store, only adds to
    the seen set, leaves every file but the state file alone, and every
    video on which it inserted a comment is one that was not in the seen
    set before, is in it after, and got one comment. *)
Definition progress (w w' : World) : Prop :=
  exists t,
    trace w' = (trace w ++ t)%list
    /\ state_file (store w') = state_file (store w)
    /\ last_seen_videos (store w) ⊆ last_seen_videos (store w')
    /\ (forall path, path <> state_file (store w) ->
          (disk w' !! path) = (disk w !! path))
    /\ NoDup (posted_videos t)
    /\ (forall video_id, video_id ∈ posted_videos t ->
          (HStr video_id ∉ last_seen_videos (store w))
          /\ (HStr video_id ∈ last_seen_videos (store w'))).

(** The program is at rest in a step: nothing but events that are not
    success records of [post_comment] and counters of calls. *)
Definition quiet_step (w w' : World) : Prop :=
  exists t,
    trace w' = (trace w ++ t)%list
    /\ store w' = store w
    /\ disk w' = disk w
    /\ posted_videos t = []
    /\ post_comment_calls t = []
    /\ insert_requests t = []
    /\ n_insert w' = n_insert w.

(** What one call of [process_video] on [video] from [w] may end in. *)
Definition video_step (video : Video) (w : World) (res : result unit)
    (w' : World) : Prop :=
  res <> OutOfFuel
  /\ (forall e, res = Raise e ->
        e = ValueError /\ store w' = store w /\ disk w' = disk w)
  /\ (res = Ret tt -> seen_in w' video)
  /\ (seen_in w video -> store w' = store w /\ disk w' = disk w)
  /\ exists t,
       trace w' = (trace w ++ t)%list
       /\ state_file (store w') = state_file (store w)
       /\ last_seen_videos (store w) ⊆ last_seen_videos (store w')
       /\ last_seen_videos (store w')
          ⊆ last_seen_videos (store w) ∪ {[HStr (id video)]}
       /\ (forall path, path <> state_file (store w) ->
             (disk w' !! path) = (disk w !! path))
       /\ Forall (fun video_id => video_id = id video) (insert_requests t)
       /\ (post_comment_calls t = []
           \/ post_comment_calls t = [id video] /\ ~ seen_in w video)
       /\ (posted_videos t = []
           \/ posted_videos t = [id video]
              /\ ~ seen_in w video /\ seen_in w' video /\ res = Ret tt).

(** The cycle that starts in [w] finds nothing to comment: no channel is
    configured, or the fetch fails, knows no such channel or returns only
    videos of the seen set (none at all included). *)
Definition nothing_new (config : Config) (env : Env) (w : World) : Prop :=
  CHANNEL_ID config = ""
  \/ match uploads_reply env (n_uploads w) with
     | UItems videos => Forall (seen_in w) videos
     | _ => True
     end.

(** The world in which the [try] statement of the loop body of [main] is
    left: that of [check_for_new_videos], with the record of the handler
    when the check raised. *)
Definition after_check (config : Config) (env : Env) (w : World) : World :=
  let run := main.check_for_new_videos config env w in
  match fst run with
  | Raise _ => advance (snd run) 0 [ELog ERROR MsgPollError]
  | _ => snd run
  end.

(** [config.py] with another poll interval. *)
Definition interval_config (interval : Z) : Config :=
  {| POLL_INTERVAL_SECONDS := interval;
     MIN_COMMENT_DELAY := 30;
     MAX_COMMENT_DELAY := 180;
     DISCORD_LINK := "https://discord.gg/your-invite-code";
     DISCORD_INCLUSION_RATE := (2 # 10)%Q;
     SHORTS_ONLY := false;
     MAX_SHORTS_DURATION := 60;
     STATE_FILE := "state.json";
     MAX_RETRIES := 5;
     INITIAL_BACKOFF := 1;
     MAX_BACKOFF := 300;
     CHANNEL_ID := "UC1" |}.

(** * Properties *)

(** Two worlds built field by field are equal when their counters and
    traces are. *)
Ltac world_eq :=
  unfold advance, set_trace, set_store, set_disk, tick_insert, tick_videos,
    tick_uploads, tick_rng, tick_clock, tick_write; simpl;
  f_equal; try lia; rewrite <- ?app_assoc; try reflexivity.

(** Unfolds the monad down to functions on worlds. *)
Ltac run_monad :=
  unfold try_except, log, emit, raise, out_of_fuel, get_store, put_store, sleep,
    mbind, M_bind, mret, M_ret in *; simpl in *.

Section PostComment.
Context (config : Config) (env : Env).

Local Abbreviation body := (yt_client.post_comment_body config env).
Local Abbreviation while := (yt_client.post_comment_while config env).

Lemma advance_0_nil w : advance w 0 [] = w.
Proof. destruct w; unfold advance; simpl. f_equal; [lia | apply app_nil_r]. Qed.

Lemma advance_advance w k t k' t' :
  advance (advance w k t) k' t' = advance w (k + k') (t ++ t').
Proof. unfold advance; simpl. f_equal; [lia | by rewrite app_assoc]. Qed.

Lemma emit_advance e w : emit e w = (Ret tt, advance w 0 [e]).
Proof. destruct w; unfold emit. f_equal. world_eq. Qed.

Lemma body_success video_id text retries backoff w :
  insert_reply env (n_insert w) = Success ->
  body video_id text retries backoff w =
    (Ret (yt_client.Return true),
     advance w 1 [ERequest (ReqCommentInsert video_id text);
                  ELog INFO (MsgPosted video_id)]).
Proof.
  intros H. destruct w.
  unfold yt_client.post_comment_body, yt_client.execute_comment_insert,
    yt_client.api_call, yt_client.next_insert_reply.
  run_monad. rewrite H. simpl. f_equal. world_eq.
Qed.

Lemma body_rejected video_id text retries backoff w e :
  insert_reply env (n_insert w) = Failure e ->
  transient e = false ->
  body video_id text retries backoff w =
    (Ret (yt_client.Return false),
     advance w 1 [ERequest (ReqCommentInsert video_id text);
                  ELog ERROR (rejection_message e video_id)]).
Proof.
  intros H Ht. destruct w.
  unfold yt_client.post_comment_body, yt_client.execute_comment_insert,
    yt_client.api_call, yt_client.next_insert_reply.
  run_monad. rewrite H. simpl.
  destruct e; simpl in *; try rewrite Ht; simpl; f_equal; world_eq.
Qed.

Lemma body_retry video_id text retries backoff w status :
  insert_reply env (n_insert w) = Failure (HttpError status) ->
  transient (HttpError status) = true ->
  retries + 1 < MAX_RETRIES config ->
  0 <= backoff ->
  body video_id text retries backoff w =
    (Ret (yt_client.Continue (retries + 1)
                             (Z.min (backoff * 2) (MAX_BACKOFF config))),
     advance w 1 [ERequest (ReqCommentInsert video_id text);
                  ELog WARNING (MsgRetrying status backoff (retries + 1)
                                            (MAX_RETRIES config));
                  ESleep backoff]).
Proof.
  intros H Ht Hr Hb. destruct w.
  unfold yt_client.post_comment_body, yt_client.execute_comment_insert,
    yt_client.api_call, yt_client.next_insert_reply.
  run_monad. rewrite H. simpl. rewrite Ht.
  destruct (Z.ltb_spec (retries + 1) (MAX_RETRIES config)); [|lia]. simpl.
  destruct (Z.ltb_spec backoff 0); [lia|]. simpl. f_equal. world_eq.
Qed.

Lemma body_retry_negative video_id text retries backoff w status :
  insert_reply env (n_insert w) = Failure (HttpError status) ->
  transient (HttpError status) = true ->
  retries + 1 < MAX_RETRIES config ->
  backoff < 0 ->
  body video_id text retries backoff w =
    (Raise ValueError,
     advance w 1 [ERequest (ReqCommentInsert video_id text);
                  ELog WARNING (MsgRetrying status backoff (retries + 1)
                                            (MAX_RETRIES config))]).
Proof.
  intros H Ht Hr Hb. destruct w.
  unfold yt_client.post_comment_body, yt_client.execute_comment_insert,
    yt_client.api_call, yt_client.next_insert_reply.
  run_monad. rewrite H. simpl. rewrite Ht.
  destruct (Z.ltb_spec (retries + 1) (MAX_RETRIES config)); [|lia]. simpl.
  destruct (Z.ltb_spec backoff 0); [|lia]. simpl. f_equal. world_eq.
Qed.

Lemma body_exhausted video_id text retries backoff w status :
  insert_reply env (n_insert w) = Failure (HttpError status) ->
  transient (HttpError status) = true ->
  MAX_RETRIES config <= retries + 1 ->
  body video_id text retries backoff w =
    (Ret (yt_client.Return false),
     advance w 1 [ERequest (ReqCommentInsert video_id text);
                  ELog ERROR (MsgRetriesExhausted (MAX_RETRIES config))]).
Proof.
  intros H Ht Hr. destruct w.
  unfold yt_client.post_comment_body, yt_client.execute_comment_insert,
    yt_client.api_call, yt_client.next_insert_reply.
  run_monad. rewrite H. simpl. rewrite Ht.
  destruct (Z.ltb_spec (retries + 1) (MAX_RETRIES config)); [lia|]. simpl.
  f_equal. world_eq.
Qed.

Lemma while_unfold fuel video_id text retries backoff w :
  retries < MAX_RETRIES config ->
  while (S fuel) video_id text retries backoff w =
    match body video_id text retries backoff w with
    | (Ret (yt_client.Return value), w') => (Ret value, w')
    | (Ret (yt_client.Continue retries' backoff'), w') =>
        while fuel video_id text retries' backoff' w'
    | (Raise e, w') => (Raise e, w')
    | (OutOfFuel, w') => (OutOfFuel, w')
    end.
Proof.
  intros Hr. simpl.
  destruct (Z.ltb_spec retries (MAX_RETRIES config)); [|lia].
  unfold mbind, M_bind.
  destruct (body video_id text retries backoff w) as [[[]| |] w']; reflexivity.
Qed.

Lemma while_done fuel video_id text retries backoff w :
  MAX_RETRIES config <= retries ->
  while fuel video_id text retries backoff w = (Ret false, w).
Proof.
  intros Hr. destruct fuel; simpl;
    destruct (Z.ltb_spec retries (MAX_RETRIES config)); try lia; reflexivity.
Qed.

Lemma post_comment_unfold video_id text w :
  yt_client.post_comment config env video_id text w =
    while (Z.to_nat (MAX_RETRIES config)) video_id text 0 (INITIAL_BACKOFF config)
          (advance w 0 [EEnterPostComment video_id text]).
Proof.
  unfold yt_client.post_comment, mbind, M_bind. by rewrite emit_advance.
Qed.

Lemma transient_is_http e :
  transient e = true -> exists status, e = HttpError status.
Proof. destruct e; simpl; try discriminate. eauto. Qed.

(** [p] transient failures in a row, with retries to spare and sleeps that
    [time.sleep] accepts, take the loop through [p] passes. *)
Lemma while_transient_prefix p : forall fuel video_id text retries backoff w,
  (forall k, (k < p)%nat ->
     exists e, insert_reply env (n_insert w + k) = Failure e /\ transient e = true) ->
  retries + Z.of_nat p < MAX_RETRIES config ->
  Forall (fun b => 0 <= b) (backoffs backoff (MAX_BACKOFF config) p) ->
  exists t,
    while (p + fuel) video_id text retries backoff w =
      while fuel video_id text (retries + Z.of_nat p)
            (backoff_after backoff (MAX_BACKOFF config) p) (advance w p t)
    /\ sleeps t = backoffs backoff (MAX_BACKOFF config) p
    /\ insert_requests t = replicate p video_id
    /\ post_comment_calls t = [].
Proof.
  induction p as [|p IH]; intros fuel video_id text retries backoff w Hfail Hr Hb.
  - exists []. simpl. rewrite advance_0_nil, Z.add_0_r. done.
  - destruct (Hfail 0%nat) as (e & He & Ht); [lia|].
    destruct (transient_is_http e Ht) as [status ->].
    rewrite Nat.add_0_r in He.
    simpl in Hb. apply Forall_cons in Hb as [Hb0 Hb].
    set (w1 := advance w 1 [ERequest (ReqCommentInsert video_id text);
                 ELog WARNING (MsgRetrying status backoff (retries + 1)
                                           (MAX_RETRIES config));
                 ESleep backoff]).
    destruct (IH fuel video_id text (retries + 1)
                 (Z.min (backoff * 2) (MAX_BACKOFF config)) w1)
      as (t & Hrun & Hs & Hq & Hc).
    + intros k Hk. destruct (Hfail (S k)) as (e' & He' & Ht'); [lia|].
      exists e'. split; [|done]. subst w1; simpl.
      by replace (n_insert w + 1 + k)%nat with (n_insert w + S k)%nat by lia.
    + lia.
    + done.
    + exists ([ERequest (ReqCommentInsert video_id text);
                ELog WARNING (MsgRetrying status backoff (retries + 1)
                                          (MAX_RETRIES config));
                ESleep backoff] ++ t)%list.
      split; [|split; [|split]].
      * change (S p + fuel)%nat with (S (p + fuel)).
        rewrite while_unfold by lia.
        rewrite (body_retry _ _ _ _ _ status) by (done || lia).
        fold w1. rewrite Hrun. subst w1. rewrite advance_advance.
        replace (retries + 1 + Z.of_nat p) with (retries + Z.of_nat (S p)) by lia.
        reflexivity.
      * unfold sleeps in *. rewrite omap_app, Hs. reflexivity.
      * unfold insert_requests in *. rewrite omap_app, Hq. reflexivity.
      * unfold post_comment_calls in *. rewrite omap_app, Hc. reflexivity.
Qed.

Lemma events_since_advance w k t : events_since w (advance w k t) = t.
Proof. unfold events_since, advance; simpl. apply drop_app_length. Qed.

Lemma backoffs_nonneg n : forall backoff max_backoff,
  0 <= backoff -> 0 <= max_backoff ->
  Forall (fun b => 0 <= b) (backoffs backoff max_backoff n).
Proof.
  induction n as [|n IH]; intros backoff max_backoff Hb Hc; simpl.
  - constructor.
  - constructor; [done|]. apply IH; lia.
Qed.

Lemma backoffs_from n : forall (k : nat) initial cap,
  initial <= cap ->
  backoffs (Z.min (initial * 2 ^ Z.of_nat k) cap) cap n =
    map (fun j => Z.min (initial * 2 ^ Z.of_nat j) cap) (seq k n).
Proof.
  induction n as [|n IH]; intros k initial cap Hle; simpl; [done|].
  f_equal. rewrite <- (IH (S k) initial cap Hle). f_equal.
  rewrite Nat2Z.inj_succ, Z.pow_succ_r by lia.
  assert (0 < 2 ^ Z.of_nat k) by (apply Z.pow_pos_nonneg; lia).
  set (m := 2 ^ Z.of_nat k) in *. nia.
Qed.

Lemma backoffs_schedule n initial cap :
  initial <= cap ->
  backoffs initial cap n = backoff_schedule initial cap n.
Proof.
  intros Hle. unfold backoff_schedule. rewrite <- (backoffs_from n 0 initial cap Hle).
  f_equal. simpl. lia.
Qed.

End PostComment.

Lemma omap_cons_app {A B} (f : A -> option B) x (l1 l2 : list A) :
  omap f (x :: l1 ++ l2) = (omap f [x] ++ omap f l1 ++ omap f l2)%list.
Proof. change (x :: l1 ++ l2)%list with ([x] ++ l1 ++ l2)%list. by rewrite !omap_app. Qed.

(** C1 (amended). With [MAX_RETRIES >= 1] and
    [0 <= INITIAL_BACKOFF <= MAX_BACKOFF], on [n] transient failures
    followed by a success: if [n < MAX_RETRIES], [post_comment] returns
    [True] after exactly [n] sleeps, the [k]-th lasting
    [min(INITIAL_BACKOFF * 2^k, MAX_BACKOFF)]; otherwise it returns [False]
    after exactly [MAX_RETRIES - 1] sleeps of that schedule, logs the
    exhaustion last, and has sent exactly [MAX_RETRIES] requests. *)
Theorem post_comment_retry_policy config env video_id text w n :
  1 <= MAX_RETRIES config ->
  0 <= INITIAL_BACKOFF config <= MAX_BACKOFF config ->
  transient_failures_then_success env w n ->
  retry_policy config env video_id text w n.
Proof.
  intros HR [Hi Hic] [Hfail Hok].
  unfold retry_policy. cbv zeta. rewrite post_comment_unfold.
  set (w0 := advance w 0 [EEnterPostComment video_id text]).
  assert (Hn0 : forall k, (n_insert w0 + k = n_insert w + k)%nat)
    by (intros k; subst w0; simpl; lia).
  split; intros Hn.
  - destruct (while_transient_prefix config env n (Z.to_nat (MAX_RETRIES config) - n)
                video_id text 0 (INITIAL_BACKOFF config) w0)
      as (t & Hrun & Hs & Hq & _).
    + intros k Hk. rewrite Hn0. by apply Hfail.
    + lia.
    + apply backoffs_nonneg; lia.
    + replace (n + (Z.to_nat (MAX_RETRIES config) - n))%nat
        with (Z.to_nat (MAX_RETRIES config)) in Hrun by lia.
      rewrite Hrun.
      destruct (Z.to_nat (MAX_RETRIES config) - n)%nat as [|fuel] eqn:Hfuel; [lia|].
      rewrite while_unfold by lia.
      rewrite body_success by (simpl; by rewrite Nat.add_0_r).
      subst w0. rewrite !advance_advance. simpl fst; simpl snd.
      rewrite events_since_advance.
      split; [done|]. split; [|split].
      * unfold sleeps in *. rewrite omap_cons_app, Hs. simpl.
        rewrite app_nil_r. by apply backoffs_schedule.
      * unfold insert_requests in *. rewrite omap_cons_app, Hq. simpl.
        by rewrite replicate_add.
      * simpl. lia.
  - set (p := Z.to_nat (MAX_RETRIES config - 1)).
    destruct (while_transient_prefix config env p 1
                video_id text 0 (INITIAL_BACKOFF config) w0)
      as (t & Hrun & Hs & Hq & _).
    + intros k Hk. rewrite Hn0. apply Hfail. lia.
    + lia.
    + apply backoffs_nonneg; lia.
    + replace (p + 1)%nat with (Z.to_nat (MAX_RETRIES config)) in Hrun by lia.
      rewrite Hrun.
      destruct (Hfail p) as (e & He & Ht); [lia|].
      destruct (transient_is_http e Ht) as [status ->].
      rewrite while_unfold by lia.
      rewrite (body_exhausted _ _ _ _ _ _ _ status)
        by (done || lia || (simpl; by rewrite Nat.add_0_r)).
      subst w0. rewrite !advance_advance. simpl fst; simpl snd.
      rewrite events_since_advance.
      split; [done|]. split; [|split; [|split]].
      * unfold sleeps in *. rewrite omap_cons_app, Hs. simpl.
        rewrite app_nil_r. by apply backoffs_schedule.
      * unfold insert_requests in *. rewrite omap_cons_app, Hq. simpl.
        replace (Z.to_nat (MAX_RETRIES config)) with (p + 1)%nat by lia.
        by rewrite replicate_add.
      * apply last_Some.
        exists (EEnterPostComment video_id text
                :: t ++ [ERequest (ReqCommentInsert video_id text)])%list.
        simpl. by rewrite <- app_assoc.
      * simpl. lia.
Qed.

(** The theorem above at the settings of [config.py]: two transient
    failures, then a success. *)
Lemma post_comment_retry_policy_witness :
  retry_policy (retry_config 5 1 300)
    (sample_env [Failure (HttpError 503); Failure (HttpError 429); Success] [] [] [])
    "video" "Great video!" (sample_world []) 2.
Proof.
  apply post_comment_retry_policy.
  - vm_compute. discriminate.
  - split; vm_compute; discriminate.
  - split.
    + intros [|[|k]] Hk; [eexists; split; reflexivity .. | lia].
    + reflexivity.
Defined.

(** C1 as stated fails when [INITIAL_BACKOFF] exceeds [MAX_BACKOFF]: with
    [MAX_RETRIES = 5], [INITIAL_BACKOFF = 10], [MAX_BACKOFF = 5] and one
    transient failure before the success, the call sleeps 10 seconds,
    not [min(10 * 2^0, 5) = 5]. *)
Lemma post_comment_first_sleep_not_capped :
  let config := retry_config 5 10 5 in
  let env := sample_env [Failure (HttpError 503); Success] [] [] [] in
  let w := sample_world [] in
  1 <= MAX_RETRIES config
  /\ transient_failures_then_success env w 1
  /\ sleeps (events_since w (snd (yt_client.post_comment config env "video" "text" w)))
     = [10]
  /\ backoff_schedule (INITIAL_BACKOFF config) (MAX_BACKOFF config) 1 = [5]
  /\ ~ retry_policy config env "video" "text" w 1.
Proof.
  cbv zeta. split; [vm_compute; discriminate|]. split.
  - split.
    + intros [|k] Hk; [eexists; split; reflexivity | lia].
    + reflexivity.
  - split; [vm_compute; reflexivity|]. split; [vm_compute; reflexivity|].
    intros [H _]. destruct H as (_ & Hs & _); [vm_compute; reflexivity|].
    vm_compute in Hs. discriminate.
Qed.

(** C10. With [MAX_RETRIES <= 0], [post_comment] returns [False] at once:
    nothing is sent to the remote side and nothing is slept; the world
    changes by the entry marker alone. *)
Theorem post_comment_without_retries config env video_id text w :
  MAX_RETRIES config <= 0 ->
  let run := yt_client.post_comment config env video_id text w in
  fst run = Ret false
  /\ snd run = advance w 0 [EEnterPostComment video_id text]
  /\ insert_requests (events_since w (snd run)) = []
  /\ sleeps (events_since w (snd run)) = []
  /\ n_insert (snd run) = n_insert w.
Proof.
  intros HR. cbv zeta. rewrite post_comment_unfold, while_done by lia.
  simpl fst; simpl snd. rewrite events_since_advance. simpl.
  repeat split; lia.
Qed.

Lemma post_comment_without_retries_witness :
  let run := yt_client.post_comment (retry_config 0 1 300)
               (sample_env [Success] [] [] []) "video" "text" (sample_world []) in
  fst run = Ret false
  /\ snd run = advance (sample_world []) 0 [EEnterPostComment "video" "text"]
  /\ insert_requests (events_since (sample_world []) (snd run)) = []
  /\ sleeps (events_since (sample_world []) (snd run)) = []
  /\ n_insert (snd run) = n_insert (sample_world []).
Proof.
  apply (post_comment_without_retries (retry_config 0 1 300)).
  vm_compute. discriminate.
Defined.

(** C4. A failure that is not transient ends [post_comment] at once with
    [False].  First part: at any pass through the loop (any count of
    retries below the maximum, any backoff), the pass that meets such a
    failure sends its one request, logs the error and returns: no sleep,
    no further request.  Second part: for a whole call in which [n]
    transient failures (whose sleeps [time.sleep] accepted) precede the
    failure, the call returns [False]; it has slept the [n] times before
    the failure and not after, and has sent [n + 1] requests. *)
Theorem post_comment_rejection_stops config env video_id text :
  (forall fuel retries backoff w e,
     retries < MAX_RETRIES config ->
     insert_reply env (n_insert w) = Failure e ->
     transient e = false ->
     yt_client.post_comment_while config env (S fuel) video_id text retries backoff w =
       (Ret false,
        advance w 1 [ERequest (ReqCommentInsert video_id text);
                     ELog ERROR (rejection_message e video_id)]))
  /\ (forall w n e,
     Z.of_nat n < MAX_RETRIES config ->
     transient_failures_then env w n (Failure e) ->
     transient e = false ->
     Forall (fun b => 0 <= b)
            (backoffs (INITIAL_BACKOFF config) (MAX_BACKOFF config) n) ->
     exists t,
       yt_client.post_comment config env video_id text w =
         (Ret false,
          advance w (n + 1)
            ([EEnterPostComment video_id text] ++ t ++
             [ERequest (ReqCommentInsert video_id text);
              ELog ERROR (rejection_message e video_id)]))
       /\ sleeps t = backoffs (INITIAL_BACKOFF config) (MAX_BACKOFF config) n
       /\ insert_requests t = replicate n video_id).
Proof.
  split.
  - intros fuel retries backoff w e Hr He Ht.
    rewrite while_unfold by done. by rewrite (body_rejected _ _ _ _ _ _ _ e).
  - intros w n e Hn [Hfail He] Ht Hb.
    rewrite post_comment_unfold.
    set (w0 := advance w 0 [EEnterPostComment video_id text]).
    destruct (while_transient_prefix config env n (Z.to_nat (MAX_RETRIES config) - n)
                video_id text 0 (INITIAL_BACKOFF config) w0)
      as (t & Hrun & Hs & Hq & _).
    + intros k Hk. subst w0; simpl. rewrite Nat.add_0_r. by apply Hfail.
    + lia.
    + done.
    + exists t. split; [|done].
      replace (n + (Z.to_nat (MAX_RETRIES config) - n))%nat
        with (Z.to_nat (MAX_RETRIES config)) in Hrun by lia.
      rewrite Hrun.
      destruct (Z.to_nat (MAX_RETRIES config) - n)%nat as [|fuel] eqn:Hfuel; [lia|].
      rewrite while_unfold by lia.
      rewrite (body_rejected _ _ _ _ _ _ _ e)
        by (done || (subst w0; simpl; by rewrite Nat.add_0_r)).
      subst w0. rewrite !advance_advance. reflexivity.
Qed.

(** The theorem above where a 403 follows one 500: the pass at position 1
    and the whole call. *)
Lemma post_comment_rejection_stops_witness :
  let config := retry_config 5 1 300 in
  let env := sample_env [Failure (HttpError 500); Failure (HttpError 403)] [] [] [] in
  let w := sample_world [] in
  yt_client.post_comment_while config env 4 "video" "text" 1 2 (advance w 1 []) =
    (Ret false,
     advance (advance w 1 []) 1
       [ERequest (ReqCommentInsert "video" "text");
        ELog ERROR (MsgPostHttpError "video")])
  /\ exists t,
       yt_client.post_comment config env "video" "text" w =
         (Ret false,
          advance w 2
            ([EEnterPostComment "video" "text"] ++ t ++
             [ERequest (ReqCommentInsert "video" "text");
              ELog ERROR (MsgPostHttpError "video")]))
       /\ sleeps t = [1]
       /\ insert_requests t = ["video"].
Proof.
  cbv zeta.
  destruct (post_comment_rejection_stops (retry_config 5 1 300)
              (sample_env [Failure (HttpError 500); Failure (HttpError 403)] [] [] [])
              "video" "text") as [Hpass Hcall].
  split.
  - apply (Hpass 3%nat 1 2 _ (HttpError 403)).
    + vm_compute. reflexivity.
    + reflexivity.
    + reflexivity.
  - apply (Hcall (sample_world []) 1%nat (HttpError 403)).
    + vm_compute. reflexivity.
    + split.
      * intros [|k] Hk; [eexists; split; reflexivity | lia].
      * reflexivity.
    + reflexivity.
    + repeat constructor. vm_compute. discriminate.
Defined.

(** ** The seen-video store *)

Section Store.
Context (env : Env).

Ltac run_state :=
  unfold state.__init__, state.load_state, state.save_state, state.mark_video_seen,
    state.is_video_seen, state.get_last_check_time, state.utcnow, state.json_dump,
    state.json_load, state.path_exists, state.data_get, state.py_set in *;
  run_monad.

(** [save_state] always returns; what it leaves depends on the fault. *)
Lemma save_state_run w :
  state.save_state env w =
    (Ret tt,
     match write_fault env (n_write w) with
     | NoFault =>
         advance (set_disk (<[state_file (store w) := Doc (state_document (store w))]>
                              (disk w)) (tick_write w))
                 0 [ELog INFO (MsgSaved (size (last_seen_videos (store w))))]
     | OpenFails => advance (tick_write w) 0 [ELog ERROR MsgSaveError]
     | DumpFails =>
         advance (set_disk (<[state_file (store w) := Garbage]> (disk w)) (tick_write w))
                 0 [ELog ERROR MsgSaveError]
     end).
Proof.
  destruct w. run_state.
  destruct (write_fault env n_write0); simpl; f_equal; world_eq.
Qed.

Lemma mark_video_seen_run video_id w :
  state.mark_video_seen env video_id w =
    state.save_state env
      (set_store (marked_store (store w) video_id (utcnow_isoformat env (n_clock w)))
                 (tick_clock w)).
Proof. destruct w. reflexivity. Qed.

Lemma save_state_store w : store (snd (state.save_state env w)) = store w.
Proof. rewrite save_state_run. simpl. by destruct (write_fault env (n_write w)). Qed.

Lemma save_state_returns w : fst (state.save_state env w) = Ret tt.
Proof. by rewrite save_state_run. Qed.

Lemma mark_video_seen_store video_id w :
  store (snd (state.mark_video_seen env video_id w)) =
    marked_store (store w) video_id (utcnow_isoformat env (n_clock w)).
Proof. rewrite mark_video_seen_run, save_state_store. by destruct w. Qed.

Lemma mark_video_seen_returns video_id w :
  fst (state.mark_video_seen env video_id w) = Ret tt.
Proof. by rewrite mark_video_seen_run, save_state_returns. Qed.

Lemma is_video_seen_run video_id w :
  state.is_video_seen video_id w =
    (Ret (bool_decide (HStr video_id ∈ last_seen_videos (store w))), w).
Proof. reflexivity. Qed.

Lemma all_hashable_of_hashable hs :
  state.all_hashable (state.of_hashable <$> hs) = Some hs.
Proof.
  induction hs as [|h hs IH]; [done|].
  rewrite fmap_cons. simpl. rewrite IH. by destruct h.
Qed.

(** Loading a document written by [save_state] restores the store. *)
Lemma load_saved_document path s w :
  disk w !! path = Some (Doc (state_document s)) ->
  state.__init__ path w =
    (Ret tt,
     advance (set_store {| state_file := path;
                           last_seen_videos := last_seen_videos s;
                           last_check_time := last_check_time s |} w)
             0 [ELog INFO (MsgLoaded (size (last_seen_videos s)))]).
Proof.
  intros Hdisk. destruct w. run_state. repeat (rewrite Hdisk; simpl).
  rewrite all_hashable_of_hashable. simpl.
  rewrite list_to_set_elements_L. f_equal. world_eq.
Qed.

Lemma run_op_returns op w : fst (run_op env op w) = Ret tt.
Proof.
  destruct op; simpl; auto using mark_video_seen_returns, save_state_returns.
Qed.

Lemma run_op_grows op w :
  last_seen_videos (store w) ⊆ last_seen_videos (store (snd (run_op env op w))).
Proof.
  destruct op; simpl; try done.
  - rewrite mark_video_seen_store. simpl. set_solver.
  - by rewrite save_state_store.
Qed.

Lemma run_ops_cons op ops w :
  run_ops env (op :: ops) w = run_ops env ops (snd (run_op env op w)).
Proof.
  simpl. unfold mbind, M_bind.
  pose proof (run_op_returns op w) as H.
  destruct (run_op env op w) as [r w']. simpl in H. by subst r.
Qed.

Lemma run_ops_returns ops : forall w, fst (run_ops env ops w) = Ret tt.
Proof.
  induction ops as [|op ops IH]; intros w; [done|].
  by rewrite run_ops_cons.
Qed.

Lemma run_ops_grows ops : forall w,
  last_seen_videos (store w) ⊆ last_seen_videos (store (snd (run_ops env ops w))).
Proof.
  induction ops as [|op ops IH]; intros w; [done|].
  rewrite run_ops_cons. etrans; [apply (run_op_grows op)|apply IH].
Qed.

Lemma run_ops_app ops1 ops2 : forall w,
  run_ops env (ops1 ++ ops2) w = run_ops env ops2 (snd (run_ops env ops1 w)).
Proof.
  induction ops1 as [|op ops1 IH]; intros w; [done|].
  change ((op :: ops1) ++ ops2)%list with (op :: (ops1 ++ ops2))%list.
  by rewrite !run_ops_cons.
Qed.

End Store.

(** C6. When the write of [save_state] fails inside [mark_video_seen], the
    call still returns normally, the only record is the error log, and the
    store in memory is the mutated one (the id added, the time set to the
    clock reading), as it is after a successful write. *)
Theorem mark_video_seen_survives_write_failure env video_id w :
  write_fault env (n_write w) <> NoFault ->
  let run := state.mark_video_seen env video_id w in
  fst run = Ret tt
  /\ store (snd run) =
       marked_store (store w) video_id (utcnow_isoformat env (n_clock w))
  /\ events_since w (snd run) = [ELog ERROR MsgSaveError]
  /\ (forall env',
        utcnow_isoformat env' (n_clock w) = utcnow_isoformat env (n_clock w) ->
        write_fault env' (n_write w) = NoFault ->
        fst (state.mark_video_seen env' video_id w) = Ret tt
        /\ store (snd (state.mark_video_seen env' video_id w)) = store (snd run)).
Proof.
  intros Hfault. cbv zeta.
  split; [apply mark_video_seen_returns|].
  split; [apply mark_video_seen_store|].
  split.
  - rewrite mark_video_seen_run, save_state_run. destruct w; simpl in *.
    destruct (write_fault env n_write0); [done| |];
      unfold events_since; simpl; by rewrite drop_app_length.
  - intros env' Hclock Hok.
    split; [apply mark_video_seen_returns|].
    by rewrite !mark_video_seen_store, Hclock.
Qed.

Lemma mark_video_seen_survives_write_failure_witness :
  let env := sample_env [] [] [] [OpenFails] in
  let w := sample_world ["old"] in
  let run := state.mark_video_seen env "new" w in
  fst run = Ret tt
  /\ store (snd run) = marked_store (store w) "new" "2024-05-01T12:00:00"
  /\ events_since w (snd run) = [ELog ERROR MsgSaveError].
Proof.
  cbv zeta.
  destruct (mark_video_seen_survives_write_failure
              (sample_env [] [] [] [OpenFails]) "new" (sample_world ["old"]))
    as (H1 & H2 & H3 & _).
  - vm_compute. discriminate.
  - split; [exact H1|]. split; [exact H2|exact H3].
Defined.

(** C7. Along any sequence of [is_video_seen], [mark_video_seen],
    [save_state] and [get_last_check_time], every operation returns and the
    set of seen ids only grows: what is in the set after a first part of
    the sequence is still in it after the rest. *)
Theorem seen_set_only_grows env ops1 ops2 w :
  fst (run_ops env (ops1 ++ ops2) w) = Ret tt
  /\ last_seen_videos (store (snd (run_ops env ops1 w)))
     ⊆ last_seen_videos (store (snd (run_ops env (ops1 ++ ops2) w))).
Proof.
  split; [apply run_ops_returns|].
  rewrite run_ops_app. apply run_ops_grows.
Qed.

(** C5. After [mark_video_seen(v)], [is_video_seen(v)] returns [True]; and
    when the state was written, a fresh store built from the same file
    holds the same set of ids, so [is_video_seen(v)] returns [True] there
    as well. *)
Theorem mark_video_seen_round_trip env video_id w :
  let w1 := snd (state.mark_video_seen env video_id w) in
  fst (state.is_video_seen video_id w1) = Ret true
  /\ (write_fault env (n_write w) = NoFault ->
      let reload := state.__init__ (state_file (store w1)) w1 in
      fst reload = Ret tt
      /\ last_seen_videos (store (snd reload)) = last_seen_videos (store w1)
      /\ fst (state.is_video_seen video_id (snd reload)) = Ret true).
Proof.
  cbv zeta. split.
  - rewrite is_video_seen_run, mark_video_seen_store. simpl.
    rewrite bool_decide_eq_true_2; [done|set_solver].
  - intros Hok.
    pose proof (mark_video_seen_store env video_id w) as Hstore.
    assert (Hdisk : disk (snd (state.mark_video_seen env video_id w))
                      !! state_file (store (snd (state.mark_video_seen env video_id w)))
                    = Some (Doc (state_document
                                   (store (snd (state.mark_video_seen env video_id w)))))).
    { rewrite Hstore. rewrite mark_video_seen_run, save_state_run.
      destruct w; simpl in *. rewrite Hok. simpl. apply lookup_insert_eq. }
    rewrite (load_saved_document _ _ _ Hdisk). simpl.
    split; [done|]. split; [done|].
    rewrite Hstore. simpl. f_equal.
    rewrite bool_decide_eq_true_2; [done|set_solver].
Qed.

Lemma mark_video_seen_round_trip_witness :
  let env := sample_env [] [] [] [] in
  let w1 := snd (state.mark_video_seen env "new" (sample_world ["old"])) in
  fst (state.is_video_seen "new" w1) = Ret true
  /\ fst (state.is_video_seen "new" (snd (state.__init__ "state.json" w1))) = Ret true
  /\ fst (state.is_video_seen "old" (snd (state.__init__ "state.json" w1))) = Ret true.
Proof.
  cbv zeta.
  destruct (mark_video_seen_round_trip (sample_env [] [] [] []) "new"
              (sample_world ["old"])) as [Hseen Hreload].
  split; [exact Hseen|].
  destruct Hreload as (_ & _ & Hagain); [reflexivity|].
  split; [exact Hagain|].
  vm_compute. reflexivity.
Defined.

(** C9. Building the store over a path where no file exists leaves it
    empty with no last-check time, logging no error; over a file that
    [json.load] cannot read, or whose document is not an object, the error
    is logged and the store is empty with no last-check time.  In each
    case the constructor returns normally. *)
Theorem state_init_missing_or_malformed path w :
  (disk w !! path = None ->
   state.__init__ path w =
     (Ret tt, advance (set_store (empty_store path) w) 0 [ELog INFO MsgNoStateFile]))
  /\ (disk w !! path = Some Garbage ->
   state.__init__ path w =
     (Ret tt, advance (set_store (empty_store path) w) 0 [ELog ERROR MsgLoadError]))
  /\ (forall j, disk w !! path = Some (Doc j) ->
   (forall fields, j <> JObj fields) ->
   state.__init__ path w =
     (Ret tt, advance (set_store (empty_store path) w) 0 [ELog ERROR MsgLoadError])).
Proof.
  unfold state.__init__, state.load_state, state.json_load, state.path_exists,
    state.data_get, state.py_set.
  split; [|split].
  - intros Hdisk. destruct w. run_monad. repeat (rewrite Hdisk; simpl).
    f_equal. world_eq.
  - intros Hdisk. destruct w. run_monad. repeat (rewrite Hdisk; simpl).
    f_equal. world_eq.
  - intros j Hdisk Hj. destruct w. run_monad. repeat (rewrite Hdisk; simpl).
    destruct j; simpl; try (f_equal; world_eq).
    by destruct (Hj fields).
Qed.

Lemma state_init_missing_or_malformed_witness :
  state.__init__ "state.json" (sample_world []) =
    (Ret tt, advance (set_store (empty_store "state.json") (sample_world []))
                     0 [ELog INFO MsgNoStateFile])
  /\ state.__init__ "state.json"
       (set_disk {["state.json" := Garbage]} (sample_world [])) =
    (Ret tt, advance (set_store (empty_store "state.json")
                        (set_disk {["state.json" := Garbage]} (sample_world [])))
                     0 [ELog ERROR MsgLoadError])
  /\ state.__init__ "state.json"
       (set_disk {["state.json" := Doc (JArr [JStr "v1"])]} (sample_world [])) =
    (Ret tt, advance (set_store (empty_store "state.json")
                        (set_disk {["state.json" := Doc (JArr [JStr "v1"])]}
                                  (sample_world [])))
                     0 [ELog ERROR MsgLoadError]).
Proof.
  split; [|split].
  - destruct (state_init_missing_or_malformed "state.json" (sample_world []))
      as (Hmissing & _ & _).
    apply Hmissing. reflexivity.
  - destruct (state_init_missing_or_malformed "state.json"
                (set_disk {["state.json" := Garbage]} (sample_world [])))
      as (_ & Hgarbage & _).
    apply Hgarbage. reflexivity.
  - destruct (state_init_missing_or_malformed "state.json"
                (set_disk {["state.json" := Doc (JArr [JStr "v1"])]} (sample_world [])))
      as (_ & _ & Hshape).
    apply (Hshape (JArr [JStr "v1"])).
    + reflexivity.
    + discriminate.
Defined.

(** ** The duration parser *)

Section Duration.

Import yt_client.

Local Arguments String.append !_ _ / : simpl nomatch.

Lemma append_assoc (a b c : string) : (a +:+ b) +:+ c = a +:+ b +:+ c.
Proof. induction a as [|x a IH]; simpl; [done|]. by f_equal. Qed.

Lemma append_nil_r (a : string) : a +:+ "" = a.
Proof. induction a as [|x a IH]; simpl; [done|]. by f_equal. Qed.

(** A character that the decimal reader accepts is a digit, and extends
    the number read by its value. *)
Lemma uint_of_char_digit c d0 d :
  uint_of_char c (Some d0) = Some d ->
  is_digit c = true
  /\ forall acc, Z.of_nat (Nat.of_uint_acc d acc) =
                 Z.of_nat (Nat.of_uint_acc d0 (Z.to_nat (Z.of_nat acc * 10 + digit_value c))).
Proof.
  destruct c as [[] [] [] [] [] [] [] []]; simpl; intros H;
    try discriminate; injection H as <-; (split; [reflexivity|]);
    intros acc; cbn [Nat.of_uint_acc]; rewrite Nat.tail_mul_spec; do 2 f_equal;
    unfold digit_value;
    match goal with
    | |- context [nat_of_ascii ?a] =>
        let v := eval vm_compute in (nat_of_ascii a) in
        change (nat_of_ascii a) with v
    end; lia.
Qed.

Lemma uint_of_string_cons c ds d :
  NilEmpty.uint_of_string (String c ds) = Some d ->
  exists d0, NilEmpty.uint_of_string ds = Some d0 /\ uint_of_char c (Some d0) = Some d.
Proof.
  simpl. destruct (NilEmpty.uint_of_string ds) as [d0|]; [eauto|].
  destruct c as [[] [] [] [] [] [] [] []]; discriminate.
Qed.

Lemma read_all_digits ds : forall d,
  NilEmpty.uint_of_string ds = Some d -> all_digits ds = true.
Proof.
  induction ds as [|c ds IH]; intros d H; [done|].
  apply uint_of_string_cons in H as (d0 & Hd0 & Hc).
  apply uint_of_char_digit in Hc as [Hc _]. simpl. by rewrite Hc, (IH d0).
Qed.

Lemma int_from_read ds : forall d acc,
  NilEmpty.uint_of_string ds = Some d ->
  int_from (Z.of_nat acc) ds = Z.of_nat (Nat.of_uint_acc d acc).
Proof.
  induction ds as [|c ds IH]; intros d acc H.
  - injection H as <-. reflexivity.
  - apply uint_of_string_cons in H as (d0 & Hd0 & Hc).
    apply uint_of_char_digit in Hc as [Hdig Hc]. rewrite Hc. simpl.
    assert (0 <= digit_value c).
    { unfold digit_value, is_digit in *. apply andb_prop in Hdig as [H1 _].
      apply Nat.leb_le in H1. lia. }
    rewrite <- (IH d0) by done. rewrite Z2Nat.id by lia. reflexivity.
Qed.

Lemma int_spells ds n : spells ds n -> int ds = Z.of_nat n.
Proof.
  intros (_ & d & Hd & <-). unfold int. apply (int_from_read ds d 0%nat Hd).
Qed.

Lemma span_digits_run ds : forall c rest,
  all_digits ds = true -> is_digit c = false ->
  span_digits (ds +:+ String c rest) = (ds, String c rest).
Proof.
  induction ds as [|a ds IH]; intros c rest Hds Hc; simpl.
  - by rewrite Hc.
  - simpl in Hds. apply andb_prop in Hds as [Ha Hds].
    by rewrite Ha, IH.
Qed.

(** A run of digits followed by another letter than the unit sought does
    not match. *)
Lemma search_skip unit ds : forall c rest,
  all_digits ds = true -> is_digit c = false -> c <> unit ->
  re_search_digits unit (ds +:+ String c rest) = re_search_digits unit rest.
Proof.
  induction ds as [|a ds IH]; intros c rest Hds Hc Hne.
  - simpl. by rewrite Hc.
  - pose proof (span_digits_run (String a ds) c rest Hds Hc) as Hspan.
    simpl in Hds. apply andb_prop in Hds as [Ha Hds].
    change (re_search_digits unit (String a ds +:+ String c rest))
      with (if is_digit a then
              match span_digits (String a ds +:+ String c rest) with
              | (g, String c' _) =>
                  if Ascii.eqb c' unit then Some g
                  else re_search_digits unit (ds +:+ String c rest)
              | (_, EmptyString) => re_search_digits unit (ds +:+ String c rest)
              end
            else re_search_digits unit (ds +:+ String c rest)).
    rewrite Ha, Hspan.
    rewrite (proj2 (Ascii.eqb_neq c unit) Hne). by apply IH.
Qed.

(** A non-empty run of digits followed by the unit sought is the match. *)
Lemma search_hit unit ds rest :
  ds <> "" -> all_digits ds = true -> is_digit unit = false ->
  re_search_digits unit (ds +:+ String unit rest) = Some ds.
Proof.
  intros Hne Hds Hu. destruct ds as [|a ds]; [done|].
  pose proof (span_digits_run (String a ds) unit rest Hds Hu) as Hspan.
  simpl in Hds. apply andb_prop in Hds as [Ha Hds].
  change (re_search_digits unit (String a ds +:+ String unit rest))
    with (if is_digit a then
            match span_digits (String a ds +:+ String unit rest) with
            | (g, String c' _) =>
                if Ascii.eqb c' unit then Some g
                else re_search_digits unit (ds +:+ String unit rest)
            | (_, EmptyString) => re_search_digits unit (ds +:+ String unit rest)
            end
          else re_search_digits unit (ds +:+ String unit rest)).
  by rewrite Ha, Hspan, Ascii.eqb_refl.
Qed.

Lemma field_digits (f : duration_field) :
  field_ok f ->
  match f with
  | None => True
  | Some (ds, n) => ds <> "" /\ all_digits ds = true /\ int ds = Z.of_nat n
  end.
Proof.
  destruct f as [[ds n]|]; [|done]. intros Hok.
  split; [apply Hok|]. split; [|by apply int_spells].
  destruct Hok as (_ & d & Hd & _). by apply (read_all_digits ds d).
Qed.

Lemma search_other_field unit c (f : duration_field) rest :
  field_ok f -> is_digit c = false -> c <> unit ->
  re_search_digits unit (field_text f c +:+ rest) = re_search_digits unit rest.
Proof.
  intros Hok Hc Hne. apply field_digits in Hok.
  destruct f as [[ds n]|]; [|done]. destruct Hok as (_ & Hds & _).
  simpl. rewrite append_assoc. simpl. by apply search_skip.
Qed.

Lemma search_own_field unit (f : duration_field) rest :
  field_ok f -> is_digit unit = false ->
  re_search_digits unit rest = None ->
  match re_search_digits unit (field_text f unit +:+ rest) with
  | Some g => int g
  | None => 0
  end = field_value f.
Proof.
  intros Hok Hu Hrest. apply field_digits in Hok.
  destruct f as [[ds n]|]; simpl.
  - destruct Hok as (Hne & Hds & Hint).
    rewrite append_assoc. simpl. by rewrite search_hit.
  - by rewrite Hrest.
Qed.

Lemma all_digits_no_P ds : all_digits ds = true -> no_P ds = true.
Proof.
  induction ds as [|c ds IH]; [done|]. simpl. intros H.
  apply andb_prop in H as [Hc Hds]. rewrite IH by done.
  destruct c as [[] [] [] [] [] [] [] []]; try discriminate; reflexivity.
Qed.

Lemma no_P_append a b : no_P (a +:+ b) = no_P a && no_P b.
Proof. induction a as [|c a IH]; simpl; [done|]. by rewrite IH, andb_assoc. Qed.

Lemma replace_PT_no_P s : no_P s = true -> replace_PT s = s.
Proof.
  induction s as [|c s IH]; [done|]. intros H. simpl in H.
  apply andb_prop in H as [Hc Hs]. specialize (IH Hs).
  change (replace_PT (String c s))
    with (match s with
          | String d rest' =>
              if Ascii.eqb c "P" && Ascii.eqb d "T" then replace_PT rest'
              else String c (replace_PT s)
          | EmptyString => String c EmptyString
          end).
  destruct s as [|d rest']; [done|].
  apply negb_true_iff in Hc. rewrite Hc. simpl andb. cbv iota. by rewrite IH.
Qed.

Lemma field_text_no_P (f : duration_field) c :
  field_ok f -> Ascii.eqb c "P" = false -> no_P (field_text f c) = true.
Proof.
  intros Hok Hc. apply field_digits in Hok.
  destruct f as [[ds n]|]; [|done]. destruct Hok as (_ & Hds & _).
  simpl. rewrite no_P_append, all_digits_no_P by done. simpl. by rewrite Hc.
Qed.

End Duration.

(** C8. On a token [PT[hH][mM][sS]], each unit absent or written as a
    decimal numeral, [_parse_duration] returns hours * 3600 + minutes * 60
    + seconds, an absent unit counting for zero. *)
Theorem parse_duration_compact_form (h m s : duration_field) :
  field_ok h -> field_ok m -> field_ok s ->
  yt_client._parse_duration (duration_token h m s) =
    field_value h * 3600 + field_value m * 60 + field_value s.
Proof.
  intros Hh Hm Hs.
  unfold yt_client._parse_duration, duration_token.
  change (yt_client.replace_PT ("PT" +:+ field_text h "H" +:+ field_text m "M"
                                +:+ field_text s "S"))
    with (yt_client.replace_PT (field_text h "H" +:+ field_text m "M"
                                +:+ field_text s "S")).
  rewrite replace_PT_no_P
    by (rewrite !no_P_append, !field_text_no_P by done; reflexivity).
  rewrite <- (append_nil_r (field_text s "S")).
  cbv zeta. f_equal; [f_equal; f_equal|].
  - apply search_own_field; [done..|].
    by rewrite (search_other_field _ "M"), (search_other_field _ "S").
  - rewrite (search_other_field _ "H") by done.
    apply search_own_field; [done..|].
    by rewrite (search_other_field _ "S").
  - rewrite (search_other_field _ "H"), (search_other_field _ "M") by done.
    by apply search_own_field.
Qed.

Lemma parse_duration_compact_form_witness :
  yt_client._parse_duration "PT1M30S" = 90.
Proof.
  apply (parse_duration_compact_form None (Some ("1", 1%nat)) (Some ("30", 30%nat))).
  - exact I.
  - split; [discriminate | eexists; split; reflexivity].
  - split; [discriminate | eexists; split; reflexivity].
Defined.

(** ** The poll cycle *)

Section Main.
Context (config : Config) (env : Env).

Lemma bind_run {A B} (m : M A) (f : A -> M B) w a w' :
  m w = (Ret a, w') -> (m ≫= f) w = f a w'.
Proof. unfold mbind, M_bind. by intros ->. Qed.

Lemma log_run l m w : log l m w = (Ret tt, advance w 0 [ELog l m]).
Proof. apply emit_advance. Qed.

Lemma sleep_run secs w :
  0 <= secs -> sleep secs w = (Ret tt, advance w 0 [ESleep secs]).
Proof.
  intros H. unfold sleep. destruct (Z.ltb_spec secs 0); [lia|]. apply emit_advance.
Qed.

Lemma random_randint_run a b w :
  a <= b ->
  templates.random_randint env a b w =
    (Ret (a + Z.of_N (rng env (n_rng w)) mod (b - a + 1)), tick_rng w).
Proof.
  intros H. unfold templates.random_randint.
  destruct (Z.ltb_spec b a); [lia|]. reflexivity.
Qed.

Lemma random_randint_range a b k : a <= b -> a <= a + Z.of_N k mod (b - a + 1) <= b.
Proof. intros H. pose proof (Z.mod_pos_bound (Z.of_N k) (b - a + 1)). lia. Qed.

Lemma should_include_discord_run rate w :
  exists include, templates.should_include_discord env rate w = (Ret include, tick_rng w).
Proof. eexists. reflexivity. Qed.

Lemma get_random_comment_run include link w :
  exists text, templates.get_random_comment env include link w = (Ret text, tick_rng w).
Proof.
  unfold templates.get_random_comment, templates.random_choice, templates.draw.
  run_monad. destruct (include && negb (String.eqb link "")); eexists; reflexivity.
Qed.

(** With enough fuel and sleeps that [time.sleep] accepts, the loop of
    [post_comment] returns; it touches the insert counter and the trace
    only and does not enter [post_comment] again. *)
Lemma post_comment_while_returns fuel : forall video_id text retries backoff w,
  (Z.to_nat (MAX_RETRIES config - retries) <= fuel)%nat ->
  0 <= backoff -> 0 <= MAX_BACKOFF config ->
  exists value k t,
    yt_client.post_comment_while config env fuel video_id text retries backoff w =
      (Ret value, advance w k t)
    /\ post_comment_calls t = [].
Proof.
  induction fuel as [|fuel IH]; intros video_id text retries backoff w Hfuel Hb Hc.
  - exists false, 0%nat, []. rewrite while_done by lia. by rewrite advance_0_nil.
  - destruct (Z.lt_ge_cases retries (MAX_RETRIES config)) as [Hr|Hr].
    2:{ exists false, 0%nat, []. rewrite while_done by lia. by rewrite advance_0_nil. }
    rewrite while_unfold by done.
    destruct (insert_reply env (n_insert w)) as [|e] eqn:Hreply.
    + rewrite body_success by done. by eexists _, _, _.
    + destruct (transient e) eqn:Ht.
      * destruct (transient_is_http e Ht) as [status ->].
        destruct (Z.lt_ge_cases (retries + 1) (MAX_RETRIES config)) as [Hr'|Hr'].
        -- rewrite (body_retry _ _ _ _ _ _ _ status) by done.
           edestruct (IH video_id text (retries + 1)
                        (Z.min (backoff * 2) (MAX_BACKOFF config))) as (v & k & t & -> & Ht');
             [lia | lia | done |].
           rewrite advance_advance. eexists _, _, _. split; [done|].
           unfold post_comment_calls in *. by rewrite omap_app, Ht'.
        -- rewrite (body_exhausted _ _ _ _ _ _ _ status) by done. by eexists _, _, _.
      * rewrite (body_rejected _ _ _ _ _ _ _ e) by done. by eexists _, _, _.
Qed.

Lemma post_comment_returns video_id text w :
  0 <= INITIAL_BACKOFF config -> 0 <= MAX_BACKOFF config ->
  exists value k t,
    yt_client.post_comment config env video_id text w = (Ret value, advance w k t)
    /\ post_comment_calls t = [video_id].
Proof.
  intros Hi Hc. rewrite post_comment_unfold.
  edestruct (post_comment_while_returns (Z.to_nat (MAX_RETRIES config)) video_id text 0)
    as (v & k & t & -> & Ht); [lia | exact Hi | exact Hc |].
  rewrite advance_advance. eexists _, _, _. split; [done|].
  unfold post_comment_calls in *. rewrite omap_app, Ht. reflexivity.
Qed.

Lemma mark_video_seen_effect video_id w :
  exists w' l m,
    state.mark_video_seen env video_id w = (Ret tt, w')
    /\ store w' = marked_store (store w) video_id (utcnow_isoformat env (n_clock w))
    /\ trace w' = (trace w ++ [ELog l m])%list
    /\ n_videos w' = n_videos w
    /\ n_uploads w' = n_uploads w.
Proof.
  rewrite mark_video_seen_run, save_state_run.
  destruct w; simpl.
  destruct (write_fault env n_write0); eexists _, _, _;
    (split; [reflexivity|]); simpl; rewrite ?app_nil_r; done.
Qed.

Lemma is_short_of_short video_id w :
  short_duration config (videos_reply env (n_videos w)) ->
  yt_client.is_short config env video_id w =
    (Ret true, tick_videos (advance w 0 [ERequest (ReqVideosList video_id)])).
Proof.
  intros H. destruct w.
  unfold yt_client.is_short, yt_client.get_video_duration,
    yt_client.execute_videos_list, yt_client.api_call, yt_client.next_videos_reply.
  run_monad. unfold short_duration in H. simpl in H.
  destruct (videos_reply env n_videos0); try done. simpl.
  destruct (Z.leb_spec (yt_client._parse_duration duration_str)
                       (MAX_SHORTS_DURATION config)); [|lia].
  f_equal. world_eq.
Qed.

Lemma is_short_without_duration video_id w :
  no_duration (videos_reply env (n_videos w)) ->
  yt_client.is_short config env video_id w =
    (Ret false,
     tick_videos (advance w 0 (no_duration_events video_id
                                 (videos_reply env (n_videos w))))).
Proof.
  intros H. destruct w.
  unfold yt_client.is_short, yt_client.get_video_duration,
    yt_client.execute_videos_list, yt_client.api_call, yt_client.next_videos_reply.
  run_monad. unfold no_duration in H. simpl in H.
  destruct (videos_reply env n_videos0); try done; simpl; f_equal; world_eq.
Qed.

(** A new video that the Shorts filter lets through is commented once
    and marked seen. *)
Lemma process_video_comments video w :
  valid_timing config ->
  ~ seen_in w video ->
  shorts_filter_passes config env w 1 ->
  exists w' t,
    main.process_video config env video w = (Ret tt, w')
    /\ last_seen_videos (store w') = last_seen_videos (store w) ∪ {[HStr (id video)]}
    /\ trace w' = (trace w ++ t)%list
    /\ post_comment_calls t = [id video]
    /\ n_videos w' = (n_videos w + (if SHORTS_ONLY config then 1 else 0))%nat
    /\ n_uploads w' = n_uploads w.
Proof.
  intros (Hdelay & Hi & Hc) Hunseen Hfilter.
  unfold main.process_video. cbv zeta.
  rewrite (bind_run _ _ _ _ _ (is_video_seen_run _ _)).
  rewrite bool_decide_eq_false_2 by exact Hunseen.
  rewrite (bind_run _ _ _ _ _ (log_run _ _ _)).
  match goal with
  | |- context [if SHORTS_ONLY config then _ else ?b] => set (block := b)
  end.
  assert (Hblock : forall w0, exists w' t,
    block w0 = (Ret tt, w')
    /\ last_seen_videos (store w') = last_seen_videos (store w0) ∪ {[HStr (id video)]}
    /\ trace w' = (trace w0 ++ t)%list
    /\ post_comment_calls t = [id video]
    /\ n_videos w' = n_videos w0
    /\ n_uploads w' = n_uploads w0).
  { intros w0. subst block.
    rewrite (bind_run _ _ _ _ _ (random_randint_run _ _ _ (proj2 Hdelay))).
    set (delay := MIN_COMMENT_DELAY config +
                  Z.of_N (rng env (n_rng w0)) mod
                    (MAX_COMMENT_DELAY config - MIN_COMMENT_DELAY config + 1)).
    assert (Hnonneg : 0 <= delay).
    { pose proof (random_randint_range _ _ (rng env (n_rng w0)) (proj2 Hdelay)).
      subst delay. lia. }
    rewrite (bind_run _ _ _ _ _ (log_run _ _ _)).
    rewrite (bind_run _ _ _ _ _ (sleep_run _ _ Hnonneg)).
    match goal with
    | |- exists w' t, _ ?w1 = _ /\ _ =>
        destruct (should_include_discord_run (DISCORD_INCLUSION_RATE config) w1)
          as [include Hinclude]
    end.
    rewrite (bind_run _ _ _ _ _ Hinclude).
    match goal with
    | |- context [templates.get_random_comment env include ?link ≫= _] =>
        match goal with
        | |- exists w' t, _ ?w1 = _ /\ _ =>
            destruct (get_random_comment_run include link w1) as [text Htext]
        end
    end.
    rewrite (bind_run _ _ _ _ _ Htext).
    rewrite (bind_run _ _ _ _ _ (log_run _ _ _)).
    rewrite (bind_run _ _ _ _ _ (log_run _ _ _)).
    match goal with
    | |- exists w' t, _ ?w1 = _ /\ _ =>
        destruct (post_comment_returns (id video) text w1 Hi Hc)
          as (success & k & t0 & Hpost & Hcalls)
    end.
    rewrite (bind_run _ _ _ _ _ Hpost).
    match goal with
    | |- exists w' t, ((if success then ?a else ?b) ≫= _) ?w1 = _ /\ _ =>
        assert (Hlog : exists m l, (if success then a else b) w1
                                   = (Ret tt, advance w1 0 [ELog m l]))
          by (destruct success; eexists _, _; apply log_run)
    end.
    destruct Hlog as (lvl & msg & Hlog).
    rewrite (bind_run _ _ _ _ _ Hlog).
    match goal with
    | |- exists w' t, state.mark_video_seen env _ ?w1 = _ /\ _ =>
        destruct (mark_video_seen_effect (id video) w1)
          as (w' & l & m & Hmark & Hstore & Htrace & Hvideos & Huploads)
    end.
    eexists w', _. split; [exact Hmark|].
    split; [by rewrite Hstore|].
    split; [rewrite Htrace; simpl; rewrite <- !app_assoc; reflexivity|].
    split; [|split].
    - unfold post_comment_calls in *. simpl. rewrite omap_app, Hcalls. reflexivity.
    - by rewrite Hvideos.
    - by rewrite Huploads. }
  clearbody block.
  destruct (SHORTS_ONLY config) eqn:Hshorts.
  - assert (Hshort : short_duration config
              (videos_reply env
                 (n_videos (advance w 0 [ELog INFO (MsgProcessing (title video)
                                                                  (id video))])))).
    { simpl. specialize (Hfilter Hshorts 0%nat). rewrite Nat.add_0_r in Hfilter.
      apply Hfilter. lia. }
    rewrite (bind_run _ _ _ _ _ (is_short_of_short _ _ Hshort)). change (negb true) with false. cbv iota.
    rewrite (bind_run _ _ _ _ _ (log_run _ _ _)).
    match goal with
    | |- exists w' t, block ?w1 = _ /\ _ =>
        destruct (Hblock w1) as (w' & t & Hrun & Hstore & Htrace & Hcalls & Hv & Hu)
    end.
    eexists w', _. split; [exact Hrun|].
    split; [by rewrite Hstore|].
    split; [rewrite Htrace; simpl; rewrite <- !app_assoc; reflexivity|].
    split; [|split].
    + simpl. exact Hcalls.
    + rewrite Hv. simpl. lia.
    + by rewrite Hu.
  - match goal with
    | |- exists w' t, block ?w1 = _ /\ _ =>
        destruct (Hblock w1) as (w' & t & Hrun & Hstore & Htrace & Hcalls & Hv & Hu)
    end.
    eexists w', _. split; [exact Hrun|].
    split; [by rewrite Hstore|].
    split; [rewrite Htrace; simpl; rewrite <- !app_assoc; reflexivity|].
    split; [|split].
    + simpl. exact Hcalls.
    + rewrite Hv. simpl. lia.
    + by rewrite Hu.
Qed.

Lemma process_video_seen video w :
  seen_in w video ->
  main.process_video config env video w =
    (Ret tt, advance w 0 [ELog DEBUG (MsgAlreadyProcessed (id video))]).
Proof.
  intros Hseen. unfold main.process_video. cbv zeta.
  rewrite (bind_run _ _ _ _ _ (is_video_seen_run _ _)).
  rewrite bool_decide_eq_true_2 by exact Hseen. apply log_run.
Qed.

Lemma unseen_videos_cons_seen w video rest :
  seen_in w video -> unseen_videos w (video :: rest) = unseen_videos w rest.
Proof. intros H. unfold unseen_videos. rewrite filter_cons_False; [done|tauto]. Qed.

Lemma unseen_videos_cons_unseen w video rest :
  ~ seen_in w video ->
  unseen_videos w (video :: rest) = video :: unseen_videos w rest.
Proof. intros H. unfold unseen_videos. by rewrite filter_cons_True. Qed.

(** Marking a video seen leaves the new videos among others unchanged. *)
Lemma unseen_videos_after_mark w w1 video rest :
  last_seen_videos (store w1) = last_seen_videos (store w) ∪ {[HStr (id video)]} ->
  id video ∉ id <$> rest ->
  unseen_videos w1 rest = unseen_videos w rest.
Proof.
  intros Hstore. induction rest as [|v rest IH]; intros Hfresh; [done|].
  rewrite fmap_cons in Hfresh. apply not_elem_of_cons in Hfresh as [Hne Hfresh].
  assert (Hiff : seen_in w1 v <-> seen_in w v).
  { unfold seen_in. rewrite Hstore, elem_of_union, elem_of_singleton.
    split; [intros [?|Heq]; [done|by injection Heq]|by left]. }
  destruct (decide (seen_in w v)) as [Hseen|Hunseen].
  - rewrite !unseen_videos_cons_seen by tauto. by apply IH.
  - rewrite !unseen_videos_cons_unseen by tauto. f_equal. by apply IH.
Qed.

(** The loop of [check_for_new_videos] comments each new video once, in
    the order of the fetch, and marks each seen. *)
Lemma for_video_in_run videos : forall new_videos_count w,
  valid_timing config ->
  NoDup (id <$> videos) ->
  shorts_filter_passes config env w (length (unseen_videos w videos)) ->
  exists w' t,
    main.for_video_in config env videos new_videos_count w =
      (Ret (new_videos_count + Z.of_nat (length (unseen_videos w videos))), w')
    /\ last_seen_videos (store w') =
         last_seen_videos (store w)
         ∪ list_to_set ((fun video => HStr (id video)) <$> unseen_videos w videos)
    /\ trace w' = (trace w ++ t)%list
    /\ post_comment_calls t = id <$> unseen_videos w videos
    /\ n_uploads w' = n_uploads w.
Proof.
  induction videos as [|video rest IH]; intros count w Htiming Hnodup Hfilter.
  - exists w, []. simpl. rewrite Z.add_0_r, app_nil_r.
    repeat split; try done.
    change (list_to_set _) with (∅ : gset hashable). by rewrite (right_id_L ∅ (∪)).
  - apply NoDup_cons in Hnodup as [Hfresh Hnodup].
    cbn [main.for_video_in].
    rewrite (bind_run _ _ _ _ _ (is_video_seen_run _ _)).
    destruct (decide (seen_in w video)) as [Hseen|Hunseen].
    + rewrite bool_decide_eq_true_2 by exact Hseen.
      change (negb true) with false. cbv iota.
      rewrite unseen_videos_cons_seen in * by done.
      by apply IH.
    + rewrite bool_decide_eq_false_2 by exact Hunseen.
      change (negb false) with true. cbv iota.
      rewrite unseen_videos_cons_unseen in * by done.
      destruct (process_video_comments video w Htiming Hunseen)
        as (w1 & t1 & Hrun1 & Hstore1 & Htrace1 & Hcalls1 & Hvideos1 & Huploads1).
      { intros Hs j Hj. apply (Hfilter Hs). simpl. lia. }
      rewrite (bind_run _ _ _ _ _ Hrun1).
      pose proof (unseen_videos_after_mark w w1 video rest Hstore1 Hfresh) as Hsame.
      destruct (IH (count + 1) w1 Htiming Hnodup)
        as (w' & t & Hrun & Hstore & Htrace & Hcalls & Huploads).
      { rewrite Hsame. intros Hs j Hj. rewrite Hvideos1, Hs.
        replace (n_videos w + 1 + j)%nat with (n_videos w + S j)%nat by lia.
        apply (Hfilter Hs). simpl. lia. }
      rewrite Hsame in *.
      exists w', (t1 ++ t)%list. split; [|split; [|split; [|split]]].
      * rewrite Hrun. do 2 f_equal. simpl length. lia.
      * rewrite Hstore, Hstore1. rewrite fmap_cons, list_to_set_cons.
        by rewrite (assoc_L (∪)).
      * by rewrite Htrace, Htrace1, app_assoc.
      * unfold post_comment_calls in *. rewrite omap_app, Hcalls1, Hcalls.
        by rewrite fmap_cons.
      * by rewrite Huploads.
Qed.

Lemma get_channel_uploads_items channel max_results videos w :
  uploads_reply env (n_uploads w) = UItems videos ->
  yt_client.get_channel_uploads env channel max_results w =
    (Ret videos,
     advance (tick_uploads (advance w 0 [ERequest (ReqUploads channel max_results)]))
             0 [ELog INFO (MsgFetched (length videos) channel)]).
Proof.
  intros H. destruct w.
  unfold yt_client.get_channel_uploads, yt_client.execute_uploads,
    yt_client.api_call, yt_client.next_uploads_reply.
  run_monad. rewrite H. simpl. f_equal. world_eq.
Qed.

Lemma events_since_extension w w' t :
  trace w' = (trace w ++ t)%list -> events_since w w' = t.
Proof. intros H. unfold events_since. rewrite H. apply drop_app_length. Qed.

Lemma length_seen_unseen w videos :
  (length (filter (seen_in w) videos) + length (unseen_videos w videos))%nat
  = length videos.
Proof.
  induction videos as [|v videos IH]; [done|].
  destruct (decide (seen_in w v)).
  - rewrite unseen_videos_cons_seen, filter_cons_True by done. simpl. lia.
  - rewrite unseen_videos_cons_unseen, filter_cons_False by done. simpl. lia.
Qed.

Lemma unseen_ids_NoDup w videos :
  NoDup (id <$> videos) ->
  NoDup ((fun video => HStr (id video)) <$> unseen_videos w videos).
Proof.
  induction videos as [|v videos IH]; intros Hnodup; [constructor|].
  rewrite fmap_cons in Hnodup. apply NoDup_cons in Hnodup as [Hfresh Hnodup].
  destruct (decide (seen_in w v)).
  - rewrite unseen_videos_cons_seen by done. by apply IH.
  - rewrite unseen_videos_cons_unseen by done. rewrite fmap_cons.
    apply NoDup_cons. split; [|by apply IH].
    intros Hin. apply list_elem_of_fmap in Hin as (v' & Heq & Hv').
    apply Hfresh. injection Heq as ->. apply list_elem_of_fmap_2.
    unfold unseen_videos in Hv'. by apply list_elem_of_filter in Hv' as [_ ?].
Qed.

End Main.

(** C3 (amended). When the fetch of a cycle returns three videos with
    distinct ids of which exactly one is in the seen set, the delay and
    backoff settings are valid and the Shorts filter lets the two new
    videos through (it is off, or both are Shorts), the cycle enters
    [post_comment] exactly twice, once for each new video in the order of
    the fetch, logs two processed videos, leaves all three ids in the seen
    set and grows the set by exactly two; this for every sequence of
    answers to the comment insertions. *)
Theorem check_for_new_videos_comments_two config env w videos :
  three_uploads_one_seen config env w videos ->
  valid_timing config ->
  shorts_filter_passes config env w 2 ->
  comments_two_new_videos config env w videos.
Proof.
  intros (Hchannel & Hreply & Hlen & Hnodup & Hseen) Htiming Hfilter.
  pose proof (length_seen_unseen w videos) as Hsplit.
  assert (Hunseen : length (unseen_videos w videos) = 2%nat) by lia.
  unfold comments_two_new_videos. cbv zeta.
  unfold main.check_for_new_videos.
  rewrite (proj2 (String.eqb_neq _ _) Hchannel).
  rewrite (bind_run _ _ _ _ _ (log_run _ _ _)).
  assert (Hreply' : uploads_reply env
            (n_uploads (advance w 0 [ELog INFO (MsgChecking (CHANNEL_ID config))]))
          = UItems videos) by exact Hreply.
  rewrite (bind_run _ _ _ _ _ (get_channel_uploads_items env _ _ videos _ Hreply')).
  clear Hreply'.
  destruct videos as [|video rest]; [discriminate|].
  set (videos := video :: rest) in *.
  set (w2 := advance _ 0 [ELog INFO (MsgFetched _ _)]).
  destruct (for_video_in_run config env videos 0 w2 Htiming Hnodup)
    as (w' & t & Hrun & Hstore & Htrace & Hcalls & _).
  { change (unseen_videos w2 videos) with (unseen_videos w videos). by rewrite Hunseen. }
  change (unseen_videos w2 videos) with (unseen_videos w videos) in *.
  change (store w2) with (store w) in *.
  rewrite (bind_run _ _ _ _ _ Hrun). rewrite Hunseen.
  change (0 + Z.of_nat 2 =? 0) with false. cbv iota.
  rewrite log_run. simpl fst; simpl snd.
  assert (Hext : trace (advance w' 0 [ELog INFO (MsgProcessed (0 + Z.of_nat 2))]) =
     (trace w ++ ([ELog INFO (MsgChecking (CHANNEL_ID config));
                   ERequest (ReqUploads (CHANNEL_ID config) 5);
                   ELog INFO (MsgFetched (length videos) (CHANNEL_ID config))]
                  ++ t ++ [ELog INFO (MsgProcessed 2)]))%list).
  { simpl. rewrite Htrace. subst w2. simpl. by rewrite <- !app_assoc. }
  rewrite (events_since_extension _ _ _ Hext).
  split; [done|]. split; [done|]. split; [|split; [|split]].
  - unfold post_comment_calls in *. simpl. by rewrite omap_app, Hcalls, app_nil_r.
  - apply last_Some. eexists (_ :: _ :: _ :: t)%list. reflexivity.
  - intros v Hv. unfold seen_in. simpl. rewrite Hstore.
    destruct (decide (seen_in w v)) as [Hs|Hn]; [by apply elem_of_union_l|].
    apply elem_of_union_r, elem_of_list_to_set.
    apply (list_elem_of_fmap_2 (fun video => HStr (id video))).
    unfold unseen_videos. by apply list_elem_of_filter.
  - simpl. rewrite Hstore, size_union.
    + rewrite size_list_to_set by (by apply unseen_ids_NoDup).
      by rewrite length_fmap, Hunseen.
    + intros h Hin1 Hin2. apply elem_of_list_to_set in Hin2.
      apply list_elem_of_fmap in Hin2 as (v & -> & Hv).
      unfold unseen_videos in Hv. apply list_elem_of_filter in Hv as [Hv _].
      by apply Hv.
Qed.

(** The theorem above with the Shorts filter off: of the uploads a, b, c
    the store has seen b; the comment on a is rejected (403), the one on c
    is accepted. *)
Lemma check_for_new_videos_comments_two_witness :
  comments_two_new_videos (retry_config 5 1 300)
    (sample_env [Failure (HttpError 403); Success] []
                [UItems [sample_video "a"; sample_video "b"; sample_video "c"]] [])
    (sample_world ["b"])
    [sample_video "a"; sample_video "b"; sample_video "c"].
Proof.
  apply check_for_new_videos_comments_two.
  - split; [discriminate|]. split; [reflexivity|]. split; [reflexivity|].
    split; [|vm_compute; reflexivity].
    apply (bool_decide_unpack _). vm_compute. exact I.
  - repeat split; vm_compute; discriminate.
  - intros H. discriminate H.
Defined.

(** C3 as stated fails when the Shorts filter is on: of the new videos a
    (12 minutes 34 seconds) and c (45 seconds), only c is commented, so
    [post_comment] is entered once; both are marked seen. *)
Lemma check_for_new_videos_skips_long_video :
  let config := shorts_config in
  let env := sample_env [] [VDuration "PT12M34S"; VDuration "PT45S"]
               [UItems [sample_video "a"; sample_video "b"; sample_video "c"]] [] in
  let w := sample_world ["b"] in
  let videos := [sample_video "a"; sample_video "b"; sample_video "c"] in
  let run := main.check_for_new_videos config env w in
  three_uploads_one_seen config env w videos
  /\ valid_timing config
  /\ fst run = Ret tt
  /\ post_comment_calls (events_since w (snd run)) = ["c"]
  /\ size (last_seen_videos (store (snd run))) = 3%nat
  /\ ~ comments_two_new_videos config env w videos.
Proof.
  cbv zeta. split; [|split; [|split; [|split; [|split]]]].
  - split; [discriminate|]. split; [reflexivity|]. split; [reflexivity|].
    split; [|vm_compute; reflexivity].
    apply (bool_decide_unpack _). vm_compute. exact I.
  - repeat split; vm_compute; discriminate.
  - vm_compute. reflexivity.
  - vm_compute. reflexivity.
  - vm_compute. reflexivity.
  - intros (_ & _ & Hcalls & _). vm_compute in Hcalls. discriminate.
Qed.

(** C2 (amended). With the Shorts filter on, a new video whose duration
    request yields no duration is handled as a video that is not a Short:
    the duration is requested once, [post_comment] is not entered, nothing
    is sent for a comment and nothing is slept; the video is marked seen
    in that cycle (and written to the state file when the write
    succeeds), so that a later [process_video] on it only logs that it
    was already processed. *)
Theorem process_video_without_duration config env video w :
  SHORTS_ONLY config = true ->
  ~ seen_in w video ->
  no_duration (videos_reply env (n_videos w)) ->
  let run := main.process_video config env video w in
  let t := events_since w (snd run) in
  fst run = Ret tt
  /\ (exists l m,
        t = ([ELog INFO (MsgProcessing (title video) (id video))]
             ++ no_duration_events (id video) (videos_reply env (n_videos w))
             ++ [ELog INFO (MsgSkippingNonShort (id video)); ELog l m])%list)
  /\ post_comment_calls t = []
  /\ insert_requests t = []
  /\ sleeps t = []
  /\ store (snd run) =
       marked_store (store w) (id video) (utcnow_isoformat env (n_clock w))
  /\ seen_in (snd run) video
  /\ (write_fault env (n_write w) = NoFault ->
      disk (snd run) !! state_file (store w) =
        Some (Doc (state_document (store (snd run)))))
  /\ main.process_video config env video (snd run) =
       (Ret tt, advance (snd run) 0 [ELog DEBUG (MsgAlreadyProcessed (id video))]).
Proof.
  intros Hshorts Hunseen Hnone. cbv zeta.
  assert (Hrun : main.process_video config env video w =
    state.mark_video_seen env (id video)
      (advance
         (tick_videos
            (advance (advance w 0 [ELog INFO (MsgProcessing (title video) (id video))])
                     0 (no_duration_events (id video) (videos_reply env (n_videos w)))))
         0 [ELog INFO (MsgSkippingNonShort (id video))])).
  { unfold main.process_video. cbv zeta.
    rewrite (bind_run _ _ _ _ _ (is_video_seen_run _ _)).
    rewrite bool_decide_eq_false_2 by exact Hunseen.
    rewrite (bind_run _ _ _ _ _ (log_run _ _ _)).
    rewrite Hshorts.
    assert (Hnone' : no_duration
              (videos_reply env
                 (n_videos (advance w 0 [ELog INFO (MsgProcessing (title video)
                                                                  (id video))]))))
      by exact Hnone.
    rewrite (bind_run _ _ _ _ _ (is_short_without_duration config env _ _ Hnone')).
    change (negb false) with true. cbv iota.
    by rewrite (bind_run _ _ _ _ _ (log_run _ _ _)). }
  assert (Hseen : seen_in (snd (main.process_video config env video w)) video).
  { unfold seen_in. rewrite Hrun, mark_video_seen_store. simpl. set_solver. }
  split; [by rewrite Hrun, mark_video_seen_returns|].
  assert (Hevents : exists l m,
    events_since w (snd (main.process_video config env video w)) =
      ([ELog INFO (MsgProcessing (title video) (id video))]
       ++ no_duration_events (id video) (videos_reply env (n_videos w))
       ++ [ELog INFO (MsgSkippingNonShort (id video)); ELog l m])%list).
  { rewrite Hrun.
    match goal with
    | |- context [state.mark_video_seen env ?v ?w1] =>
        destruct (mark_video_seen_effect env v w1) as (w' & l & m & -> & _ & Htrace & _)
    end.
    exists l, m. apply events_since_extension. simpl snd. rewrite Htrace. simpl.
    by rewrite <- !app_assoc. }
  split; [exact Hevents|].
  destruct Hevents as (l & m & ->).
  split; [|split; [|split]];
    try (by destruct (videos_reply env (n_videos w))).
  split; [by rewrite Hrun, mark_video_seen_store|].
  split; [exact Hseen|]. split.
  - intros Hok. rewrite Hrun, mark_video_seen_run, save_state_run.
    destruct w; simpl in *. rewrite Hok. simpl. apply lookup_insert_eq.
  - by apply process_video_seen.
Qed.

Lemma process_video_without_duration_witness :
  let config := shorts_config in
  let env := sample_env [] [VRaises (HttpError 503)] [] [] in
  let w := sample_world [] in
  let run := main.process_video config env (sample_video "a") w in
  fst run = Ret tt
  /\ post_comment_calls (events_since w (snd run)) = []
  /\ seen_in (snd run) (sample_video "a").
Proof.
  cbv zeta.
  destruct (process_video_without_duration shorts_config
              (sample_env [] [VRaises (HttpError 503)] [] [])
              (sample_video "a") (sample_world []))
    as (Hret & _ & Hcalls & _ & _ & _ & Hseen & _).
  - reflexivity.
  - apply (bool_decide_unpack _). vm_compute. exact I.
  - exact I.
  - split; [exact Hret|]. split; [exact Hcalls|exact Hseen].
Defined.

(** C2 as stated fails: with the Shorts filter on, the new video a whose
    duration request raises (503) is marked seen and written to the state
    file in that same cycle. *)
Lemma process_video_marks_seen_without_duration :
  let config := shorts_config in
  let env := sample_env [] [VRaises (HttpError 503)] [] [] in
  let w := sample_world [] in
  let video := sample_video "a" in
  let run := main.process_video config env video w in
  SHORTS_ONLY config = true
  /\ fst (state.is_video_seen (id video) w) = Ret false
  /\ fst (yt_client.get_video_duration env (id video) w) = Ret None
  /\ fst run = Ret tt
  /\ fst (state.is_video_seen (id video) (snd run)) = Ret true
  /\ disk (snd run) !! "state.json" =
       Some (Doc (JObj [("last_seen_videos", JArr [JStr "a"]);
                        ("last_check_time", JStr "2024-05-01T12:00:00")]))
  /\ ~ left_unseen config env w video.
Proof.
  cbv zeta. repeat (split; [vm_compute; reflexivity|]).
  intros [_ H]. vm_compute in H. discriminate.
Qed.

(** ** Further runs *)

(** Three retries allowed, five transient failures: three requests, two
    sleeps, [False]. *)
Example post_comment_exhausts_retries :
  let env := sample_env (replicate 5 (Failure (HttpError 429)) ++ [Success]) [] [] [] in
  let run := yt_client.post_comment (retry_config 3 2 5) env "video" "text"
               (sample_world []) in
  fst run = Ret false
  /\ sleeps (trace (snd run)) = [2; 4]
  /\ insert_requests (trace (snd run)) = ["video"; "video"; "video"]
  /\ last (trace (snd run)) = Some (ELog ERROR (MsgRetriesExhausted 3)).
Proof. cbv zeta. repeat split; vm_compute; reflexivity. Qed.

(** A negative initial backoff makes [time.sleep] raise inside the handler
    of [post_comment]: the exception leaves the call. *)
Example post_comment_negative_backoff_raises :
  fst (yt_client.post_comment (retry_config 5 (-1) 300)
         (sample_env [Failure (HttpError 503); Success] [] [] [])
         "video" "text" (sample_world []))
  = Raise ValueError.
Proof. vm_compute. reflexivity. Qed.

(** An empty range for the delay makes [random.randint] raise: the cycle
    ends with the exception and no video is marked seen. *)
Example check_for_new_videos_empty_delay_range_raises :
  let env := sample_env []  []
               [UItems [sample_video "a"; sample_video "b"; sample_video "c"]] [] in
  let run := main.check_for_new_videos (delay_config 180 30) env (sample_world ["b"]) in
  fst run = Raise ValueError
  /\ size (last_seen_videos (store (snd run))) = 1%nat.
Proof. cbv zeta. split; vm_compute; reflexivity. Qed.

(** After a cycle in which the duration request for the new video a
    failed, the next cycle asks nothing about a: its only request is the
    listing of the uploads. *)
Example polling_loop_skips_marked_video :
  let env := sample_env [] [VRaises (HttpError 503); VDuration "PT45S"]
               [UItems [sample_video "a"]; UItems [sample_video "a"]] [] in
  let w1 := snd (main.polling_loop shorts_config env 1 (sample_world [])) in
  let w2 := snd (main.polling_loop shorts_config env 1 w1) in
  omap (fun e => match e with ERequest r => Some r | _ => None end)
       (events_since w1 w2)
  = [ReqUploads "UC-channel" 5]
  /\ post_comment_calls (trace w2) = [].
Proof. cbv zeta. split; vm_compute; reflexivity. Qed.

(** A state file whose document is an object of the wrong shape is read
    without an error as far as Python's [set] and [dict.get] allow. *)
Example load_state_string_ids :
  let w := set_disk {["state.json" := Doc (JObj [("last_seen_videos", JStr "ab")])]}
                    (sample_world []) in
  let run := state.__init__ "state.json" w in
  fst run = Ret tt
  /\ elements (last_seen_videos (store (snd run))) = [HStr "a"; HStr "b"]
  /\ events_since w (snd run) = [ELog INFO (MsgLoaded 2)].
Proof. cbv zeta. repeat split; vm_compute; reflexivity. Qed.

Example parse_duration_examples :
  yt_client._parse_duration "PT1H2M3S" = 3723
  /\ yt_client._parse_duration "PT15S" = 15
  /\ yt_client._parse_duration "PT2H" = 7200
  /\ yt_client._parse_duration "PT" = 0
  /\ yt_client._parse_duration "PT007M" = 420.
Proof. repeat split; vm_compute; reflexivity. Qed.

(** ** Termination of the model *)

Section Termination.
Context (config : Config) (env : Env).

Lemma terminates_ret {A} (a : A) : terminates (mret a : M A).
Proof. intros w. discriminate. Qed.

Lemma terminates_raise {A} e : terminates (raise e : M A).
Proof. intros w. discriminate. Qed.

Lemma terminates_bind {A B} (m : M A) (f : A -> M B) :
  terminates m -> (forall a, terminates (f a)) -> terminates (m ≫= f).
Proof.
  intros Hm Hf w. unfold mbind, M_bind. specialize (Hm w).
  destruct (m w) as [[a|e|] w']; simpl in *; [apply Hf|discriminate|done].
Qed.

Lemma terminates_try_except {A} (body : M A) handler :
  terminates body -> (forall e, terminates (handler e)) ->
  terminates (try_except body handler).
Proof.
  intros Hm Hh w. unfold try_except. specialize (Hm w).
  destruct (body w) as [[a|e|] w']; simpl in *; [discriminate|apply Hh|done].
Qed.

Lemma terminates_emit e : terminates (emit e).
Proof. intros w. discriminate. Qed.

Lemma terminates_sleep secs : terminates (sleep secs).
Proof. unfold sleep. destruct (secs <? 0); intros w; discriminate. Qed.

(** One step through a computation built from binds, handlers, branches
    and primitives that return at once. *)
Ltac terminates_step :=
  match goal with
  | |- forall _, terminates _ => intro
  | |- terminates (mbind _ _) => apply terminates_bind
  | |- terminates (try_except _ _) => apply terminates_try_except
  | |- terminates (mret _) => apply terminates_ret
  | |- terminates (raise _) => apply terminates_raise
  | |- terminates (sleep _) => apply terminates_sleep
  | |- terminates (emit _) => apply terminates_emit
  | |- terminates (log _ _) => apply terminates_emit
  | |- terminates (match ?x with _ => _ end) => destruct x
  | |- terminates (if ?x then _ else _) => destruct x
  end.

Lemma terminates_save_state : terminates (state.save_state env).
Proof. intros w. by rewrite save_state_returns. Qed.

Lemma terminates_mark_video_seen video_id :
  terminates (state.mark_video_seen env video_id).
Proof. intros w. by rewrite mark_video_seen_returns. Qed.

Lemma body_continue_next video_id text retries backoff w retries' backoff' w' :
  yt_client.post_comment_body config env video_id text retries backoff w
    = (Ret (yt_client.Continue retries' backoff'), w') ->
  retries' = retries + 1.
Proof.
  destruct (insert_reply env (n_insert w)) as [|e] eqn:Hreply.
  - rewrite body_success by done. discriminate.
  - destruct (transient e) eqn:Ht.
    + destruct (transient_is_http e Ht) as [status ->].
      destruct (Z.lt_ge_cases (retries + 1) (MAX_RETRIES config)).
      * destruct (Z.lt_ge_cases backoff 0).
        -- rewrite (body_retry_negative _ _ _ _ _ _ _ status) by done. discriminate.
        -- rewrite (body_retry _ _ _ _ _ _ _ status) by done. congruence.
      * rewrite (body_exhausted _ _ _ _ _ _ _ status) by done. discriminate.
    + rewrite (body_rejected _ _ _ _ _ _ _ e) by done. discriminate.
Qed.

Lemma body_terminates video_id text retries backoff :
  terminates (yt_client.post_comment_body config env video_id text retries backoff).
Proof.
  intros w.
  destruct (insert_reply env (n_insert w)) as [|e] eqn:Hreply.
  - by rewrite body_success.
  - destruct (transient e) eqn:Ht.
    + destruct (transient_is_http e Ht) as [status ->].
      destruct (Z.lt_ge_cases (retries + 1) (MAX_RETRIES config)).
      * destruct (Z.lt_ge_cases backoff 0).
        -- by rewrite (body_retry_negative _ _ _ _ _ _ _ status).
        -- by rewrite (body_retry _ _ _ _ _ _ _ status).
      * by rewrite (body_exhausted _ _ _ _ _ _ _ status).
    + by rewrite (body_rejected _ _ _ _ _ _ _ e).
Qed.

(** The fuel that [post_comment] gives to its loop is enough, whatever
    the settings and the answers of the remote side. *)
Lemma post_comment_while_terminates fuel : forall video_id text retries backoff,
  (Z.to_nat (MAX_RETRIES config - retries) <= fuel)%nat ->
  terminates (yt_client.post_comment_while config env fuel video_id text retries backoff).
Proof.
  induction fuel as [|fuel IH]; intros video_id text retries backoff Hfuel w.
  - by rewrite while_done by lia.
  - destruct (Z.lt_ge_cases retries (MAX_RETRIES config)) as [Hr|Hr];
      [|by rewrite while_done by lia].
    rewrite while_unfold by done.
    pose proof (body_terminates video_id text retries backoff w) as Hbody.
    destruct (yt_client.post_comment_body config env video_id text retries backoff w)
      as [[[value|retries' backoff']|e|] w'] eqn:Hrun; simpl in Hbody; try done.
    apply body_continue_next in Hrun as ->. apply IH. lia.
Qed.

Lemma post_comment_terminates video_id text :
  terminates (yt_client.post_comment config env video_id text).
Proof.
  intros w. rewrite post_comment_unfold.
  apply post_comment_while_terminates. lia.
Qed.

Lemma process_video_terminates video :
  terminates (main.process_video config env video).
Proof.
  unfold main.process_video, yt_client.is_short, yt_client.get_video_duration,
    yt_client.execute_videos_list, templates.random_randint,
    templates.should_include_discord, templates.get_random_comment,
    templates.random_choice, templates.random_random, templates.draw. cbv zeta.
  repeat first
    [ terminates_step
    | match goal with
      | |- terminates (yt_client.post_comment _ _ _ _) =>
          apply post_comment_terminates
      | |- terminates (state.mark_video_seen _ _) =>
          apply terminates_mark_video_seen
      | |- terminates _ => solve [intros w; discriminate]
      end ].
Qed.

Lemma for_video_in_terminates videos : forall new_videos_count,
  terminates (main.for_video_in config env videos new_videos_count).
Proof.
  induction videos as [|video rest IH]; intros count; simpl.
  - apply terminates_ret.
  - apply terminates_bind; [intros w; discriminate|]. intros seen.
    destruct seen; simpl; [apply IH|].
    apply terminates_bind; [apply process_video_terminates|]. intros _. apply IH.
Qed.

Lemma check_for_new_videos_terminates :
  terminates (main.check_for_new_videos config env).
Proof.
  unfold main.check_for_new_videos, yt_client.get_channel_uploads,
    yt_client.execute_uploads.
  repeat first
    [ terminates_step
    | match goal with
      | |- terminates (main.for_video_in _ _ _ _) => apply for_video_in_terminates
      | |- terminates _ => solve [intros w; discriminate]
      end ].
Qed.

(** No pass of the polling loop stops for lack of fuel. *)
Lemma polling_loop_terminates iterations :
  terminates (main.polling_loop config env iterations).
Proof.
  induction iterations as [|n IH]; simpl; [apply terminates_ret|].
  apply terminates_bind; [|intros _; apply IH].
  unfold main.poll_once.
  apply terminates_bind; [|intros _].
  - apply terminates_try_except; [apply check_for_new_videos_terminates|].
    intros e. apply terminates_emit.
  - apply terminates_bind; [apply terminates_emit|intros _; apply terminates_sleep].
Qed.

End Termination.

(** * Further properties *)

(** ** The retry loop under arbitrary answers *)

Section RetryLoop.
Context (config : Config) (env : Env).

(** What a run of the loop of [post_comment] amounts to, for any settings
    and any answers: [k] requests, all but the last answered by transient
    failures, one sleep between two requests. *)
Lemma post_comment_while_run fuel : forall video_id text retries backoff w,
  (Z.to_nat (MAX_RETRIES config - retries) <= fuel)%nat ->
  exists res k t,
    yt_client.post_comment_while config env fuel video_id text retries backoff w =
      (res, advance w k t)
    /\ (k <= Z.to_nat (MAX_RETRIES config - retries))%nat
    /\ (retries < MAX_RETRIES config -> (0 < k)%nat)
    /\ post_comment_calls t = []
    /\ insert_requests t = replicate k video_id
    /\ sleeps t = backoffs backoff (MAX_BACKOFF config) (pred k)
    /\ (forall j, (S j < k)%nat ->
          exists e, insert_reply env (n_insert w + j) = Failure e /\ transient e = true)
    /\ match res with
       | Ret true =>
           (0 < k)%nat
           /\ insert_reply env (n_insert w + pred k) = Success
           /\ posted_videos t = [video_id]
       | Ret false =>
           posted_videos t = []
           /\ (k = 0%nat
               \/ exists e, insert_reply env (n_insert w + pred k) = Failure e)
       | Raise e =>
           e = ValueError
           /\ posted_videos t = []
           /\ backoff_after backoff (MAX_BACKOFF config) (pred k) < 0
           /\ exists e', insert_reply env (n_insert w + pred k) = Failure e'
       | OutOfFuel => False
       end.
Proof.
  induction fuel as [|fuel IH]; intros video_id text retries backoff w Hfuel.
  - exists (Ret false), 0%nat, []. rewrite while_done by lia. rewrite advance_0_nil.
    repeat split; try done; try lia; try (by left).
  - destruct (Z.lt_ge_cases retries (MAX_RETRIES config)) as [Hr|Hr].
    2:{ exists (Ret false), 0%nat, []. rewrite while_done by lia. rewrite advance_0_nil.
        repeat split; try done; try lia; try (by left). }
    rewrite while_unfold by done.
    destruct (insert_reply env (n_insert w)) as [|e] eqn:Hreply.
    + rewrite body_success by done.
      eexists (Ret true), 1%nat, _. split; [reflexivity|].
      repeat split; try done; try lia.
      simpl. by rewrite Nat.add_0_r.
    + destruct (transient e) eqn:Ht.
      * destruct (transient_is_http e Ht) as [status ->].
        destruct (Z.lt_ge_cases (retries + 1) (MAX_RETRIES config)) as [Hr'|Hr'].
        -- destruct (Z.lt_ge_cases backoff 0) as [Hneg|Hpos].
           ++ rewrite (body_retry_negative _ _ _ _ _ _ _ status) by done.
              eexists (Raise ValueError), 1%nat, _. split; [reflexivity|].
              repeat split; try done; try lia.
              exists (HttpError status). simpl. by rewrite Nat.add_0_r.
           ++ rewrite (body_retry _ _ _ _ _ _ _ status) by done.
              set (w1 := advance w 1 _).
              destruct (IH video_id text (retries + 1)
                          (Z.min (backoff * 2) (MAX_BACKOFF config)) w1)
                as (res & k & t & Hrun & Hk & Hpos' & Hcalls & Hreq & Hsleeps
                    & Hprev & Hres); [lia|].
              specialize (Hpos' Hr').
              assert (Hshift : forall j, (n_insert w1 + j = n_insert w + S j)%nat)
                by (intros j; subst w1; simpl; lia).
              exists res, (S k). eexists.
              split; [rewrite Hrun; subst w1; rewrite advance_advance; reflexivity|].
              split; [lia|]. split; [lia|].
              split; [unfold post_comment_calls in *; by rewrite omap_app, Hcalls|].
              split; [unfold insert_requests in *; by rewrite omap_app, Hreq|].
              split.
              { unfold sleeps in *. rewrite omap_app, Hsleeps. simpl.
                destruct k as [|k]; [lia|]. reflexivity. }
              split.
              { intros [|j] Hj.
                - exists (HttpError status). by rewrite Nat.add_0_r.
                - destruct (Hprev j) as (e & He & Hte); [lia|].
                  exists e. by rewrite <- Hshift. }
              destruct k as [|k]; [lia|]. simpl pred in *.
              destruct res as [[|]|e|].
              ** destruct Hres as (_ & Hlast & Hposted).
                 split; [lia|]. split; [by rewrite <- Hshift|].
                 unfold posted_videos in *. by rewrite omap_app, Hposted.
              ** destruct Hres as (Hposted & Hlast). split.
                 { unfold posted_videos in *. by rewrite omap_app, Hposted. }
                 right. destruct Hlast as [|(e & He)]; [lia|].
                 exists e. by rewrite <- Hshift.
              ** destruct Hres as (-> & Hposted & Hneg & e' & He').
                 split; [done|]. split.
                 { unfold posted_videos in *. by rewrite omap_app, Hposted. }
                 split; [exact Hneg|]. exists e'. by rewrite <- Hshift.
              ** done.
        -- rewrite (body_exhausted _ _ _ _ _ _ _ status) by done.
           eexists (Ret false), 1%nat, _. split; [reflexivity|].
           repeat split; try done; try lia.
           right. exists (HttpError status). simpl. by rewrite Nat.add_0_r.
      * rewrite (body_rejected _ _ _ _ _ _ _ e) by done.
        eexists (Ret false), 1%nat, _. split; [reflexivity|].
        repeat split; try done; try lia.
        right. exists e. simpl. by rewrite Nat.add_0_r.
Qed.

End RetryLoop.

Section RetryLoopFacts.
Context (config : Config) (env : Env).

Lemma backoff_after_nonneg n : forall backoff max_backoff,
  0 <= backoff -> 0 <= max_backoff -> 0 <= backoff_after backoff max_backoff n.
Proof.
  induction n as [|n IH]; intros backoff max_backoff Hb Hc; simpl; [done|].
  apply IH; lia.
Qed.

Lemma backoffs_within n : forall backoff max_backoff,
  0 <= backoff <= max_backoff ->
  Forall (fun s => backoff <= s <= max_backoff) (backoffs backoff max_backoff n).
Proof.
  induction n as [|n IH]; intros backoff max_backoff Hb; simpl; constructor; [lia|].
  eapply Forall_impl; [apply IH; lia|]. simpl. intros s Hs. lia.
Qed.

Lemma backoffs_sorted n : forall backoff max_backoff,
  0 <= backoff <= max_backoff ->
  Sorted Z.le (backoffs backoff max_backoff n).
Proof.
  induction n as [|n IH]; intros backoff max_backoff Hb; simpl; constructor.
  - apply IH. lia.
  - destruct n; simpl; constructor. lia.
Qed.

Lemma backoffs_length n backoff max_backoff :
  length (backoffs backoff max_backoff n) = n.
Proof. revert backoff. induction n as [|n IH]; intros backoff; simpl; [done|]. by rewrite IH. Qed.

End RetryLoopFacts.

(** X1. Whatever the settings and whatever the remote side answers,
    [post_comment] ends, sends at most [MAX_RETRIES] insert requests (all
    for the video it was given), sleeps exactly once between two
    consecutive requests with the successive backoff values, and changes
    nothing of the world but the count of insert calls and the trace. *)
Theorem post_comment_bounded_retries config env video_id text w :
  exists res k t,
    yt_client.post_comment config env video_id text w =
      (res, advance w k (EEnterPostComment video_id text :: t))
    /\ res <> OutOfFuel
    /\ (k <= Z.to_nat (MAX_RETRIES config))%nat
    /\ insert_requests t = replicate k video_id
    /\ sleeps t = backoffs (INITIAL_BACKOFF config) (MAX_BACKOFF config) (pred k)
    /\ post_comment_calls t = [].
Proof.
  rewrite post_comment_unfold.
  destruct (post_comment_while_run config env (Z.to_nat (MAX_RETRIES config))
              video_id text 0 (INITIAL_BACKOFF config)
              (advance w 0 [EEnterPostComment video_id text]))
    as (res & k & t & Hrun & Hk & _ & Hcalls & Hreq & Hsleeps & _ & Hres); [lia|].
  exists res, k, t. rewrite Hrun, advance_advance.
  split; [reflexivity|]. split; [by destruct res as [[|]| |]|].
  split; [lia|]. done.
Qed.

(** X2. [post_comment] returns [True] exactly when the last insert it sent
    succeeded; every insert before the last was answered by a transient
    failure.  Hence a call inserts at most one comment, and its success
    record is logged exactly when it returns [True]. *)
Theorem post_comment_true_iff_last_insert_succeeded config env video_id text w :
  let run := yt_client.post_comment config env video_id text w in
  exists k,
    n_insert (snd run) = (n_insert w + k)%nat
    /\ (forall j, (S j < k)%nat ->
          exists e, insert_reply env (n_insert w + j) = Failure e /\ transient e = true)
    /\ (fst run = Ret true <->
        (0 < k)%nat /\ insert_reply env (n_insert w + pred k) = Success)
    /\ (fst run = Ret true -> posted_videos (events_since w (snd run)) = [video_id])
    /\ (fst run <> Ret true -> posted_videos (events_since w (snd run)) = []).
Proof.
  cbv zeta. rewrite post_comment_unfold.
  destruct (post_comment_while_run config env (Z.to_nat (MAX_RETRIES config))
              video_id text 0 (INITIAL_BACKOFF config)
              (advance w 0 [EEnterPostComment video_id text]))
    as (res & k & t & Hrun & Hk & _ & Hcalls & Hreq & Hsleeps & Hprev & Hres); [lia|].
  rewrite Hrun, advance_advance. simpl fst; simpl snd.
  rewrite events_since_advance.
  assert (Hshift : forall j, (n_insert (advance w 0 [EEnterPostComment video_id text]) + j
                              = n_insert w + j)%nat) by (intros j; simpl; lia).
  exists k. split; [simpl; lia|].
  split; [intros j Hj; rewrite <- Hshift; by apply Hprev|].
  destruct res as [[|]|e|]; try done.
  - destruct Hres as (Hpos & Hlast & Hposted). rewrite Hshift in Hlast.
    split; [done|]. split; [done|]. done.
  - destruct Hres as (Hposted & Hlast).
    split; [|by split].
    split; [done|]. intros [Hpos Hok].
    destruct Hlast as [->|(e & He)]; [lia|]. rewrite Hshift in He. congruence.
  - destruct Hres as (-> & Hposted & _ & e' & He').
    split; [|by split]. split; [done|]. intros [Hpos Hok].
    rewrite Hshift in He'. congruence.
Qed.

(** X3. [post_comment] turns every failure of the remote side into the
    result [False]: whatever exception an insert raises, the only
    exception that can leave the call is the [ValueError] of [time.sleep],
    and only when a backoff setting is negative. *)
Theorem post_comment_raises_only_on_negative_backoff config env video_id text w :
  match fst (yt_client.post_comment config env video_id text w) with
  | Ret _ => True
  | Raise e =>
      e = ValueError /\ (INITIAL_BACKOFF config < 0 \/ MAX_BACKOFF config < 0)
  | OutOfFuel => False
  end.
Proof.
  rewrite post_comment_unfold.
  destruct (post_comment_while_run config env (Z.to_nat (MAX_RETRIES config))
              video_id text 0 (INITIAL_BACKOFF config)
              (advance w 0 [EEnterPostComment video_id text]))
    as (res & k & t & Hrun & _ & _ & _ & _ & _ & _ & Hres); [lia|].
  rewrite Hrun. simpl fst.
  destruct res as [b|e|]; [done| |done].
  destruct Hres as (-> & _ & Hneg & _). split; [done|].
  destruct (Z.lt_ge_cases (INITIAL_BACKOFF config) 0); [by left|].
  destruct (Z.lt_ge_cases (MAX_BACKOFF config) 0); [by right|].
  pose proof (backoff_after_nonneg (pred k) (INITIAL_BACKOFF config)
                (MAX_BACKOFF config)). lia.
Qed.

(** X4. With [0 <= INITIAL_BACKOFF <= MAX_BACKOFF], in every run of
    [post_comment] the sleeps never decrease, each lies between the
    initial backoff and the cap, and there are fewer of them than
    [MAX_RETRIES]; so a call sleeps at most
    [(MAX_RETRIES - 1) * MAX_BACKOFF] seconds in all. *)
Theorem post_comment_sleeps_within_bounds config env video_id text w :
  0 <= INITIAL_BACKOFF config <= MAX_BACKOFF config ->
  let slept :=
    sleeps (events_since w (snd (yt_client.post_comment config env video_id text w))) in
  Sorted Z.le slept
  /\ Forall (fun s => INITIAL_BACKOFF config <= s <= MAX_BACKOFF config) slept
  /\ (length slept <= Z.to_nat (MAX_RETRIES config - 1))%nat
  /\ foldr Z.add 0 slept <= Z.max 0 (MAX_RETRIES config - 1) * MAX_BACKOFF config.
Proof.
  intros Hb. cbv zeta.
  rewrite post_comment_unfold.
  destruct (post_comment_while_run config env (Z.to_nat (MAX_RETRIES config))
              video_id text 0 (INITIAL_BACKOFF config)
              (advance w 0 [EEnterPostComment video_id text]))
    as (res & k & t & Hrun & Hk & _ & _ & _ & Hsleeps & _); [lia|].
  rewrite Hrun, advance_advance. simpl snd. rewrite events_since_advance.
  change (sleeps (EEnterPostComment video_id text :: t)) with (sleeps t).
  rewrite Hsleeps.
  pose proof (backoffs_within (pred k) _ _ Hb) as Hwithin.
  split; [by apply backoffs_sorted|]. split; [exact Hwithin|].
  split; [rewrite backoffs_length; lia|].
  assert (Hsum : forall l, Forall (fun s => INITIAL_BACKOFF config <= s
                                            <= MAX_BACKOFF config) l ->
                 foldr Z.add 0 l <= Z.of_nat (length l) * MAX_BACKOFF config).
  { induction 1 as [|s l Hs _ IH]; simpl; [lia|]. lia. }
  specialize (Hsum _ Hwithin). rewrite backoffs_length in Hsum.
  assert (Z.of_nat (pred k) <= Z.max 0 (MAX_RETRIES config - 1)) by lia.
  nia.
Qed.

Lemma post_comment_sleeps_within_bounds_witness :
  let slept :=
    sleeps (events_since (sample_world [])
      (snd (yt_client.post_comment (retry_config 4 2 5)
              (sample_env (replicate 6 (Failure (HttpError 503))) [] [] [])
              "video" "text" (sample_world [])))) in
  Sorted Z.le slept
  /\ Forall (fun s => 2 <= s <= 5) slept
  /\ (length slept <= 3)%nat
  /\ foldr Z.add 0 slept <= 15.
Proof.
  apply (post_comment_sleeps_within_bounds (retry_config 4 2 5)).
  split; vm_compute; discriminate.
Defined.

(** ** The duration parser on other strings *)

Section DurationEdges.

Import yt_client.

Local Arguments String.append !_ _ / : simpl nomatch.

Lemma search_unfold unit c rest :
  re_search_digits unit (String c rest) =
    if is_digit c then
      match span_digits (String c rest) with
      | (ds, String c' _) =>
          if Ascii.eqb c' unit then Some ds else re_search_digits unit rest
      | (_, EmptyString) => re_search_digits unit rest
      end
    else re_search_digits unit rest.
Proof. reflexivity. Qed.

Lemma span_digits_all s : all_digits (fst (span_digits s)) = true.
Proof.
  induction s as [|c s IH]; simpl; [done|].
  destruct (is_digit c) eqn:Hc; [|done].
  destruct (span_digits s) as [ds tail]. simpl in *. by rewrite Hc, IH.
Qed.

(** A group found by the search is a run of digits. *)
Lemma search_group_digits unit s : forall g,
  re_search_digits unit s = Some g -> all_digits g = true.
Proof.
  induction s as [|c s IH]; intros g; [done|].
  rewrite search_unfold.
  destruct (is_digit c); [|apply IH].
  pose proof (span_digits_all (String c s)) as Hall.
  destruct (span_digits (String c s)) as [ds [|c' tail]]; [apply IH|].
  destruct (Ascii.eqb c' unit); [|apply IH].
  intros [= <-]. exact Hall.
Qed.

Lemma int_from_nonneg g : forall acc,
  all_digits g = true -> 0 <= acc -> 0 <= int_from acc g.
Proof.
  induction g as [|c g IH]; intros acc Hg Hacc; simpl; [done|].
  simpl in Hg. apply andb_prop in Hg as [Hc Hg]. apply IH; [done|].
  unfold digit_value, is_digit in *. apply andb_prop in Hc as [H1 _].
  apply Nat.leb_le in H1. lia.
Qed.

Lemma search_value_nonneg unit s :
  0 <= match re_search_digits unit s with Some g => int g | None => 0 end.
Proof.
  destruct (re_search_digits unit s) as [g|] eqn:Hg; [|done].
  apply int_from_nonneg; [by apply (search_group_digits unit s)|done].
Qed.

Lemma search_no_digit unit s : no_digit s = true -> re_search_digits unit s = None.
Proof.
  induction s as [|c s IH]; [done|]. simpl no_digit. intros H.
  apply andb_prop in H as [Hc Hs]. apply negb_true_iff in Hc.
  rewrite search_unfold, Hc. by apply IH.
Qed.

Lemma replace_PT_no_digit_step s :
  (no_digit s = true -> no_digit (replace_PT s) = true)
  /\ (forall c, no_digit (String c s) = true ->
                no_digit (replace_PT (String c s)) = true).
Proof.
  induction s as [|d rest [IH1 IH2]]; [by split|].
  split; [apply IH2|]. intros c H.
  change (replace_PT (String c (String d rest)))
    with (if Ascii.eqb c "P" && Ascii.eqb d "T" then replace_PT rest
          else String c (replace_PT (String d rest))).
  simpl in H. apply andb_prop in H as [Hc H].
  pose proof H as Hd. apply andb_prop in Hd as [Hd Hrest].
  destruct (Ascii.eqb c "P" && Ascii.eqb d "T").
  - by apply IH1.
  - simpl no_digit. rewrite Hc. simpl. apply IH2. simpl. by rewrite Hd, Hrest.
Qed.

Lemma replace_PT_no_digit s : no_digit s = true -> no_digit (replace_PT s) = true.
Proof. apply replace_PT_no_digit_step. Qed.

End DurationEdges.

Section DurationDays.

Import yt_client.

Local Arguments String.append !_ _ / : simpl nomatch.

(** In [P<days>D...] the P is not followed by T and stays in place. *)
Lemma replace_PT_keeps_P ds rest :
  ds <> "" -> all_digits ds = true -> no_P rest = true ->
  replace_PT (String "P" (ds +:+ rest)) = String "P" (ds +:+ rest).
Proof.
  intros Hne Hds Hrest.
  assert (HnoP : no_P (ds +:+ rest) = true)
    by (by rewrite no_P_append, all_digits_no_P, Hrest).
  destruct ds as [|c ds]; [done|].
  change (replace_PT (String "P" (String c ds +:+ rest)))
    with (if Ascii.eqb "P" "P" && Ascii.eqb c "T" then replace_PT (ds +:+ rest)
          else String "P" (replace_PT (String c ds +:+ rest))).
  simpl in Hds. apply andb_prop in Hds as [Hc _].
  assert (Ascii.eqb c "T" = false) as ->.
  { destruct c as [[] [] [] [] [] [] [] []]; try discriminate; reflexivity. }
  simpl andb. cbv iota. by rewrite replace_PT_no_P.
Qed.

(** The search for a unit passes over [P<days>DT]. *)
Lemma search_past_days unit ds rest :
  all_digits ds = true -> unit <> "D"%char ->
  re_search_digits unit (String "P" (ds +:+ String "D" (String "T" rest)))
  = re_search_digits unit rest.
Proof.
  intros Hds Hne.
  rewrite search_unfold. change (is_digit "P") with false. cbv iota.
  rewrite search_skip by (done || by intros ->).
  rewrite search_unfold. change (is_digit "T") with false. reflexivity.
Qed.

End DurationDays.

(** X5. [_parse_duration] never returns a negative number, and on a
    string that holds no digit (the empty string, [PT], any text without
    a number) it returns 0 instead of raising. *)
Theorem parse_duration_never_negative s :
  0 <= yt_client._parse_duration s
  /\ (no_digit s = true -> yt_client._parse_duration s = 0).
Proof.
  unfold yt_client._parse_duration. cbv zeta. split.
  - pose proof (search_value_nonneg "H" (yt_client.replace_PT s)).
    pose proof (search_value_nonneg "M" (yt_client.replace_PT s)).
    pose proof (search_value_nonneg "S" (yt_client.replace_PT s)).
    lia.
  - intros H. apply replace_PT_no_digit in H.
    by rewrite !search_no_digit.
Qed.

Lemma parse_duration_never_negative_witness :
  0 <= yt_client._parse_duration "PT"
  /\ yt_client._parse_duration "PT" = 0.
Proof.
  destruct (parse_duration_never_negative "PT") as [Hpos Hzero].
  split; [exact Hpos|]. apply Hzero. reflexivity.
Defined.

(** X6. [_parse_duration] reads hours, minutes and seconds only: the day
    part of a duration [P<d>DT[hH][mM][sS]] is dropped, and [P<d>D] alone
    parses to 0. *)
Theorem parse_duration_drops_days (ds : string) (days : nat) (h m s : duration_field) :
  spells ds days -> field_ok h -> field_ok m -> field_ok s ->
  yt_client._parse_duration
    ("P" +:+ ds +:+ "DT" +:+ field_text h "H" +:+ field_text m "M" +:+ field_text s "S")
  = field_value h * 3600 + field_value m * 60 + field_value s
  /\ yt_client._parse_duration ("P" +:+ ds +:+ "D") = 0.
Proof.
  intros Hd Hh Hm Hs.
  pose proof (field_digits (Some (ds, days)) Hd) as (Hne & Hds & _).
  split.
  - unfold yt_client._parse_duration.
    change ("P" +:+ ds +:+ "DT" +:+ field_text h "H" +:+ field_text m "M"
            +:+ field_text s "S")
      with (String "P" (ds +:+ String "D" (String "T"
              (field_text h "H" +:+ field_text m "M" +:+ field_text s "S")))).
    rewrite replace_PT_keeps_P; [|done|done|].
    2:{ change (no_P (String "D" (String "T" ?x))) with (no_P x).
        rewrite !no_P_append, !field_text_no_P by done. reflexivity. }
    cbv zeta. rewrite !search_past_days by done.
    rewrite <- (append_nil_r (field_text s "S")).
    f_equal; [f_equal; f_equal|].
    + apply search_own_field; [done..|].
      by rewrite (search_other_field _ "M"), (search_other_field _ "S").
    + rewrite (search_other_field _ "H") by done.
      apply search_own_field; [done..|].
      by rewrite (search_other_field _ "S").
    + rewrite (search_other_field _ "H"), (search_other_field _ "M") by done.
      by apply search_own_field.
  - unfold yt_client._parse_duration.
    change ("P" +:+ ds +:+ "D") with (String "P" (ds +:+ "D")).
    rewrite replace_PT_keeps_P by done. cbv zeta.
    assert (Hnone : forall unit, unit <> "D"%char ->
              yt_client.re_search_digits unit (String "P" (ds +:+ "D")) = None).
    { intros unit Hne'. rewrite search_unfold.
      change (yt_client.is_digit "P") with false. cbv iota.
      change (ds +:+ "D") with (ds +:+ String "D" "").
      by rewrite search_skip by (done || by intros ->). }
    by rewrite !Hnone.
Qed.

Lemma parse_duration_drops_days_witness :
  yt_client._parse_duration "P1DT2H" = 7200
  /\ yt_client._parse_duration "P1D" = 0.
Proof.
  apply (parse_duration_drops_days "1" 1 (Some ("2", 2%nat)) None None).
  - split; [discriminate | eexists; split; reflexivity].
  - split; [discriminate | eexists; split; reflexivity].
  - exact I.
  - exact I.
Defined.

(** ** Comment selection *)

(** X7. [get_random_comment] returns one of the fixed templates, followed
    by a blank line and the community link exactly when the link is asked
    for and is not empty; it draws once from the random generator and
    never fails. *)
Theorem get_random_comment_shape env include_discord discord_link w :
  exists template,
    template ∈ templates.COMMENT_TEMPLATES
    /\ templates.get_random_comment env include_discord discord_link w =
         (Ret (if include_discord && negb (String.eqb discord_link "")
               then template +:+ templates.newline +:+ templates.newline
                    +:+ "Join our community: " +:+ discord_link
               else template),
          tick_rng w).
Proof.
  unfold templates.get_random_comment, templates.random_choice, templates.draw.
  run_monad.
  set (index := (N.to_nat (rng env (n_rng w)) mod 10)%nat).
  exists (nth index templates.COMMENT_TEMPLATES
              "Great video! Really enjoyed this content. 🎉").
  split.
  - apply list_elem_of_In, nth_In.
    change (length templates.COMMENT_TEMPLATES) with 10%nat.
    subst index. apply Nat.mod_upper_bound. lia.
  - by destruct (include_discord && negb (String.eqb discord_link "")).
Qed.

(** The draw of [random.random] lies in [0, 1). *)
Lemma random_random_range (k : N) :
  (0 <= Z.of_N (k mod 2 ^ 53) # 2 ^ 53)%Q /\ (Z.of_N (k mod 2 ^ 53) # 2 ^ 53 < 1)%Q.
Proof.
  assert (H : (k mod 2 ^ 53 < 2 ^ 53)%N) by (by apply N.mod_lt).
  unfold Qle, Qlt. simpl Qnum. simpl Qden.
  set (r := (k mod 2 ^ 53)%N) in *.
  change (2 ^ 53)%N with 9007199254740992%N in H.
  change (Z.pos (2 ^ 53)) with 9007199254740992. lia.
Qed.

(** X8. [should_include_discord] answers [True] for every draw when the
    rate is 1 or more, and [False] for every draw when the rate is 0 or
    less. *)
Theorem should_include_discord_extremes env inclusion_rate w :
  ((1 <= inclusion_rate)%Q ->
     fst (templates.should_include_discord env inclusion_rate w) = Ret true)
  /\ ((inclusion_rate <= 0)%Q ->
     fst (templates.should_include_discord env inclusion_rate w) = Ret false).
Proof.
  unfold templates.should_include_discord, templates.random_random, templates.draw.
  run_monad.
  destruct (random_random_range (rng env (n_rng w))) as [Hlo Hhi].
  split; intros Hrate; do 2 f_equal.
  - apply negb_true_iff. apply not_true_is_false. intros Hle.
    apply Qle_bool_iff in Hle.
    apply (Qlt_irrefl 1). eapply Qle_lt_trans; [exact Hrate|].
    eapply Qle_lt_trans; [exact Hle|exact Hhi].
  - apply negb_false_iff. apply Qle_bool_iff.
    eapply Qle_trans; [exact Hrate|exact Hlo].
Qed.

Lemma should_include_discord_extremes_witness :
  fst (templates.should_include_discord (sample_env [] [] [] []) 1 (sample_world []))
    = Ret true
  /\ fst (templates.should_include_discord (sample_env [] [] [] []) 0 (sample_world []))
    = Ret false.
Proof.
  split.
  - apply (should_include_discord_extremes (sample_env [] [] [] []) 1 (sample_world [])).
    vm_compute. discriminate.
  - apply (should_include_discord_extremes (sample_env [] [] [] []) 0 (sample_world [])).
    vm_compute. discriminate.
Defined.

(** ** More on the seen-video store *)

Section StoreEdges.
Context (env : Env).

Ltac run_state :=
  unfold state.__init__, state.load_state, state.save_state, state.mark_video_seen,
    state.is_video_seen, state.get_last_check_time, state.utcnow, state.json_dump,
    state.json_load, state.path_exists, state.data_get, state.py_set in *;
  run_monad.

Lemma dict_get_absent fields key default :
  (forall v, (key, v) ∉ fields) -> state.dict_get fields key default = default.
Proof.
  induction fields as [|[k v] fields IH]; intros Habsent; simpl; [done|].
  destruct (String.eqb_spec k key) as [->|Hne].
  - destruct (Habsent v). by left.
  - apply IH. intros v' Hin. apply (Habsent v'). by right.
Qed.

Lemma all_hashable_unhashable items :
  Exists unhashable items -> state.all_hashable items = None.
Proof.
  induction 1 as [j items Hj|j items _ IH]; simpl.
  - by destruct j.
  - rewrite IH. by destruct (state.to_hashable j).
Qed.

(** The run of [__init__] on a document that is an object. *)
Lemma init_object path fields w :
  disk w !! path = Some (Doc (JObj fields)) ->
  state.__init__ path w =
    match state.dict_get fields "last_seen_videos" (JArr []) with
    | JArr items =>
        match state.all_hashable items with
        | Some hs =>
            (Ret tt,
             advance (set_store {| state_file := path;
                                   last_seen_videos := list_to_set hs;
                                   last_check_time :=
                                     state.dict_get fields "last_check_time" JNull |} w)
                     0 [ELog INFO (MsgLoaded (size (list_to_set hs : gset hashable)))])
        | None =>
            (Ret tt, advance (set_store (empty_store path) w) 0 [ELog ERROR MsgLoadError])
        end
    | JStr s =>
        (Ret tt,
         advance (set_store {| state_file := path;
                               last_seen_videos :=
                                 list_to_set (HStr <$> state.characters s);
                               last_check_time :=
                                 state.dict_get fields "last_check_time" JNull |} w)
                 0 [ELog INFO (MsgLoaded (size (list_to_set
                                  (HStr <$> state.characters s) : gset hashable)))])
    | JObj keys =>
        (Ret tt,
         advance (set_store {| state_file := path;
                               last_seen_videos :=
                                 list_to_set ((fun kv => HStr (fst kv)) <$> keys);
                               last_check_time :=
                                 state.dict_get fields "last_check_time" JNull |} w)
                 0 [ELog INFO (MsgLoaded (size (list_to_set
                                  ((fun kv => HStr (fst kv)) <$> keys) : gset hashable)))])
    | _ =>
        (Ret tt, advance (set_store (empty_store path) w) 0 [ELog ERROR MsgLoadError])
    end.
Proof.
  intros Hdisk. destruct w. run_state. repeat (rewrite Hdisk; simpl).
  destruct (state.dict_get fields "last_seen_videos" (JArr [])) as [| | | |items|];
    simpl; try (f_equal; world_eq).
  destruct (state.all_hashable items); simpl; f_equal; world_eq.
Qed.

(** The run of [__init__] when the file is missing, unreadable, or holds a
    document that is not an object. *)
Lemma init_missing path w :
  disk w !! path = None ->
  state.__init__ path w =
    (Ret tt, advance (set_store (empty_store path) w) 0 [ELog INFO MsgNoStateFile]).
Proof.
  intros Hdisk. destruct w. run_state. repeat (rewrite Hdisk; simpl).
  f_equal. world_eq.
Qed.

Lemma init_unreadable path w :
  disk w !! path = Some Garbage ->
  state.__init__ path w =
    (Ret tt, advance (set_store (empty_store path) w) 0 [ELog ERROR MsgLoadError]).
Proof.
  intros Hdisk. destruct w. run_state. repeat (rewrite Hdisk; simpl).
  f_equal. world_eq.
Qed.

Lemma init_non_object path j w :
  disk w !! path = Some (Doc j) ->
  (forall fields, j <> JObj fields) ->
  state.__init__ path w =
    (Ret tt, advance (set_store (empty_store path) w) 0 [ELog ERROR MsgLoadError]).
Proof.
  intros Hdisk Hj. destruct w. run_state. repeat (rewrite Hdisk; simpl).
  destruct j; simpl; try (f_equal; world_eq).
  by destruct (Hj fields).
Qed.

End StoreEdges.

(** X9. Building the store never raises, whatever lies at the path: the
    constructor returns, reads the file without writing anything, leaves a
    store for that path and logs one record; when that record is the
    loading error, the store is empty with no last-check time. *)
Theorem state_init_always_returns path w :
  exists s l m,
    state.__init__ path w = (Ret tt, advance (set_store s w) 0 [ELog l m])
    /\ state_file s = path
    /\ (l = ERROR -> m = MsgLoadError /\ s = empty_store path).
Proof.
  destruct (disk w !! path) as [[|j]|] eqn:Hdisk.
  - rewrite (init_unreadable path w Hdisk). by eexists _, _, _.
  - destruct j as [| | | | |fields];
      try (rewrite (init_non_object path _ w Hdisk) by discriminate;
           by eexists _, _, _).
    rewrite (init_object path fields w Hdisk).
    destruct (state.dict_get fields "last_seen_videos" (JArr [])) as [| | | |items|];
      try (by eexists _, _, _).
    destruct (state.all_hashable items); by eexists _, _, _.
  - rewrite (init_missing path w Hdisk). by eexists _, _, _.
Qed.

(** X10. A state file whose object has no ["last_seen_videos"] key loads
    as an empty set, without an error; the last-check time is whatever the
    ["last_check_time"] key holds, and [None] when that key is missing
    too. *)
Theorem load_state_missing_keys path fields w :
  disk w !! path = Some (Doc (JObj fields)) ->
  (forall v, ("last_seen_videos", v) ∉ fields) ->
  state.__init__ path w =
    (Ret tt,
     advance (set_store {| state_file := path;
                           last_seen_videos := ∅;
                           last_check_time :=
                             state.dict_get fields "last_check_time" JNull |} w)
             0 [ELog INFO (MsgLoaded 0)])
  /\ ((forall v, ("last_check_time", v) ∉ fields) ->
      state.__init__ path w =
        (Ret tt, advance (set_store (empty_store path) w) 0 [ELog INFO (MsgLoaded 0)])).
Proof.
  intros Hdisk Hids.
  rewrite (init_object path fields w Hdisk), (dict_get_absent _ _ _ Hids). simpl.
  split; [reflexivity|].
  intros Htime. by rewrite (dict_get_absent _ _ _ Htime).
Qed.

Lemma load_state_missing_keys_witness :
  let w := set_disk {["state.json" := Doc (JObj [])]} (sample_world []) in
  state.__init__ "state.json" w =
    (Ret tt, advance (set_store (empty_store "state.json") w) 0 [ELog INFO (MsgLoaded 0)]).
Proof.
  cbv zeta.
  destruct (load_state_missing_keys "state.json" []
              (set_disk {["state.json" := Doc (JObj [])]} (sample_world [])))
    as [_ Hempty].
  - reflexivity.
  - intros v Hin. by apply not_elem_of_nil in Hin.
  - apply Hempty. intros v Hin. by apply not_elem_of_nil in Hin.
Defined.

(** X11. A state file whose ["last_seen_videos"] is not iterable (null, a
    number, a boolean) or is a list holding a list or an object makes
    [set(...)] raise: the error is logged and the store is reset to the
    empty set with no last-check time, whatever ["last_check_time"]
    holds. *)
Theorem load_state_type_error path fields w :
  disk w !! path = Some (Doc (JObj fields)) ->
  not_a_set (state.dict_get fields "last_seen_videos" (JArr [])) ->
  state.__init__ path w =
    (Ret tt, advance (set_store (empty_store path) w) 0 [ELog ERROR MsgLoadError]).
Proof.
  intros Hdisk Hbad. rewrite (init_object path fields w Hdisk).
  destruct (state.dict_get fields "last_seen_videos" (JArr [])) as [| | | |items|];
    try done.
  simpl in Hbad. by rewrite (all_hashable_unhashable items Hbad).
Qed.

Lemma load_state_type_error_witness :
  let w := set_disk {["state.json" :=
                        Doc (JObj [("last_seen_videos", JArr [JStr "a"; JArr []]);
                                   ("last_check_time", JStr "2024-05-01T12:00:00")])]}
                    (sample_world []) in
  state.__init__ "state.json" w =
    (Ret tt, advance (set_store (empty_store "state.json") w) 0 [ELog ERROR MsgLoadError]).
Proof.
  cbv zeta.
  apply (load_state_type_error "state.json"
           [("last_seen_videos", JArr [JStr "a"; JArr []]);
            ("last_check_time", JStr "2024-05-01T12:00:00")]).
  - reflexivity.
  - simpl. apply Exists_cons_tl, Exists_cons_hd. exact I.
Defined.

(** X12. What [save_state] writes, [__init__] reads back whole: after a
    successful write, a store built from the same file equals the saved
    one, the last-check time included. *)
Theorem save_state_round_trip env w :
  write_fault env (n_write w) = NoFault ->
  let saved := snd (state.save_state env w) in
  let reload := state.__init__ (state_file (store w)) saved in
  fst (state.save_state env w) = Ret tt
  /\ fst reload = Ret tt
  /\ store (snd reload) = store w
  /\ fst (state.get_last_check_time (snd reload)) = Ret (last_check_time (store w)).
Proof.
  intros Hok. cbv zeta.
  assert (Hdisk : disk (snd (state.save_state env w)) !! state_file (store w)
                  = Some (Doc (state_document (store w)))).
  { rewrite save_state_run, Hok. simpl. apply lookup_insert_eq. }
  rewrite (load_saved_document _ _ _ Hdisk). simpl.
  split; [apply save_state_returns|]. split; [done|].
  by destruct w as [[] ? ? ? ? ? ? ? ?].
Qed.

Lemma save_state_round_trip_witness :
  let env := sample_env [] [] [] [] in
  let w := sample_world ["a"; "b"] in
  store (snd (state.__init__ "state.json" (snd (state.save_state env w)))) = store w.
Proof.
  cbv zeta.
  destruct (save_state_round_trip (sample_env [] [] [] []) (sample_world ["a"; "b"]))
    as (_ & _ & Hstore & _).
  - reflexivity.
  - exact Hstore.
Defined.

(** X13. [mark_video_seen(v)] changes the answer of [is_video_seen] for no
    other id; it always stamps the last-check time with the clock reading
    and always attempts one write, also when [v] was seen already, in
    which case the set stays as it was; a new [v] grows the set by one. *)
Theorem mark_video_seen_changes_one_id env video_id w :
  let w1 := snd (state.mark_video_seen env video_id w) in
  (forall other, other <> video_id ->
     fst (state.is_video_seen other w1) = fst (state.is_video_seen other w))
  /\ fst (state.get_last_check_time w1) = Ret (JStr (utcnow_isoformat env (n_clock w)))
  /\ n_write w1 = S (n_write w)
  /\ n_clock w1 = S (n_clock w)
  /\ (HStr video_id ∈ last_seen_videos (store w) ->
      last_seen_videos (store w1) = last_seen_videos (store w))
  /\ (HStr video_id ∉ last_seen_videos (store w) ->
      size (last_seen_videos (store w1)) = S (size (last_seen_videos (store w)))).
Proof.
  cbv zeta.
  pose proof (mark_video_seen_store env video_id w) as Hstore.
  split; [|split; [|split; [|split; [|split]]]].
  - intros other Hne. rewrite !is_video_seen_run. simpl. rewrite Hstore. simpl.
    do 2 f_equal. apply bool_decide_ext.
    rewrite elem_of_union, elem_of_singleton.
    split; [intros [?|Heq]; [done|by injection Heq]|by left].
  - unfold state.get_last_check_time. run_monad. by rewrite Hstore.
  - rewrite mark_video_seen_run, save_state_run. destruct w; simpl.
    by destruct (write_fault env n_write0).
  - rewrite mark_video_seen_run, save_state_run. destruct w; simpl.
    by destruct (write_fault env n_write0).
  - intros Hin. rewrite Hstore. simpl. rewrite (comm_L (∪)).
    apply subseteq_union_1_L. by apply singleton_subseteq_l.
  - intros Hnotin. rewrite Hstore. simpl.
    rewrite size_union by (by apply disjoint_singleton_r).
    rewrite size_singleton. lia.
Qed.

Lemma mark_video_seen_changes_one_id_witness :
  let env := sample_env [] [] [] [] in
  let w := sample_world ["a"] in
  let w1 := snd (state.mark_video_seen env "b" w) in
  fst (state.is_video_seen "c" w1) = fst (state.is_video_seen "c" w)
  /\ size (last_seen_videos (store w1)) = 2%nat
  /\ last_seen_videos (store (snd (state.mark_video_seen env "a" w)))
     = last_seen_videos (store w).
Proof.
  cbv zeta.
  destruct (mark_video_seen_changes_one_id (sample_env [] [] [] []) "b"
              (sample_world ["a"])) as (Hother & _ & _ & _ & _ & Hnew).
  destruct (mark_video_seen_changes_one_id (sample_env [] [] [] []) "a"
              (sample_world ["a"])) as (_ & _ & _ & _ & Hold & _).
  split; [apply Hother; discriminate|]. split.
  - apply Hnew. apply (bool_decide_unpack _). vm_compute. exact I.
  - apply Hold. apply (bool_decide_unpack _). vm_compute. exact I.
Defined.

(** ** Rules for runs *)

Section Rules.

Lemma wp_bind {A B} (m : M A) (f : A -> M B) Q w :
  wp m (fun r w1 =>
          match r with
          | Ret a => wp (f a) Q w1
          | Raise e => Q (Raise e) w1
          | OutOfFuel => Q OutOfFuel w1
          end) w ->
  wp (m ≫= f) Q w.
Proof.
  unfold wp, mbind, M_bind. destruct (m w) as [[a|e|] w1]; simpl; auto.
Qed.

Lemma wp_try_except {A} (body : M A) handler Q w :
  wp body (fun r w1 =>
             match r with
             | Raise e => wp (handler e) Q w1
             | _ => Q r w1
             end) w ->
  wp (try_except body handler) Q w.
Proof.
  unfold wp, try_except. destruct (body w) as [[a|e|] w1]; simpl; auto.
Qed.

Lemma wp_ret {A} (a : A) (Q : result A -> World -> Prop) w :
  Q (Ret a) w -> wp (mret a) Q w.
Proof. done. Qed.

Lemma wp_raise {A} e (Q : result A -> World -> Prop) w :
  Q (Raise e) w -> wp (raise e) Q w.
Proof. done. Qed.

Lemma wp_emit e (Q : result unit -> World -> Prop) w :
  Q (Ret tt) (advance w 0 [e]) -> wp (emit e) Q w.
Proof. unfold wp. by rewrite emit_advance. Qed.

Lemma wp_log l m (Q : result unit -> World -> Prop) w :
  Q (Ret tt) (advance w 0 [ELog l m]) -> wp (log l m) Q w.
Proof. apply wp_emit. Qed.

Lemma wp_sleep secs (Q : result unit -> World -> Prop) w :
  (secs < 0 -> Q (Raise ValueError) w) ->
  (0 <= secs -> Q (Ret tt) (advance w 0 [ESleep secs])) ->
  wp (sleep secs) Q w.
Proof.
  intros Hneg Hpos. unfold wp, sleep.
  destruct (Z.ltb_spec secs 0); [by apply Hneg|].
  rewrite emit_advance. by apply Hpos.
Qed.

Lemma wp_mono {A} (m : M A) (Q Q' : result A -> World -> Prop) w :
  wp m Q w -> (forall r w1, Q r w1 -> Q' r w1) -> wp m Q' w.
Proof. unfold wp. auto. Qed.

Lemma preserves_bind {A B} R `{!PreOrder R} (m : M A) (f : A -> M B) :
  preserves R m -> (forall a, preserves R (f a)) -> preserves R (m ≫= f).
Proof.
  intros Hm Hf w. unfold mbind, M_bind. specialize (Hm w).
  destruct (m w) as [[a|e|] w1]; simpl in *; [|done..].
  etrans; [exact Hm|apply Hf].
Qed.

Lemma preserves_try_except {A} R `{!PreOrder R} (body : M A) handler :
  preserves R body -> (forall e, preserves R (handler e)) ->
  preserves R (try_except body handler).
Proof.
  intros Hm Hh w. unfold try_except. specialize (Hm w).
  destruct (body w) as [[a|e|] w1]; simpl in *; [done| |done].
  etrans; [exact Hm|apply Hh].
Qed.

Lemma preserves_ret {A} R `{!PreOrder R} (a : A) : preserves R (mret a : M A).
Proof. intros w. simpl. reflexivity. Qed.

Global Instance quiet_step_preorder : PreOrder quiet_step.
Proof.
  split.
  - intros w. exists []. by rewrite app_nil_r.
  - intros w1 w2 w3 (t1 & Ht1 & Hs1 & Hd1 & Hp1 & Hc1 & Hi1 & Hn1)
                    (t2 & Ht2 & Hs2 & Hd2 & Hp2 & Hc2 & Hi2 & Hn2).
    exists (t1 ++ t2)%list.
    unfold posted_videos, post_comment_calls, insert_requests in *.
    rewrite !omap_app, Hp1, Hp2, Hc1, Hc2, Hi1, Hi2.
    rewrite Ht2, Ht1, Hs2, Hs1, Hd2, Hd1, Hn2, Hn1, app_assoc. done.
Qed.

Global Instance progress_preorder : PreOrder progress.
Proof.
  split.
  - intros w. exists []. rewrite app_nil_r.
    do 4 (split; [done|]). split; [constructor|].
    intros v Hv. by apply not_elem_of_nil in Hv.
  - intros w1 w2 w3 (t1 & Ht1 & Hf1 & Hs1 & Hd1 & Hn1 & Hp1)
                    (t2 & Ht2 & Hf2 & Hs2 & Hd2 & Hn2 & Hp2).
    exists (t1 ++ t2)%list. unfold posted_videos in *. rewrite omap_app.
    split; [by rewrite Ht2, Ht1, app_assoc|].
    split; [by rewrite Hf2, Hf1|].
    split; [by etrans|].
    split; [intros path Hpath; rewrite Hd2 by (by rewrite Hf1); by apply Hd1|].
    split.
    + apply NoDup_app. split; [done|]. split; [|done].
      intros v Hv1 Hv2. apply Hp1 in Hv1 as [_ Hin]. apply Hp2 in Hv2 as [Hout _].
      by apply Hout.
    + intros v Hv. apply elem_of_app in Hv as [Hv|Hv].
      * apply Hp1 in Hv as [Hout Hin]. split; [done|]. by apply Hs2.
      * apply Hp2 in Hv as [Hout Hin]. split; [|done].
        intros Hin1. apply Hout. by apply Hs1.
Qed.

Lemma quiet_progress w w' : quiet_step w w' -> progress w w'.
Proof.
  intros (t & Ht & Hs & Hd & Hp & _). exists t. rewrite Hp, Hs, Hd.
  do 4 (split; [done|]). split; [constructor|].
  intros v Hv. by apply not_elem_of_nil in Hv.
Qed.

End Rules.

(** ** One video, whatever the settings and the surroundings *)

Section VideoStep.
Context (config : Config) (env : Env).

Lemma wp_is_video_seen video_id (Q : result bool -> World -> Prop) w :
  Q (Ret (bool_decide (HStr video_id ∈ last_seen_videos (store w)))) w ->
  wp (state.is_video_seen video_id) Q w.
Proof. done. Qed.

Lemma wp_random_randint a b (Q : result Z -> World -> Prop) w :
  (b < a -> Q (Raise ValueError) w) ->
  (forall delay, a <= delay <= b -> Q (Ret delay) (tick_rng w)) ->
  wp (templates.random_randint env a b) Q w.
Proof.
  intros Hempty Hdraw. unfold wp, templates.random_randint.
  destruct (Z.ltb_spec b a) as [Hlt|Hle]; [by apply Hempty|].
  apply Hdraw. by apply random_randint_range.
Qed.

Lemma wp_should_include_discord rate (Q : result bool -> World -> Prop) w :
  (forall include, Q (Ret include) (tick_rng w)) ->
  wp (templates.should_include_discord env rate) Q w.
Proof. intros H. apply H. Qed.

Lemma wp_get_random_comment include link (Q : result string -> World -> Prop) w :
  (forall text, Q (Ret text) (tick_rng w)) ->
  wp (templates.get_random_comment env include link) Q w.
Proof.
  intros H. unfold wp.
  destruct (get_random_comment_run env include link w) as [text ->]. apply H.
Qed.

Lemma wp_is_short video_id (Q : result bool -> World -> Prop) w :
  (forall short t,
     posted_videos t = [] -> post_comment_calls t = [] -> insert_requests t = [] ->
     Q (Ret short) (tick_videos (advance w 0 t))) ->
  wp (yt_client.is_short config env video_id) Q w.
Proof.
  intros H. unfold wp.
  destruct (videos_reply env (n_videos w)) as [e| |duration_str] eqn:Hreply.
  - rewrite is_short_without_duration by (by rewrite Hreply).
    rewrite Hreply. by apply H.
  - rewrite is_short_without_duration by (by rewrite Hreply).
    rewrite Hreply. by apply H.
  - destruct w. unfold yt_client.is_short, yt_client.get_video_duration,
      yt_client.execute_videos_list, yt_client.api_call, yt_client.next_videos_reply.
    run_monad. rewrite Hreply. simpl.
    match goal with
    | |- Q (Ret ?b) ?w1 =>
        replace w1 with
          (tick_videos (advance
             {| store := store0; disk := disk0; n_insert := n_insert0;
                n_videos := n_videos0; n_uploads := n_uploads0; n_rng := n_rng0;
                n_clock := n_clock0; n_write := n_write0; trace := trace0 |}
             0 [ERequest (ReqVideosList video_id)])) by world_eq
    end.
    by apply H.
Qed.

Lemma wp_post_comment video_id text (Q : result bool -> World -> Prop) w :
  (forall res k t,
     res <> OutOfFuel ->
     (forall e, res = Raise e -> e = ValueError) ->
     post_comment_calls t = [] ->
     insert_requests t = replicate k video_id ->
     posted_videos t = match res with Ret true => [video_id] | _ => [] end ->
     Q res (advance w k (EEnterPostComment video_id text :: t))) ->
  wp (yt_client.post_comment config env video_id text) Q w.
Proof.
  intros H. unfold wp. rewrite post_comment_unfold.
  destruct (post_comment_while_run config env (Z.to_nat (MAX_RETRIES config))
              video_id text 0 (INITIAL_BACKOFF config)
              (advance w 0 [EEnterPostComment video_id text]))
    as (res & k & t & Hrun & _ & _ & Hcalls & Hreq & _ & _ & Hres); [lia|].
  rewrite Hrun, advance_advance. simpl fst; simpl snd. apply H; try done.
  - by destruct res as [[|]| |].
  - intros e ->. by destruct Hres.
  - destruct res as [[|]|e|]; try done.
    + by destruct Hres as (_ & _ & ->).
    + by destruct Hres as (-> & _).
    + by destruct Hres as (_ & -> & _).
Qed.

Lemma list_omap_app {A B} (f : A -> option B) (l1 l2 : list A) :
  list_omap _ _ f (l1 ++ l2)%list = (list_omap _ _ f l1 ++ list_omap _ _ f l2)%list.
Proof. apply (omap_app f). Qed.

Lemma wp_mark_video_seen video_id (Q : result unit -> World -> Prop) w :
  (forall w1 t,
     store w1 = marked_store (store w) video_id (utcnow_isoformat env (n_clock w)) ->
     trace w1 = (trace w ++ t)%list ->
     (forall path, path <> state_file (store w) ->
        (disk w1 !! path) = (disk w !! path)) ->
     posted_videos t = [] -> post_comment_calls t = [] -> insert_requests t = [] ->
     Q (Ret tt) w1) ->
  wp (state.mark_video_seen env video_id) Q w.
Proof.
  intros H. unfold wp. rewrite mark_video_seen_run, save_state_run. simpl fst.
  destruct w as [s d ni nv nu nr nc nw tr]. simpl.
  destruct (write_fault env nw) eqn:Hfault; simpl.
  - eapply H; simpl; [reflexivity|reflexivity| |done..].
    intros path Hpath. by rewrite lookup_insert_ne.
  - eapply H; simpl; [reflexivity|reflexivity|done..].
  - eapply H; simpl; [reflexivity|reflexivity| |done..].
    intros path Hpath. by rewrite lookup_insert_ne.
Qed.

(** One step of symbolic execution. *)
Ltac wp_step :=
  match goal with
  | |- wp (mbind _ _) _ _ => apply wp_bind
  | |- wp (mret _) _ _ => apply wp_ret
  | |- wp (log _ _) _ _ => apply wp_log
  | |- wp (sleep _) _ _ => apply wp_sleep; intros ?
  | |- wp (state.is_video_seen _) _ _ => apply wp_is_video_seen
  | |- wp (state.mark_video_seen _ _) _ _ =>
      apply wp_mark_video_seen; intros ? ? ? ? ? ? ? ?
  | |- wp (templates.random_randint _ _ _) _ _ =>
      apply wp_random_randint; [intros ?|intros ? ?]
  | |- wp (templates.should_include_discord _ _) _ _ =>
      apply wp_should_include_discord; intros ?
  | |- wp (templates.get_random_comment _ _ _) _ _ =>
      apply wp_get_random_comment; intros ?
  | |- wp (yt_client.is_short _ _ _) _ _ =>
      apply wp_is_short; intros ? ? ? ? ?
  | |- wp (yt_client.post_comment _ _ _ _) _ _ =>
      apply wp_post_comment; intros ? ? ? ? ? ? ? ?
  | |- wp (if ?b then _ else _) _ _ => destruct b eqn:?
  | |- match ?r with Ret _ => _ | Raise _ => _ | OutOfFuel => _ end =>
      destruct r as [[|]|?|]
  end; cbv beta iota.

(** Brings the facts about the worlds of a leaf into a plain form. *)
Ltac leaf_facts :=
  simpl in *;
  repeat match goal with
         | H : bool_decide _ = true |- _ => apply bool_decide_eq_true in H
         | H : bool_decide _ = false |- _ => apply bool_decide_eq_false in H
         | H : forall e, Raise ?x = Raise e -> _ |- _ => specialize (H x eq_refl)
         | H : forall e, Ret _ = Raise e -> _ |- _ => clear H
         | H : OutOfFuel <> OutOfFuel |- _ => destruct (H eq_refl)
         | H : store ?w1 = marked_store _ _ _ |- _ =>
             unfold marked_store in H; simpl in H
         end;
  subst.

(** The video is in the seen set of the leaf: it was there, or the store
    of the leaf is the marked one. *)
Ltac leaf_seen :=
  first
    [ assumption
    | match goal with
      | H : store ?w1 = _ |- context [store ?w1] =>
          rewrite H; simpl; apply elem_of_union_r; by apply elem_of_singleton
      end ].

(** Rewrites the projections of a trace built by appending. *)
Ltac leaf_events :=
  unfold posted_videos, post_comment_calls, insert_requests, omap in *;
  simpl; repeat (rewrite list_omap_app; simpl);
  repeat match goal with
         | H : list_omap _ _ _ ?t = _ |- _ => rewrite H
         end;
  simpl; rewrite ?app_nil_r.

(** The part of [video_step] about the events and the store of a leaf. *)
Ltac leaf_trace :=
  eexists;
  (split;
   [ first [ rewrite <- ?app_assoc; reflexivity
           | match goal with
             | H : trace ?w1 = _ |- trace ?w1 = _ =>
                 rewrite H; simpl; rewrite <- ?app_assoc; reflexivity
             end ]
   | ]);
  repeat match goal with
         | H : store ?w1 = _ |- context [store ?w1] => rewrite H; simpl
         end;
  (split; [try done|]);
  (split; [try solve [done | apply union_subseteq_l]|]);
  (split; [try solve [apply union_subseteq_l | done]|]);
  (split; [try solve [done | assumption]|]);
  leaf_events.

Lemma process_video_step video w :
  wp (main.process_video config env video) (video_step video w) w.
Proof.
  unfold main.process_video. cbv zeta.
  repeat wp_step; leaf_facts; unfold video_step, seen_in; simpl;
    (split; [discriminate|]);
    (split; [intros ? Heq; first [discriminate Heq | by injection Heq as <-]|]);
    (split; [first [discriminate | intros _; leaf_seen]|]);
    (split; [first [done | intros Hin; by destruct Heqb]|]);
    leaf_trace;
    (split; [first [apply Forall_nil_2 | by apply Forall_replicate]|]);
    (split; [first [by left | right; by split]|]);
    first [ by left
          | right; repeat split;
            first [ done | apply elem_of_union_r; by apply elem_of_singleton ] ].
Qed.

Lemma wp_post_comment_returns video_id text (Q : result bool -> World -> Prop) w :
  0 <= INITIAL_BACKOFF config -> 0 <= MAX_BACKOFF config ->
  (forall value w1, Q (Ret value) w1) ->
  wp (yt_client.post_comment config env video_id text) Q w.
Proof.
  intros Hi Hc H. unfold wp.
  destruct (post_comment_returns config env video_id text w Hi Hc)
    as (value & k & t & -> & _).
  apply H.
Qed.

Lemma process_video_returns video w :
  valid_timing config -> fst (main.process_video config env video w) = Ret tt.
Proof.
  intros (Hdelay & Hi & Hc).
  change (wp (main.process_video config env video) (fun r _ => r = Ret tt) w).
  unfold main.process_video. cbv zeta.
  repeat first
    [ apply wp_post_comment_returns; [exact Hi|exact Hc|intros ? ?]
    | wp_step ];
    first [reflexivity | lia].
Qed.

End VideoStep.

(** ** The poll cycle as a whole *)

Section Cycle.
Context (config : Config) (env : Env).

Lemma quiet_step_emit e w :
  insert_requests [e] = [] -> post_comment_calls [e] = [] -> posted_videos [e] = [] ->
  quiet_step w (advance w 0 [e]).
Proof.
  intros Hi Hc Hp. exists [e]. simpl. rewrite Nat.add_0_r. done.
Qed.

Lemma log_quiet l m :
  (forall video_id, (l, m) <> (INFO, MsgPosted video_id)) ->
  preserves quiet_step (log l m).
Proof.
  intros Hm w. unfold log. rewrite emit_advance. simpl snd.
  apply quiet_step_emit; try done.
  unfold posted_videos. simpl. destruct l; try done. destruct m; try done.
  by destruct (Hm video_id).
Qed.

Lemma sleep_quiet secs : preserves quiet_step (sleep secs).
Proof.
  intros w. unfold sleep. destruct (secs <? 0); [reflexivity|].
  rewrite emit_advance. by apply quiet_step_emit.
Qed.

Lemma video_step_progress video w res w' :
  video_step video w res w' -> progress w w'.
Proof.
  intros (_ & _ & _ & _ & t & Ht & Hf & Hs & _ & Hd & _ & _ & Hp).
  exists t. do 4 (split; [done|]).
  destruct Hp as [->|(-> & Hout & Hin & _)].
  - split; [constructor|]. intros v Hv. by apply not_elem_of_nil in Hv.
  - split; [apply NoDup_singleton|].
    intros v Hv. apply list_elem_of_singleton in Hv as ->. done.
Qed.

Lemma process_video_progress video :
  preserves progress (main.process_video config env video).
Proof.
  intros w. eapply video_step_progress. apply (process_video_step config env video w).
Qed.

Lemma is_video_seen_same video_id w : snd (state.is_video_seen video_id w) = w.
Proof. done. Qed.

Lemma for_video_in_progress videos : forall new_videos_count,
  preserves progress (main.for_video_in config env videos new_videos_count).
Proof.
  induction videos as [|video rest IH]; intros count; cbn [main.for_video_in].
  - apply preserves_ret, _.
  - apply preserves_bind; [apply _|intros w; reflexivity|].
    intros seen. destruct seen; simpl; [apply IH|].
    apply preserves_bind; [apply _|apply process_video_progress|].
    intros _. apply IH.
Qed.

(** The fetch of the uploads never raises, and touches neither the store
    nor the disk. *)
Lemma get_channel_uploads_run channel_id max_results w :
  exists t,
    yt_client.get_channel_uploads env channel_id max_results w =
      (Ret (match uploads_reply env (n_uploads w) with
            | UItems videos => videos
            | _ => []
            end),
       tick_uploads (advance w 0 t))
    /\ requests t = [ReqUploads channel_id max_results]
    /\ sleeps t = []
    /\ posted_videos t = []
    /\ post_comment_calls t = []
    /\ insert_requests t = [].
Proof.
  destruct w.
  unfold yt_client.get_channel_uploads, yt_client.execute_uploads,
    yt_client.api_call, yt_client.next_uploads_reply.
  run_monad.
  destruct (uploads_reply env n_uploads0) as [e| |videos]; [destruct e|..]; simpl;
    eexists; (split; [f_equal; world_eq|]); done.
Qed.

Lemma get_channel_uploads_quiet channel_id max_results :
  preserves quiet_step (yt_client.get_channel_uploads env channel_id max_results).
Proof.
  intros w.
  destruct (get_channel_uploads_run channel_id max_results w)
    as (t & -> & _ & _ & Hp & Hc & Hi).
  exists t. simpl. rewrite Nat.add_0_r. done.
Qed.

Lemma log_progress l m :
  (forall video_id, (l, m) <> (INFO, MsgPosted video_id)) ->
  preserves progress (log l m).
Proof. intros H w. by apply quiet_progress, log_quiet. Qed.

Lemma check_for_new_videos_progress :
  preserves progress (main.check_for_new_videos config env).
Proof.
  unfold main.check_for_new_videos.
  destruct (String.eqb (CHANNEL_ID config) ""); [by apply log_progress|].
  apply preserves_bind; [apply _|by apply log_progress|]. intros _.
  apply preserves_bind; [apply _| |].
  { intros w. apply quiet_progress, get_channel_uploads_quiet. }
  intros [|video rest]; [by apply log_progress|].
  apply preserves_bind; [apply _|apply for_video_in_progress|].
  intros count. destruct (count =? 0); by apply log_progress.
Qed.

Lemma poll_once_progress : preserves progress (main.poll_once config env).
Proof.
  unfold main.poll_once.
  apply preserves_bind; [apply _| |intros _].
  { apply preserves_try_except; [apply _|apply check_for_new_videos_progress|].
    intros e. by apply log_progress. }
  apply preserves_bind; [apply _|by apply log_progress|intros _].
  intros w. apply quiet_progress, sleep_quiet.
Qed.

Lemma polling_loop_progress iterations :
  preserves progress (main.polling_loop config env iterations).
Proof.
  induction iterations as [|n IH]; cbn [main.polling_loop].
  - apply preserves_ret, _.
  - apply preserves_bind; [apply _|apply poll_once_progress|intros _; apply IH].
Qed.

End Cycle.

(** X14. One call of [process_video] sends comment insertions for its own
    video only and enters [post_comment] at most once, never for a video
    that is in the seen set; when a comment is accepted, the call returns
    normally and the video is in the seen set afterwards. This holds for
    every setting and every behaviour of the remote side and of the file
    system. *)
Theorem process_video_at_most_one_comment config env video w :
  let run := main.process_video config env video w in
  let t := events_since w (snd run) in
  Forall (fun video_id => video_id = id video) (insert_requests t)
  /\ (post_comment_calls t = []
      \/ post_comment_calls t = [id video] /\ ~ seen_in w video)
  /\ (posted_videos t = []
      \/ posted_videos t = [id video]
         /\ ~ seen_in w video /\ seen_in (snd run) video /\ fst run = Ret tt).
Proof.
  cbv zeta.
  destruct (process_video_step config env video w)
    as (_ & _ & _ & _ & t & Ht & _ & _ & _ & _ & Hi & Hc & Hp).
  by rewrite (events_since_extension _ _ _ Ht).
Qed.

(** X15. [process_video] ends in one of two ways: it returns and the video
    is in the seen set, or it raises [ValueError] (from [random.randint]
    or [time.sleep]) and then the store and the disk are as they were and
    no comment was accepted, so that the video is still new at the next
    cycle. *)
Theorem process_video_ends config env video w :
  let run := main.process_video config env video w in
  (fst run = Ret tt /\ seen_in (snd run) video)
  \/ (fst run = Raise ValueError
      /\ store (snd run) = store w
      /\ disk (snd run) = disk w
      /\ posted_videos (events_since w (snd run)) = []).
Proof.
  cbv zeta.
  destruct (process_video_step config env video w)
    as (Hfuel & Hraise & Hret & _ & t & Ht & _ & _ & _ & _ & _ & _ & Hp).
  rewrite (events_since_extension _ _ _ Ht).
  destruct (fst (main.process_video config env video w)) as [[]|e|] eqn:Hres.
  - left. by split; [|apply Hret].
  - right. destruct (Hraise e eq_refl) as (-> & Hs & Hd).
    repeat split; try done.
    by destruct Hp as [Hp|(_ & _ & _ & ?)].
  - done.
Qed.

(** X16. When the comment delay range is not empty and not negative and
    the backoff settings are not negative, [process_video] returns
    normally and leaves the video in the seen set, whatever the remote
    side answers and whether or not the state file can be written. *)
Theorem process_video_returns_and_marks_seen config env video w :
  valid_timing config ->
  let run := main.process_video config env video w in
  fst run = Ret tt /\ seen_in (snd run) video.
Proof.
  intros Htiming. cbv zeta.
  pose proof (process_video_returns config env video w Htiming) as Hret.
  split; [done|].
  destruct (process_video_step config env video w) as (_ & _ & Hseen & _).
  by apply Hseen.
Qed.

Lemma process_video_returns_and_marks_seen_witness :
  let run := main.process_video (default_config "UC1")
               (sample_env [Failure (HttpError 403)] [] [] [OpenFails])
               (sample_video "a") (sample_world []) in
  fst run = Ret tt /\ seen_in (snd run) (sample_video "a").
Proof.
  apply (process_video_returns_and_marks_seen (default_config "UC1")).
  unfold valid_timing. simpl. lia.
Defined.

(** ** The Shorts filter *)

Section Filter.
Context (config : Config) (env : Env).

Lemma is_short_run video_id w :
  exists t,
    yt_client.is_short config env video_id w =
      (Ret match videos_reply env (n_videos w) with
           | VDuration duration_str =>
               yt_client._parse_duration duration_str <=? MAX_SHORTS_DURATION config
           | _ => false
           end,
       tick_videos (advance w 0 t))
    /\ requests t = [ReqVideosList video_id]
    /\ sleeps t = []
    /\ post_comment_calls t = []
    /\ (forall l m, ELog l m ∈ t -> exists e, videos_reply env (n_videos w) = VRaises e).
Proof.
  destruct w.
  unfold yt_client.is_short, yt_client.get_video_duration,
    yt_client.execute_videos_list, yt_client.api_call, yt_client.next_videos_reply.
  run_monad.
  destruct (videos_reply env n_videos0) as [e| |duration_str]; simpl;
    eexists; (split; [f_equal; world_eq|]); (do 3 (split; [done|]));
    intros l m Hin; rewrite ?app_nil_r in Hin.
  - by exists e.
  - apply list_elem_of_singleton in Hin. discriminate.
  - apply list_elem_of_singleton in Hin. discriminate.
Qed.

(** What [process_video] does with a new video that [is_short] rejects. *)
Lemma process_video_rejected_by_filter video w :
  SHORTS_ONLY config = true ->
  ~ seen_in w video ->
  ~ short_duration config (videos_reply env (n_videos w)) ->
  exists t w',
    main.process_video config env video w = (Ret tt, w')
    /\ trace w' = (trace w ++ t)%list
    /\ requests t = [ReqVideosList (id video)]
    /\ post_comment_calls t = []
    /\ sleeps t = []
    /\ n_rng w' = n_rng w
    /\ n_insert w' = n_insert w
    /\ store w' = marked_store (store w) (id video) (utcnow_isoformat env (n_clock w)).
Proof.
  intros Hshorts Hunseen Hlong.
  unfold main.process_video. cbv zeta.
  rewrite (bind_run _ _ _ _ _ (is_video_seen_run _ _)).
  rewrite bool_decide_eq_false_2 by exact Hunseen.
  rewrite (bind_run _ _ _ _ _ (log_run _ _ _)).
  rewrite Hshorts.
  destruct (is_short_run (id video)
              (advance w 0 [ELog INFO (MsgProcessing (title video) (id video))]))
    as (t & Hrun & Hreq & Hsleeps & Hcalls & _).
  assert (Hfalse : match videos_reply env (n_videos w) with
                   | VDuration duration_str =>
                       yt_client._parse_duration duration_str
                         <=? MAX_SHORTS_DURATION config
                   | _ => false
                   end = false).
  { unfold short_duration in Hlong.
    destruct (videos_reply env (n_videos w)); try done.
    apply Z.leb_gt. lia. }
  simpl n_videos in Hrun. rewrite Hfalse in Hrun.
  rewrite (bind_run _ _ _ _ _ Hrun).
  change (negb false) with true. cbv iota.
  rewrite (bind_run _ _ _ _ _ (log_run _ _ _)).
  rewrite mark_video_seen_run, save_state_run.
  unfold requests, post_comment_calls, sleeps in *.
  destruct w as [s d ni nv nu nr nc nw tr]. simpl.
  destruct (write_fault env nw); simpl;
    eexists _, _; (split; [reflexivity|]); simpl;
    (split; [rewrite <- ?app_assoc; reflexivity|]);
    simpl; rewrite ?omap_app, ?Hreq, ?Hsleeps, ?Hcalls; simpl;
    rewrite ?Nat.add_0_r; done.
Qed.

Lemma for_video_in_all_seen videos : forall new_videos_count w,
  Forall (seen_in w) videos ->
  main.for_video_in config env videos new_videos_count w = (Ret new_videos_count, w).
Proof.
  induction videos as [|video rest IH]; intros count w Hseen; [done|].
  apply Forall_cons in Hseen as [Hvideo Hrest].
  cbn [main.for_video_in].
  rewrite (bind_run _ _ _ _ _ (is_video_seen_run _ _)).
  rewrite bool_decide_eq_true_2 by exact Hvideo.
  change (negb true) with false. cbv iota. by apply IH.
Qed.

Lemma check_for_new_videos_idle w :
  nothing_new config env w ->
  exists t,
    main.check_for_new_videos config env w =
      (Ret tt,
       if String.eqb (CHANNEL_ID config) "" then advance w 0 t
       else tick_uploads (advance w 0 t))
    /\ requests t = (if String.eqb (CHANNEL_ID config) "" then []
                     else [ReqUploads (CHANNEL_ID config) 5])
    /\ sleeps t = []
    /\ post_comment_calls t = []
    /\ insert_requests t = [].
Proof.
  intros Hidle. unfold main.check_for_new_videos.
  destruct (String.eqb_spec (CHANNEL_ID config) "") as [Hnone|Hchannel].
  { rewrite log_run. by eexists. }
  destruct Hidle as [Hnone|Hreply]; [done|].
  rewrite (bind_run _ _ _ _ _ (log_run _ _ _)).
  destruct (get_channel_uploads_run env (CHANNEL_ID config) 5
              (advance w 0 [ELog INFO (MsgChecking (CHANNEL_ID config))]))
    as (t & Hrun & Hreq & Hsleeps & _ & Hcalls & Hins).
  change (n_uploads (advance w 0 _)) with (n_uploads w) in Hrun.
  rewrite (bind_run _ _ _ _ _ Hrun).
  unfold requests, sleeps, post_comment_calls, insert_requests in *.
  destruct (uploads_reply env (n_uploads w)) as [e| |[|video rest]].
  1-3: rewrite log_run; destruct w; eexists; (split; [f_equal; world_eq|]);
       simpl; rewrite ?omap_app, ?Hreq, ?Hsleeps, ?Hcalls, ?Hins; done.
  cbv iota.
  match goal with
  | |- context [(_ ≫= _) ?w1] =>
      rewrite (bind_run _ _ _ _ _ (for_video_in_all_seen (video :: rest) 0 w1 Hreply))
  end.
  change (0 =? 0) with true. cbv iota.
  rewrite log_run; destruct w; eexists; (split; [f_equal; world_eq|]);
    simpl; rewrite ?omap_app, ?Hreq, ?Hsleeps, ?Hcalls, ?Hins; done.
Qed.

Lemma poll_once_run w :
  main.poll_once config env w =
    if POLL_INTERVAL_SECONDS config <? 0 then
      (Raise ValueError,
       advance (after_check config env w) 0
         [ELog INFO (MsgWaitingPoll (POLL_INTERVAL_SECONDS config))])
    else
      (Ret tt,
       advance (after_check config env w) 0
         [ELog INFO (MsgWaitingPoll (POLL_INTERVAL_SECONDS config));
          ESleep (POLL_INTERVAL_SECONDS config)]).
Proof.
  unfold main.poll_once, after_check. cbv zeta.
  pose proof (check_for_new_videos_terminates config env w) as Hfuel.
  assert (Htry : try_except (main.check_for_new_videos config env)
                   (fun _ => log ERROR MsgPollError) w =
                 (Ret tt,
                  match fst (main.check_for_new_videos config env w) with
                  | Raise _ =>
                      advance (snd (main.check_for_new_videos config env w)) 0
                        [ELog ERROR MsgPollError]
                  | _ => snd (main.check_for_new_videos config env w)
                  end)).
  { unfold try_except.
    destruct (main.check_for_new_videos config env w) as [[[]|e|] w1];
      simpl in *; [done|apply log_run|done]. }
  rewrite (bind_run _ _ _ _ _ Htry).
  rewrite (bind_run _ _ _ _ _ (log_run _ _ _)).
  unfold sleep. destruct (POLL_INTERVAL_SECONDS config <? 0); [done|].
  by rewrite emit_advance, advance_advance.
Qed.

Lemma after_check_progress w : progress w (after_check config env w).
Proof.
  unfold after_check. cbv zeta.
  pose proof (check_for_new_videos_progress config env w) as Hcheck.
  destruct (fst (main.check_for_new_videos config env w)); try done.
  etrans; [exact Hcheck|]. apply quiet_progress. by apply quiet_step_emit.
Qed.

Lemma polling_loop_returns iterations : forall w,
  0 <= POLL_INTERVAL_SECONDS config ->
  exists w' t,
    main.polling_loop config env iterations w = (Ret tt, w')
    /\ trace w' = (trace w ++ t)%list
    /\ (iterations <= length (sleeps t))%nat.
Proof.
  induction iterations as [|n IH]; intros w Hinterval; cbn [main.polling_loop].
  - exists w, []. rewrite app_nil_r. by repeat split.
  - pose proof (poll_once_run w) as Hrun.
    rewrite (proj2 (Z.ltb_ge _ _) Hinterval) in Hrun.
    rewrite (bind_run _ _ _ _ _ Hrun).
    destruct (after_check_progress w) as (t1 & Ht1 & _).
    destruct (IH (advance (after_check config env w) 0
                    [ELog INFO (MsgWaitingPoll (POLL_INTERVAL_SECONDS config));
                     ESleep (POLL_INTERVAL_SECONDS config)]) Hinterval)
      as (w' & t2 & -> & Ht2 & Hlen).
    exists w', ((t1 ++ [ELog INFO (MsgWaitingPoll (POLL_INTERVAL_SECONDS config));
                         ESleep (POLL_INTERVAL_SECONDS config)]) ++ t2)%list.
    split; [done|]. split.
    + rewrite Ht2. simpl. rewrite Ht1. by rewrite <- !app_assoc.
    + unfold sleeps in *. rewrite !omap_app, !length_app. simpl. lia.
Qed.

Lemma polling_loop_stops iterations w :
  POLL_INTERVAL_SECONDS config < 0 ->
  main.polling_loop config env (S iterations) w =
    (Raise ValueError,
     advance (after_check config env w) 0
       [ELog INFO (MsgWaitingPoll (POLL_INTERVAL_SECONDS config))]).
Proof.
  intros Hinterval. cbn [main.polling_loop].
  pose proof (poll_once_run w) as Hrun.
  rewrite (proj2 (Z.ltb_lt _ _) Hinterval) in Hrun.
  unfold mbind, M_bind. by rewrite Hrun.
Qed.

End Filter.

(** X17. With the Shorts filter on, a new video that [is_short] rejects
    (its duration is over the limit, or no duration could be had) is
    skipped but still marked seen: [process_video] returns, sends the one
    duration request and nothing else, does not enter [post_comment],
    sleeps nothing, draws no random number, and the video is in the seen
    set afterwards, so that it is never looked at again. *)
Theorem process_video_skips_rejected_video config env video w :
  SHORTS_ONLY config = true ->
  ~ seen_in w video ->
  ~ short_duration config (videos_reply env (n_videos w)) ->
  let run := main.process_video config env video w in
  let t := events_since w (snd run) in
  fst run = Ret tt
  /\ requests t = [ReqVideosList (id video)]
  /\ post_comment_calls t = []
  /\ sleeps t = []
  /\ n_rng (snd run) = n_rng w
  /\ seen_in (snd run) video.
Proof.
  intros Hshorts Hunseen Hlong. cbv zeta.
  destruct (process_video_rejected_by_filter config env video w Hshorts Hunseen Hlong)
    as (t & w' & -> & Ht & Hreq & Hcalls & Hsleeps & Hrng & _ & Hstore).
  simpl fst; simpl snd. rewrite (events_since_extension _ _ _ Ht).
  do 5 (split; [done|]).
  unfold seen_in. rewrite Hstore. simpl.
  apply elem_of_union_r. by apply elem_of_singleton.
Qed.

Lemma process_video_skips_rejected_video_witness :
  let env := sample_env [] [VDuration "PT5M"] [] [] in
  let w := sample_world [] in
  let run := main.process_video shorts_config env (sample_video "a") w in
  let t := events_since w (snd run) in
  fst run = Ret tt
  /\ requests t = [ReqVideosList "a"]
  /\ post_comment_calls t = []
  /\ sleeps t = []
  /\ n_rng (snd run) = n_rng w
  /\ seen_in (snd run) (sample_video "a").
Proof.
  apply (process_video_skips_rejected_video shorts_config
           (sample_env [] [VDuration "PT5M"] [] []) (sample_video "a")
           (sample_world [])).
  - reflexivity.
  - apply (bool_decide_unpack _). vm_compute. exact I.
  - vm_compute. intros H. apply H. reflexivity.
Defined.

(** X18. [is_short] never raises and sends exactly one duration request;
    it answers [True] exactly when the request yields a duration string
    whose parsed number of seconds is at most [MAX_SHORTS_DURATION], and
    [False] when the request fails or yields no item. It changes neither
    the store nor the disk and sleeps nothing. *)
Theorem is_short_answers_from_duration config env video_id w :
  let run := yt_client.is_short config env video_id w in
  let t := events_since w (snd run) in
  fst run = Ret match videos_reply env (n_videos w) with
                | VDuration duration_str =>
                    yt_client._parse_duration duration_str
                      <=? MAX_SHORTS_DURATION config
                | _ => false
                end
  /\ requests t = [ReqVideosList video_id]
  /\ sleeps t = []
  /\ store (snd run) = store w
  /\ disk (snd run) = disk w.
Proof.
  cbv zeta.
  destruct (is_short_run config env video_id w) as (t & -> & Hreq & Hsleeps & _).
  simpl fst; simpl snd.
  by rewrite (events_since_extension w _ t).
Qed.

(** X19. [get_channel_uploads] never raises: it asks the remote side for
    the uploads of the channel once and returns the videos of the answer,
    or the empty list when a request fails or the channel is not known,
    so that its caller cannot tell a failure from a channel without
    uploads. It changes neither the store nor the disk. *)
Theorem get_channel_uploads_never_raises env channel_id max_results w :
  let run := yt_client.get_channel_uploads env channel_id max_results w in
  let t := events_since w (snd run) in
  fst run = Ret match uploads_reply env (n_uploads w) with
                | UItems videos => videos
                | _ => []
                end
  /\ requests t = [ReqUploads channel_id max_results]
  /\ store (snd run) = store w
  /\ disk (snd run) = disk w.
Proof.
  cbv zeta.
  destruct (get_channel_uploads_run env channel_id max_results w)
    as (t & -> & Hreq & _).
  simpl fst; simpl snd.
  by rewrite (events_since_extension w _ t).
Qed.

(** X20. A cycle that finds nothing new (no channel configured, a failed
    fetch, an unknown channel, no uploads, or only videos of the seen
    set) returns normally, asks the remote side for nothing but the
    uploads of the channel (and for nothing at all without a channel),
    enters [post_comment] for no video, sleeps nothing, and leaves the
    store and the disk as they were. *)
Theorem check_for_new_videos_nothing_new config env w :
  nothing_new config env w ->
  let run := main.check_for_new_videos config env w in
  let t := events_since w (snd run) in
  fst run = Ret tt
  /\ requests t = (if String.eqb (CHANNEL_ID config) "" then []
                   else [ReqUploads (CHANNEL_ID config) 5])
  /\ post_comment_calls t = []
  /\ sleeps t = []
  /\ store (snd run) = store w
  /\ disk (snd run) = disk w.
Proof.
  intros Hidle. cbv zeta.
  destruct (check_for_new_videos_idle config env w Hidle)
    as (t & -> & Hreq & Hsleeps & Hcalls & _).
  simpl fst; simpl snd.
  assert (Ht : trace (if String.eqb (CHANNEL_ID config) "" then advance w 0 t
                      else tick_uploads (advance w 0 t)) = (trace w ++ t)%list)
    by (by destruct (String.eqb (CHANNEL_ID config) "")).
  rewrite (events_since_extension _ _ _ Ht).
  do 4 (split; [done|]).
  by destruct (String.eqb (CHANNEL_ID config) "").
Qed.

Lemma check_for_new_videos_nothing_new_witness :
  let config := default_config "UC1" in
  let env := sample_env [] [] [UItems [sample_video "a"; sample_video "b"]] [] in
  let w := sample_world ["b"; "a"] in
  let run := main.check_for_new_videos config env w in
  let t := events_since w (snd run) in
  fst run = Ret tt
  /\ requests t = [ReqUploads "UC1" 5]
  /\ post_comment_calls t = []
  /\ sleeps t = []
  /\ store (snd run) = store w
  /\ disk (snd run) = disk w.
Proof.
  apply (check_for_new_videos_nothing_new (default_config "UC1")
           (sample_env [] [] [UItems [sample_video "a"; sample_video "b"]] [])
           (sample_world ["b"; "a"])).
  right. simpl. apply (bool_decide_unpack _). vm_compute. exact I.
Defined.

(** X21. When the fetch of a cycle returns videos with distinct ids, the
    delay and backoff settings are valid and the Shorts filter lets the
    new videos through, the cycle returns normally, enters [post_comment]
    once for each video that was not in the seen set, in the order of the
    fetch and for no other video, and ends with exactly the fetched new
    videos added to the seen set; this for any number of videos and any
    answers to the comment insertions. *)
Theorem check_for_new_videos_comments_each_new_video config env w videos :
  CHANNEL_ID config <> "" ->
  uploads_reply env (n_uploads w) = UItems videos ->
  NoDup (id <$> videos) ->
  valid_timing config ->
  shorts_filter_passes config env w (length (unseen_videos w videos)) ->
  let run := main.check_for_new_videos config env w in
  let t := events_since w (snd run) in
  fst run = Ret tt
  /\ post_comment_calls t = id <$> unseen_videos w videos
  /\ last_seen_videos (store (snd run)) =
       last_seen_videos (store w)
       ∪ list_to_set ((fun video => HStr (id video)) <$> unseen_videos w videos)
  /\ Forall (seen_in (snd run)) videos.
Proof.
  intros Hchannel Hreply Hnodup Htiming Hfilter. cbv zeta.
  assert (Hall : forall w',
    last_seen_videos (store w') =
      last_seen_videos (store w)
      ∪ list_to_set ((fun video => HStr (id video)) <$> unseen_videos w videos) ->
    Forall (seen_in w') videos).
  { intros w' Hstore. apply Forall_forall. intros v Hv.
    unfold seen_in. rewrite Hstore.
    destruct (decide (seen_in w v)) as [Hs|Hn]; [by apply elem_of_union_l|].
    apply elem_of_union_r, elem_of_list_to_set.
    apply (list_elem_of_fmap_2 (fun video => HStr (id video))).
    unfold unseen_videos. by apply list_elem_of_filter. }
  unfold main.check_for_new_videos.
  rewrite (proj2 (String.eqb_neq _ _) Hchannel).
  rewrite (bind_run _ _ _ _ _ (log_run _ _ _)).
  assert (Hreply' : uploads_reply env
            (n_uploads (advance w 0 [ELog INFO (MsgChecking (CHANNEL_ID config))]))
          = UItems videos) by exact Hreply.
  rewrite (bind_run _ _ _ _ _ (get_channel_uploads_items env _ _ videos _ Hreply')).
  clear Hreply'.
  destruct videos as [|video rest].
  { rewrite log_run. simpl fst; simpl snd.
    rewrite (events_since_extension w _
               [ELog INFO (MsgChecking (CHANNEL_ID config));
                ERequest (ReqUploads (CHANNEL_ID config) 5);
                ELog INFO (MsgFetched 0 (CHANNEL_ID config));
                ELog INFO MsgNoVideos])
      by (simpl; by rewrite <- !app_assoc).
    split; [done|]. split; [done|]. split; [|constructor].
    simpl. change (list_to_set _) with (∅ : gset hashable).
    by rewrite (right_id_L ∅ (∪)). }
  set (videos := video :: rest) in *.
  set (w2 := advance _ 0 [ELog INFO (MsgFetched _ _)]).
  destruct (for_video_in_run config env videos 0 w2 Htiming Hnodup)
    as (w' & t & Hrun & Hstore & Htrace & Hcalls & _); [exact Hfilter|].
  change (unseen_videos w2 videos) with (unseen_videos w videos) in *.
  change (store w2) with (store w) in *.
  cbv iota. rewrite (bind_run _ _ _ _ _ Hrun).
  assert (Hlog : exists m,
    (if 0 + Z.of_nat (length (unseen_videos w videos)) =? 0
     then log INFO MsgNoNewVideos
     else log INFO (MsgProcessed (0 + Z.of_nat (length (unseen_videos w videos))))) w'
    = (Ret tt, advance w' 0 [ELog INFO m])).
  { destruct (_ =? 0); eexists; apply log_run. }
  destruct Hlog as (m & ->). simpl fst; simpl snd.
  assert (Hext : trace (advance w' 0 [ELog INFO m]) =
     (trace w ++ ([ELog INFO (MsgChecking (CHANNEL_ID config));
                   ERequest (ReqUploads (CHANNEL_ID config) 5);
                   ELog INFO (MsgFetched (length videos) (CHANNEL_ID config))]
                  ++ t ++ [ELog INFO m]))%list).
  { simpl. rewrite Htrace. subst w2. simpl. by rewrite <- !app_assoc. }
  rewrite (events_since_extension _ _ _ Hext).
  split; [done|]. split; [|split; [exact Hstore|by apply Hall]].
  unfold post_comment_calls in *. simpl. by rewrite omap_app, Hcalls, app_nil_r.
Qed.

Lemma check_for_new_videos_comments_each_new_video_witness :
  let config := default_config "UC1" in
  let videos := [sample_video "a"; sample_video "b"; sample_video "c";
                 sample_video "d"] in
  let env := sample_env [Failure (HttpError 503); Success; Failure (HttpError 403)]
               [] [UItems videos] [DumpFails] in
  let w := sample_world ["c"] in
  let run := main.check_for_new_videos config env w in
  let t := events_since w (snd run) in
  fst run = Ret tt
  /\ post_comment_calls t = id <$> unseen_videos w videos
  /\ last_seen_videos (store (snd run)) =
       last_seen_videos (store w)
       ∪ list_to_set ((fun video => HStr (id video)) <$> unseen_videos w videos)
  /\ Forall (seen_in (snd run)) videos.
Proof.
  apply (check_for_new_videos_comments_each_new_video (default_config "UC1")
           (sample_env [Failure (HttpError 503); Success; Failure (HttpError 403)]
              [] [UItems [sample_video "a"; sample_video "b"; sample_video "c";
                          sample_video "d"]] [DumpFails])
           (sample_world ["c"])
           [sample_video "a"; sample_video "b"; sample_video "c"; sample_video "d"]).
  - discriminate.
  - reflexivity.
  - apply (bool_decide_unpack _). vm_compute. exact I.
  - repeat split; vm_compute; discriminate.
  - intros H. discriminate H.
Defined.

(** X22. Over any number of passes of the polling loop, whatever the
    settings, the answers of the remote side and the faults of the file
    system, no video gets two accepted comments, and every video that got
    one was not in the seen set when the loop started and is in it when
    the loop is left. *)
Theorem polling_loop_never_comments_twice config env iterations w :
  let w' := snd (main.polling_loop config env iterations w) in
  let posted := posted_videos (events_since w w') in
  NoDup posted
  /\ forall video_id, video_id ∈ posted ->
       (HStr video_id ∉ last_seen_videos (store w))
       /\ (HStr video_id ∈ last_seen_videos (store w')).
Proof.
  cbv zeta.
  destruct (polling_loop_progress config env iterations w)
    as (t & Ht & _ & _ & _ & Hnodup & Hposted).
  by rewrite (events_since_extension _ _ _ Ht).
Qed.

(** X23. Over any number of passes of the polling loop the events are
    only added to, the store keeps its state file path, the seen set
    loses no id, and no file other than the state file is created,
    changed or removed. *)
Theorem polling_loop_keeps_state config env iterations w :
  let w' := snd (main.polling_loop config env iterations w) in
  trace w' = (trace w ++ events_since w w')%list
  /\ state_file (store w') = state_file (store w)
  /\ last_seen_videos (store w) ⊆ last_seen_videos (store w')
  /\ forall path, path <> state_file (store w) ->
       (disk w' !! path) = (disk w !! path).
Proof.
  cbv zeta.
  destruct (polling_loop_progress config env iterations w)
    as (t & Ht & Hfile & Hseen & Hdisk & _).
  by rewrite (events_since_extension _ _ _ Ht).
Qed.

(** X24. With a poll interval that is not negative, one pass of the loop
    body returns normally whatever [check_for_new_videos] did: when the
    check raised, the pass logs the polling error; in every case it then
    logs the wait and sleeps the poll interval, and these are the last
    events of the pass. *)
Theorem poll_once_swallows_exceptions config env w :
  0 <= POLL_INTERVAL_SECONDS config ->
  let check := main.check_for_new_videos config env w in
  let run := main.poll_once config env w in
  fst run = Ret tt
  /\ events_since w (snd run) =
       (events_since w (snd check)
        ++ match fst check with
           | Raise _ => [ELog ERROR MsgPollError]
           | _ => []
           end
        ++ [ELog INFO (MsgWaitingPoll (POLL_INTERVAL_SECONDS config));
            ESleep (POLL_INTERVAL_SECONDS config)])%list
  /\ store (snd run) = store (snd check)
  /\ disk (snd run) = disk (snd check).
Proof.
  intros Hinterval. cbv zeta.
  rewrite poll_once_run, (proj2 (Z.ltb_ge _ _) Hinterval).
  simpl fst; simpl snd. unfold after_check. cbv zeta.
  destruct (check_for_new_videos_progress config env w) as (t & Ht & _).
  rewrite (events_since_extension _ _ _ Ht).
  split; [done|]. split.
  - apply events_since_extension.
    destruct (fst (main.check_for_new_videos config env w)); simpl;
      rewrite Ht, <- ?app_assoc; done.
  - by destruct (fst (main.check_for_new_videos config env w)).
Qed.

Lemma poll_once_swallows_exceptions_witness :
  let config := delay_config 30 10 in
  let env := sample_env [] [] [UItems [sample_video "a"]] [] in
  let w := sample_world [] in
  let check := main.check_for_new_videos config env w in
  let run := main.poll_once config env w in
  fst run = Ret tt
  /\ events_since w (snd run) =
       (events_since w (snd check)
        ++ match fst check with
           | Raise _ => [ELog ERROR MsgPollError]
           | _ => []
           end
        ++ [ELog INFO (MsgWaitingPoll (POLL_INTERVAL_SECONDS config));
            ESleep (POLL_INTERVAL_SECONDS config)])%list
  /\ store (snd run) = store (snd check)
  /\ disk (snd run) = disk (snd check).
Proof.
  apply (poll_once_swallows_exceptions (delay_config 30 10)
           (sample_env [] [] [UItems [sample_video "a"]] []) (sample_world [])).
  vm_compute. discriminate.
Defined.

(** X25. With a poll interval that is not negative the polling loop is
    never left through an exception: every number of passes returns
    normally, and each pass slept at least once. *)
Theorem polling_loop_survives config env iterations w :
  0 <= POLL_INTERVAL_SECONDS config ->
  let run := main.polling_loop config env iterations w in
  fst run = Ret tt
  /\ (iterations <= length (sleeps (events_since w (snd run))))%nat.
Proof.
  intros Hinterval. cbv zeta.
  destruct (polling_loop_returns config env iterations w Hinterval)
    as (w' & t & -> & Ht & Hlen).
  simpl fst; simpl snd. by rewrite (events_since_extension _ _ _ Ht).
Qed.

Lemma polling_loop_survives_witness :
  let config := delay_config 30 10 in
  let env := sample_env [] [] [UItems [sample_video "a"]; URaises (HttpError 500)] [] in
  let run := main.polling_loop config env 3 (sample_world []) in
  fst run = Ret tt
  /\ (3 <= length (sleeps (events_since (sample_world []) (snd run))))%nat.
Proof.
  apply (polling_loop_survives (delay_config 30 10)
           (sample_env [] [] [UItems [sample_video "a"]; URaises (HttpError 500)] [])
           3 (sample_world [])).
  vm_compute. discriminate.
Defined.

(** X26. With a negative poll interval the loop ends at the end of its
    first pass: [time.sleep] raises [ValueError], which nothing in [main]
    handles, after the check of that pass was done and the wait was
    logged; the number of passes asked for makes no difference. *)
Theorem polling_loop_negative_interval_stops config env iterations w :
  POLL_INTERVAL_SECONDS config < 0 ->
  let run := main.polling_loop config env (S iterations) w in
  fst run = Raise ValueError
  /\ snd run = snd (main.poll_once config env w)
  /\ snd run = advance (after_check config env w) 0
                 [ELog INFO (MsgWaitingPoll (POLL_INTERVAL_SECONDS config))].
Proof.
  intros Hinterval. cbv zeta.
  rewrite (polling_loop_stops config env iterations w Hinterval).
  rewrite poll_once_run, (proj2 (Z.ltb_lt _ _) Hinterval). done.
Qed.

Lemma polling_loop_negative_interval_stops_witness :
  let config := interval_config (-1) in
  let env := sample_env [] [] [UItems [sample_video "a"]] [] in
  let w := sample_world [] in
  let run := main.polling_loop config env 4 w in
  fst run = Raise ValueError
  /\ snd run = snd (main.poll_once config env w)
  /\ snd run = advance (after_check config env w) 0
                 [ELog INFO (MsgWaitingPoll (POLL_INTERVAL_SECONDS config))].
Proof.
  apply (polling_loop_negative_interval_stops (interval_config (-1))
           (sample_env [] [] [UItems [sample_video "a"]] []) 3 (sample_world [])).
  reflexivity.
Defined.
